(** * MGNREGA Saathi: the reconciliation engine, the query resolver and the
      derived metrics, as a shallow embedding of the JavaScript sources.

    Conventions of the embedding.
    - JavaScript strings are Rocq strings read as sequences of code units;
      [toUpperCase] is the ASCII case mapping.
    - JavaScript numbers are [number]: a rational, NaN or a signed infinity.
      Arithmetic is exact on the rationals (binary rounding of doubles is
      outside the model); an absent property read in a numeric context
      behaves as NaN does, and is represented by it.
    - 32-bit integer operators are written on Z with the wrap-around spelled
      out ([toInt32]).
    - The relational store is a collaborator (Sequelize over MySQL); it is
      modelled as tables keyed by their declared keys, with the NOT NULL and
      foreign-key constraints the model files declare. *)

From Stdlib Require Import ZArith QArith Qabs Qround String Ascii List Lia Lqa Bool Sorted.
From stdpp Require Import base option list gmap strings.

Local Open Scope string_scope.
Local Open Scope Z_scope.

(** ** JavaScript primitives *)

Module JS.

(** *** Strings *)

Definition charCode (c : ascii) : Z := Z.of_nat (nat_of_ascii c).

Definition upper_char (c : ascii) : ascii :=
  let n := nat_of_ascii c in
  if ((97 <=? n)%nat && (n <=? 122)%nat)%bool then ascii_of_nat (n - 32) else c.

Fixpoint toUpperCase (s : string) : string :=
  match s with
  | EmptyString => EmptyString
  | String c s' => String (upper_char c) (toUpperCase s')
  end.

(** [s.substring(start, stop)] for [start <= stop]. *)
Definition substring (start stop : nat) (s : string) : string :=
  String.substring start (stop - start) s.

(** [s.includes(c)] for a one-character needle. *)
Fixpoint includes (s : string) (c : ascii) : bool :=
  match s with
  | EmptyString => false
  | String d s' => if Ascii.eqb d c then true else includes s' c
  end.

(** [s.split(c)] for a one-character separator: never the empty array. *)
Fixpoint split (s : string) (sep : ascii) : list string :=
  match s with
  | EmptyString => [EmptyString]
  | String c s' =>
      if Ascii.eqb c sep then EmptyString :: split s' sep
      else match split s' sep with
           | p :: ps => String c p :: ps
           | [] => [String c EmptyString]
           end
  end.

Fixpoint repeat_char (c : ascii) (n : nat) : string :=
  match n with
  | O => EmptyString
  | S n' => String c (repeat_char c n')
  end.

(** [s.padStart(target, c)] for a one-character filler. *)
Definition padStart (s : string) (target : nat) (c : ascii) : string :=
  repeat_char c (target - String.length s) +:+ s.

(** A falsy string is the empty one; [undefined] is [None]. *)
Definition truthy_str (o : option string) : bool :=
  match o with
  | Some s => negb (String.eqb s "")
  | None => false
  end.

(** [a || b] where [b] is a string. *)
Definition or_str (o : option string) (d : string) : string :=
  match o with
  | Some s => if String.eqb s "" then d else s
  | None => d
  end.

(** *** Decimal digits *)

Definition is_digit (c : ascii) : bool :=
  let n := nat_of_ascii c in ((48 <=? n)%nat && (n <=? 57)%nat)%bool.

Definition digit_val (c : ascii) : Z := charCode c - 48.

Definition digit_char (d : Z) : ascii := ascii_of_nat (48 + Z.to_nat d).

(** Value of the hexadecimal digit [c], when it is one. *)
Definition hex_val (c : ascii) : option Z :=
  let n := charCode c in
  if (48 <=? n) && (n <=? 57) then Some (n - 48)
  else if (65 <=? n) && (n <=? 70) then Some (n - 55)
  else if (97 <=? n) && (n <=? 102) then Some (n - 87)
  else None.

Definition dec_val (c : ascii) : option Z :=
  if is_digit c then Some (digit_val c) else None.

(** Longest prefix of digits of the radix, read most significant first:
    the value read so far and whether any digit was seen. *)
Fixpoint read_digits (val : ascii -> option Z) (radix : Z) (s : string)
    (acc : Z) (seen : bool) : Z * bool :=
  match s with
  | EmptyString => (acc, seen)
  | String c s' =>
      match val c with
      | Some d => read_digits val radix s' (acc * radix + d) true
      | None => (acc, seen)
      end
  end.

Definition is_space (c : ascii) : bool :=
  let n := nat_of_ascii c in
  ((9 <=? n)%nat && (n <=? 13)%nat || (n =? 32)%nat || (n =? 160)%nat)%bool.

Fixpoint trimStart (s : string) : string :=
  match s with
  | String c s' => if is_space c then trimStart s' else s
  | EmptyString => EmptyString
  end.

(** [s.startsWith(p)] *)
Fixpoint startsWith (s p : string) : bool :=
  match p, s with
  | EmptyString, _ => true
  | String a p', String b s' => Ascii.eqb a b && startsWith s' p'
  | String _ _, EmptyString => false
  end.

(** An optional sign at the head of [s]: whether it is a minus, and the
    rest. *)
Definition read_sign (s : string) : bool * string :=
  match s with
  | String c s' =>
      if Ascii.eqb c "-" then (true, s')
      else if Ascii.eqb c "+" then (false, s')
      else (false, s)
  | EmptyString => (false, s)
  end.

(** [parseInt(s)] without a radix; [None] is NaN. *)
Definition parseInt (s : string) : option Z :=
  let s := trimStart s in
  let '(negative, s) := read_sign s in
  let '(val, radix, s) :=
    if startsWith s "0x" || startsWith s "0X"
    then (hex_val, 16, String.substring 2 (String.length s - 2) s)
    else (dec_val, 10, s) in
  match read_digits val radix s 0 false with
  | (n, true) => Some (if negative then - n else n)
  | (_, false) => None
  end.

(** [parseInt(v)] of a property that may be absent: [parseInt(undefined)]
    reads the string "undefined" and is NaN. *)
Definition parseInt_prop (o : option string) : option Z :=
  match o with
  | Some s => parseInt s
  | None => None
  end.

(** Decimal rendering of a non-negative integer ([Number.prototype.toString]
    on a small non-negative integer). *)
Fixpoint render_digits (fuel : nat) (n : Z) (acc : string) : string :=
  match fuel with
  | O => acc
  | S fuel' =>
      let acc' := String (digit_char (n mod 10)) acc in
      if n <? 10 then acc' else render_digits fuel' (n / 10) acc'
  end.

Definition natToString (n : Z) : string :=
  render_digits (S (Z.to_nat (Z.log2 n))) n EmptyString.

(** *** 32-bit integers *)

Definition toInt32 (z : Z) : Z := (z + 2 ^ 31) mod 2 ^ 32 - 2 ^ 31.

(** [a << k] *)
Definition shl32 (a : Z) (k : Z) : Z := toInt32 (Z.shiftl (toInt32 a) k).

(** [a & b] *)
Definition and32 (a b : Z) : Z := toInt32 (Z.land (toInt32 a) (toInt32 b)).

(** *** Numbers *)

Inductive number :=
  | Num (q : Q)
  | NaN
  | Inf (negative : bool).

Definition zero : number := Num 0.

Definition of_Z (z : Z) : number := Num (inject_Z z).

Definition is_finite (a : number) : bool :=
  match a with Num _ => true | _ => false end.

Definition add (a b : number) : number :=
  match a, b with
  | NaN, _ | _, NaN => NaN
  | Num x, Num y => Num (x + y)
  | Inf s, Inf t => if Bool.eqb s t then Inf s else NaN
  | Inf s, Num _ | Num _, Inf s => Inf s
  end.

Definition neg (a : number) : number :=
  match a with
  | Num x => Num (- x)
  | NaN => NaN
  | Inf s => Inf (negb s)
  end.

Definition sub (a b : number) : number := add a (neg b).

Definition mul (a b : number) : number :=
  match a, b with
  | NaN, _ | _, NaN => NaN
  | Num x, Num y => Num (x * y)
  | Inf s, Inf t => Inf (xorb s t)
  | Inf s, Num y | Num y, Inf s =>
      match y ?= 0 with
      | Eq => NaN
      | Gt => Inf s
      | Lt => Inf (negb s)
      end
  end%Q.

(** Division; a zero divisor gives an infinity or NaN, never an error.
    The sign of a zero is not tracked. *)
Definition div (a b : number) : number :=
  match a, b with
  | NaN, _ | _, NaN => NaN
  | Num x, Num y =>
      match y ?= 0 with
      | Eq => match x ?= 0 with
              | Eq => NaN
              | Gt => Inf false
              | Lt => Inf true
              end
      | _ => Num (x / y)
      end
  | Inf _, Inf _ => NaN
  | Inf s, Num y => Inf (if Qle_bool 0 y then s else negb s)
  | Num _, Inf _ => Num 0
  end%Q.

(** [a < b]; false whenever NaN is involved. *)
Definition lt (a b : number) : bool :=
  match a, b with
  | NaN, _ | _, NaN => false
  | Num x, Num y => match (x ?= y)%Q with Lt => true | _ => false end
  | Inf s, Inf t => s && negb t
  | Inf s, Num _ => s
  | Num _, Inf t => negb t
  end.

Definition gt (a b : number) : bool := lt b a.

(** [a >= b] *)
Definition ge (a b : number) : bool :=
  match a, b with
  | NaN, _ | _, NaN => false
  | _, _ => negb (lt a b)
  end.

(** [a === b] on numbers *)
Definition strict_eq (a b : number) : bool :=
  match a, b with
  | Num x, Num y => Qeq_bool x y
  | Inf s, Inf t => Bool.eqb s t
  | _, _ => false
  end.

(** [Math.min(a, b)] *)
Definition min (a b : number) : number :=
  match a, b with
  | NaN, _ | _, NaN => NaN
  | _, _ => if lt b a then b else a
  end.

(** [Math.round(a)]: the integer nearest to [a], ties upwards. *)
Definition round (a : number) : number :=
  match a with
  | Num x => of_Z (Qfloor (x + (1 # 2)))
  | _ => a
  end.

(** [a || d] on numbers: 0 and NaN are falsy. *)
Definition or_num (a d : number) : number :=
  match a with
  | Num x => if Qeq_bool x 0 then d else a
  | NaN => d
  | Inf _ => a
  end.

(** [a.toFixed(2)]: two decimals, ties away from zero.  (Beyond 10^21 the
    builtin switches to exponent notation; the model keeps the digits.) *)
Definition toFixed2 (a : number) : string :=
  match a with
  | NaN => "NaN"
  | Inf false => "Infinity"
  | Inf true => "-Infinity"
  | Num x =>
      let negative := match (x ?= 0)%Q with Lt => true | _ => false end in
      let n := Qfloor (Qabs x * 100 + (1 # 2)) in
      (if negative then "-" else "") +:+
      natToString (n / 100) +:+ "." +:+
      String (digit_char (n mod 100 / 10))
        (String (digit_char (n mod 10)) EmptyString)
  end.

Fixpoint span_digits (s : string) : string * string :=
  match s with
  | String c s' =>
      if is_digit c then
        let '(d, r) := span_digits s' in (String c d, r)
      else (EmptyString, s)
  | EmptyString => (EmptyString, EmptyString)
  end.

Fixpoint decimal_value (s : string) (acc : Z) : Z :=
  match s with
  | EmptyString => acc
  | String c s' => decimal_value s' (acc * 10 + digit_val c)
  end.

(** The exponent part [e[+-]digits] at the head of [s], or 0. *)
Definition read_exponent (s : string) : Z :=
  match s with
  | String c r =>
      if Ascii.eqb c "e" || Ascii.eqb c "E" then
        let '(negative, r) := read_sign r in
        let '(digits, _) := span_digits r in
        if String.eqb digits "" then 0
        else if negative then - decimal_value digits 0 else decimal_value digits 0
      else 0
  | EmptyString => 0
  end.

(** The fraction part [.digits] at the head of [s], and the rest. *)
Definition read_fraction (s : string) : string * string :=
  match s with
  | String c r => if Ascii.eqb c "." then span_digits r else (EmptyString, s)
  | EmptyString => (EmptyString, s)
  end.

(** [parseFloat(s)] *)
Definition parseFloat (s : string) : number :=
  let s := trimStart s in
  let '(negative, s) := read_sign s in
  if startsWith s "Infinity" then Inf negative
  else
    let '(ip, r) := span_digits s in
    let '(fp, r) := read_fraction r in
    if String.eqb ip "" && String.eqb fp "" then NaN
    else
      let mant :=
        (inject_Z (decimal_value ip 0) +
         inject_Z (decimal_value fp 0) /
           inject_Z (10 ^ Z.of_nat (String.length fp)))%Q in
      let v := (mant * Qpower 10 (read_exponent r))%Q in
      Num (if negative then (- v)%Q else v).

(** [parseFloat(v)] of a property that may be absent. *)
Definition parseFloat_prop (o : option string) : number :=
  match o with
  | Some s => parseFloat s
  | None => NaN
  end.

(** [parseInt(v)] as a number. *)
Definition parseInt_num (o : option string) : number :=
  match parseInt_prop o with
  | Some z => of_Z z
  | None => NaN
  end.

(** *** Arrays of numbers *)

(** Insertion of [x] before the first element the comparator does not put
    ahead of it; [cmp x y > 0] means [x] sorts after [y]. *)
Fixpoint sort_insert (cmp : number -> number -> number) (x : number)
    (l : list number) : list number :=
  match l with
  | [] => [x]
  | y :: l' =>
      if gt (cmp x y) zero then y :: sort_insert cmp x l' else x :: l
  end.

(** [l.sort(cmp)] on a copy: a stable sort. *)
Definition sort (cmp : number -> number -> number) (l : list number)
    : list number :=
  fold_right (sort_insert cmp) [] l.

(** [l.indexOf(v)]: the index of the first element strictly equal to [v],
    or -1. *)
Fixpoint indexOf (l : list number) (v : number) : Z :=
  match l with
  | [] => -1
  | y :: l' =>
      if strict_eq y v then 0
      else let i := indexOf l' v in if i <? 0 then -1 else i + 1
  end.

End JS.

(** ** Surrogate codes and reporting periods (dataProcessingService) *)

Module Codes.
Import JS.

Definition stateCodeMap : list (string * string) :=
  [ ("ANDHRA PRADESH", "AP"); ("ARUNACHAL PRADESH", "AR"); ("ASSAM", "AS");
    ("BIHAR", "BR"); ("CHHATTISGARH", "CG"); ("GOA", "GA"); ("GUJARAT", "GJ");
    ("HARYANA", "HR"); ("HIMACHAL PRADESH", "HP"); ("JHARKHAND", "JH");
    ("KARNATAKA", "KA"); ("KERALA", "KL"); ("MADHYA PRADESH", "MP");
    ("MAHARASHTRA", "MH"); ("MANIPUR", "MN"); ("MEGHALAYA", "ML");
    ("MIZORAM", "MZ"); ("NAGALAND", "NL"); ("ODISHA", "OR"); ("PUNJAB", "PB");
    ("RAJASTHAN", "RJ"); ("SIKKIM", "SK"); ("TAMIL NADU", "TN");
    ("TELANGANA", "TG"); ("TRIPURA", "TR"); ("UTTAR PRADESH", "UP");
    ("UTTARAKHAND", "UK"); ("WEST BENGAL", "WB") ].

Fixpoint assoc (k : string) (l : list (string * string)) : option string :=
  match l with
  | [] => None
  | (k', v) :: l' => if String.eqb k k' then Some v else assoc k l'
  end.

Definition generateStateCode (stateName : option string) : string :=
  match stateName with
  | None => "XX"
  | Some name =>
      if String.eqb name "" then "XX"
      else or_str (assoc (toUpperCase name) stateCodeMap)
                  (toUpperCase (substring 0 2 name))
  end.

(** The body of the loop of [hashCode]. *)
Definition hashStep (hash : Z) (c : ascii) : Z :=
  let char := charCode c in
  let hash := (shl32 hash 5 - hash) + char in
  and32 hash hash.

Definition hashCode (str : string) : Z :=
  fold_left hashStep (list_ascii_of_string str) 0.

Definition generateDistrictCode (districtName : option string)
    (stateCode : string) : string :=
  match districtName with
  | None => "UNKNOWN"
  | Some name =>
      if String.eqb name "" || String.eqb stateCode "" then "UNKNOWN"
      else
        let districtPrefix := toUpperCase (substring 0 3 name) in
        let hash := Z.abs (hashCode name) mod 1000 in
        stateCode +:+ districtPrefix +:+ padStart (natToString hash) 3 "0"
  end.

Record FinancialYearSpan := {
  startYear : option Z;   (* None is NaN *)
  endYear : option Z
}.

(** [currentYear] is [new Date().getFullYear()], read from the clock. *)
Definition parseFinancialYear (currentYear : Z) (finYear : string)
    : FinancialYearSpan :=
  if String.eqb finYear "" || negb (includes finYear "-") then
    {| startYear := Some currentYear; endYear := Some (currentYear + 1) |}
  else
    let parts := split finYear "-" in
    {| startYear := parseInt_prop (parts !! 0%nat);
       endYear := parseInt_prop (parts !! 1%nat) |}.

End Codes.

(** ** Derived metrics (dataProcessingService) *)

Module Metrics.
Import JS.

(** A DistrictPerformance instance as the metric helpers read it: the name
    of the joined district, when the join is present, and the numeric
    properties. *)
Record performance := {
  districtName : option string;
  approvedLabourBudget : number;
  averageWageRate : number;
  averageDaysEmployment : number;
  totalHouseholdsWorked : number;
  totalIndividualsWorked : number;
  completedWorks : number;
  ongoingWorks : number;
  womenPersondays : number;
  scPersondays : number;
  stPersondays : number;
  totalExpenditure : number;
  paymentWithin15Days : number
}.



Definition calculateCompletionRate (performance : performance) : number :=
  let total := add (or_num (completedWorks performance) zero)
                   (or_num (ongoingWorks performance) zero) in
  if strict_eq total zero then zero
  else parseFloat (toFixed2 (mul (div (completedWorks performance) total) (of_Z 100))).


Definition calculatePerformanceScore (district : performance) : number :=
  let score := zero in
  let score :=
    add score (min (mul (div (averageDaysEmployment district) (of_Z 100)) (of_Z 30))
                   (of_Z 30)) in
  let score :=
    add score (mul (div (paymentWithin15Days district) (of_Z 100)) (of_Z 25)) in
  let score :=
    add score (min (mul (div (womenPersondays district) (of_Z 50)) (of_Z 20))
                   (of_Z 20)) in
  let totalWorks := add (completedWorks district) (ongoingWorks district) in
  let score :=
    if gt totalWorks zero
    then add score (mul (div (completedWorks district) totalWorks) (of_Z 25))
    else score in
  round score.

Record Grade := { grade : string; label : string; color : string }.

Definition getPerformanceGrade (district : performance) : Grade :=
  let score := calculatePerformanceScore district in
  if ge score (of_Z 80) then {| grade := "A"; label := "Excellent"; color := "#43A047" |}
  else if ge score (of_Z 60) then {| grade := "B"; label := "Good"; color := "#7CB342" |}
  else if ge score (of_Z 40) then {| grade := "C"; label := "Average"; color := "#FB8C00" |}
  else if ge score (of_Z 20) then {| grade := "D"; label := "Below Average"; color := "#F57C00" |}
  else {| grade := "E"; label := "Poor"; color := "#E65100" |}.

(** The comparison object: [metrics] and [rankings] keep the key order of
    the object literal. *)
Record Comparison := {
  districts : list string;
  metrics : list (string * list number);
  rankings : list (string * list Z)
}.

(** The seven metric columns filled by the [forEach] over the districts. *)
Definition comparison_metrics (ds : list performance) : list (string * list number) :=
  [ ("averageDaysEmployment", map averageDaysEmployment ds);
    ("averageWageRate", map averageWageRate ds);
    ("totalHouseholdsWorked", map totalHouseholdsWorked ds);
    ("womenPersondays", map womenPersondays ds);
    ("paymentWithin15Days", map paymentWithin15Days ds);
    ("completedWorks", map completedWorks ds);
    ("performanceScores", map calculatePerformanceScore ds) ].

(** One entry of [comparison.rankings]. *)
Definition rank_values (values : list number) : list Z :=
  let sorted := sort (fun a b => sub b a) values in
  map (fun v => indexOf sorted v + 1) values.

Definition generateComparison (ds : list performance) : Comparison :=
  let ms := comparison_metrics ds in
  {| districts := map (fun districtPerf => or_str (districtName districtPerf) "Unknown") ds;
     metrics := ms;
     rankings := map (fun '(metric, values) => (metric, rank_values values)) ms |}.

End Metrics.

(** ** The relational store (models/) *)

(** One module per Sequelize model: the attributes of a row.  Keys are
    compared exactly. *)

Module State.
Record t := { stateCode : string; stateName : string }.
End State.

Module District.
Record t := { districtCode : string; districtName : string; stateCode : string }.
End District.

Module FinancialYear.
(** The object handed to [bulkCreate]: a year may be NaN. *)
Record attrs := { finYear : string; startYear : option Z; endYear : option Z }.
Record t := { row_finYear : string; row_startYear : Z; row_endYear : Z }.
End FinancialYear.

Module DistrictPerformance.
Record values := {
  approvedLabourBudget : JS.number;
  averageWageRate : JS.number;
  averageDaysEmployment : JS.number;
  totalHouseholdsWorked : JS.number;
  totalIndividualsWorked : JS.number;
  completedWorks : JS.number;
  ongoingWorks : JS.number;
  womenPersondays : JS.number;
  scPersondays : JS.number;
  stPersondays : JS.number;
  totalExpenditure : JS.number;
  wages : JS.number;
  households100Days : JS.number;
  paymentWithin15Days : JS.number
}.
(** The object handed to [bulkCreate]: [month] may be null. *)
Record attrs := {
  districtCode : string;
  finYear : string;
  month : option string;
  metrics : values
}.
(** A stored row, and the instance [bulkCreate] hands back. *)
Record t := { id : Z; attributes : attrs }.

Definition all_finite (v : values) : bool :=
  forallb JS.is_finite
    [ approvedLabourBudget v; averageWageRate v; averageDaysEmployment v;
      totalHouseholdsWorked v; totalIndividualsWorked v; completedWorks v;
      ongoingWorks v; womenPersondays v; scPersondays v; stPersondays v;
      totalExpenditure v; wages v; households100Days v; paymentWithin15Days v ].
End DistrictPerformance.

Module DistrictExtendedMetrics.
Record attrs := {
  performanceId : Z;
  totalWorkers : Z;
  totalActiveWorkers : Z;
  totalJobcardsIssued : Z;
  totalActiveJobcards : Z;
  scWorkersActive : Z;
  stWorkersActive : Z;
  differentlyAbledWorked : Z;
  percentNrmExpenditure : Z;
  percentCategoryBWorks : Z;
  percentAgricultureAllied : Z;
  totalAdminExpenditure : Z;
  materialSkilledWages : Z;
  persondaysCentralLiability : Z;
  totalWorksTakenup : Z;
  gpsWithNilExp : Z
}.
Record t := { id : Z; attributes : attrs }.
End DistrictExtendedMetrics.

Module Storage.

Inductive Table :=
  | States
  | Districts
  | FinancialYears
  | Performances
  | ExtendedMetrics.

Inductive StorageError :=
  | ForeignKeyViolation (table : Table)
  | NotNullViolation (table : Table)
  | OutOfRange (table : Table).

(** The unique index uk_district_year_month. *)
Definition natural_key : Type := string * string * string.

Record Store := {
  states : gmap string State.t;
  districts : gmap string District.t;
  financialYears : gmap string FinancialYear.t;
  performances : gmap natural_key DistrictPerformance.t;
  extendedMetrics : gmap Z DistrictExtendedMetrics.t;
  nextPerformanceId : Z;
  nextExtendedId : Z
}.

Definition empty : Store :=
  {| states := ∅; districts := ∅; financialYears := ∅; performances := ∅;
     extendedMetrics := ∅; nextPerformanceId := 1; nextExtendedId := 1 |}.

(** *** Statements.  A failing statement changes nothing. *)

(** [State.bulkCreate(rows, { updateOnDuplicate: ['stateName'] })] *)
Definition State_bulkCreate (rows : list State.t) (s : Store)
    : StorageError + (Store * unit) :=
  inr ({| states := foldl (fun m r => <[State.stateCode r := r]> m) (states s) rows;
          districts := districts s;
          financialYears := financialYears s;
          performances := performances s;
          extendedMetrics := extendedMetrics s;
          nextPerformanceId := nextPerformanceId s;
          nextExtendedId := nextExtendedId s |}, tt).

(** [District.bulkCreate(rows, { updateOnDuplicate: ['districtName',
    'stateCode'] })]; state_code references states. *)
Definition District_bulkCreate (rows : list District.t) (s : Store)
    : StorageError + (Store * unit) :=
  if forallb (fun r => bool_decide (is_Some (states s !! District.stateCode r))) rows
  then
    inr ({| states := states s;
            districts := foldl (fun m r => <[District.districtCode r := r]> m)
                               (districts s) rows;
            financialYears := financialYears s;
            performances := performances s;
            extendedMetrics := extendedMetrics s;
            nextPerformanceId := nextPerformanceId s;
            nextExtendedId := nextExtendedId s |}, tt)
  else inl (ForeignKeyViolation Districts).

(** The row a FinancialYear object is stored as; a NaN year has none. *)
Definition FinancialYear_row (a : FinancialYear.attrs) : option FinancialYear.t :=
  match FinancialYear.startYear a, FinancialYear.endYear a with
  | Some sy, Some ey =>
      Some {| FinancialYear.row_finYear := FinancialYear.finYear a;
              FinancialYear.row_startYear := sy;
              FinancialYear.row_endYear := ey |}
  | _, _ => None
  end.

(** [FinancialYear.bulkCreate(rows, { updateOnDuplicate: ['startYear',
    'endYear'] })] *)
Definition FinancialYear_bulkCreate (rows : list FinancialYear.attrs) (s : Store)
    : StorageError + (Store * unit) :=
  match mapM FinancialYear_row rows with
  | Some rs =>
      inr ({| states := states s;
              districts := districts s;
              financialYears :=
                foldl (fun m r => <[FinancialYear.row_finYear r := r]> m)
                      (financialYears s) rs;
              performances := performances s;
              extendedMetrics := extendedMetrics s;
              nextPerformanceId := nextPerformanceId s;
              nextExtendedId := nextExtendedId s |}, tt)
  | None => inl (OutOfRange FinancialYears)
  end.

(** The constraints on one DistrictPerformance object: month NOT NULL,
    district_code and fin_year reference their tables, numbers storable. *)
Definition DistrictPerformance_check (s : Store) (a : DistrictPerformance.attrs)
    : option StorageError :=
  match DistrictPerformance.month a with
  | None => Some (NotNullViolation Performances)
  | Some _ =>
      if negb (bool_decide (is_Some (districts s !! DistrictPerformance.districtCode a))
               && bool_decide (is_Some (financialYears s !! DistrictPerformance.finYear a)))
      then Some (ForeignKeyViolation Performances)
      else if negb (DistrictPerformance.all_finite (DistrictPerformance.metrics a))
      then Some (OutOfRange Performances)
      else None
  end.

Definition key_of (a : DistrictPerformance.attrs) : natural_key :=
  (DistrictPerformance.districtCode a, DistrictPerformance.finYear a,
   default "" (DistrictPerformance.month a)).

(** One row of INSERT ... ON DUPLICATE KEY UPDATE: a row with the same
    natural key keeps its id and takes the new numbers; otherwise the row is
    inserted under a fresh id.  The instance handed back carries the id of
    the stored row. *)
Definition DistrictPerformance_upsert
    (acc : gmap natural_key DistrictPerformance.t * Z * list DistrictPerformance.t)
    (a : DistrictPerformance.attrs)
    : gmap natural_key DistrictPerformance.t * Z * list DistrictPerformance.t :=
  let '(m, next, out) := acc in
  match m !! key_of a with
  | Some old =>
      let row := {| DistrictPerformance.id := DistrictPerformance.id old;
                    DistrictPerformance.attributes := a |} in
      (<[key_of a := row]> m, next, (out ++ [row])%list)
  | None =>
      let row := {| DistrictPerformance.id := next;
                    DistrictPerformance.attributes := a |} in
      (<[key_of a := row]> m, next + 1, (out ++ [row])%list)
  end.

Fixpoint first_error (s : Store) (rows : list DistrictPerformance.attrs)
    : option StorageError :=
  match rows with
  | [] => None
  | a :: rows' =>
      match DistrictPerformance_check s a with
      | Some e => Some e
      | None => first_error s rows'
      end
  end.

(** [DistrictPerformance.bulkCreate(rows, { updateOnDuplicate: [the
    fourteen numeric columns], returning: true })] *)
Definition DistrictPerformance_bulkCreate (rows : list DistrictPerformance.attrs)
    (s : Store) : StorageError + (Store * list DistrictPerformance.t) :=
  match first_error s rows with
  | Some e => inl e
  | None =>
      let '(m, next, out) :=
        foldl DistrictPerformance_upsert (performances s, nextPerformanceId s, []) rows in
      inr ({| states := states s;
              districts := districts s;
              financialYears := financialYears s;
              performances := m;
              extendedMetrics := extendedMetrics s;
              nextPerformanceId := next;
              nextExtendedId := nextExtendedId s |}, out)
  end.

Definition has_performance (m : gmap natural_key DistrictPerformance.t) (pid : Z) : bool :=
  bool_decide (map_Exists (fun _ row => DistrictPerformance.id row = pid) m).

(** One row of INSERT IGNORE: skipped when performance_id is taken or
    references no row. *)
Definition DistrictExtendedMetrics_insert_ignore
    (perfs : gmap natural_key DistrictPerformance.t)
    (acc : gmap Z DistrictExtendedMetrics.t * Z)
    (a : DistrictExtendedMetrics.attrs) : gmap Z DistrictExtendedMetrics.t * Z :=
  let '(m, next) := acc in
  let pid := DistrictExtendedMetrics.performanceId a in
  match m !! pid with
  | Some _ => acc
  | None =>
      if has_performance perfs pid
      then (<[pid := {| DistrictExtendedMetrics.id := next;
                        DistrictExtendedMetrics.attributes := a |}]> m, next + 1)
      else acc
  end.

(** [DistrictExtendedMetrics.bulkCreate(rows, { ignoreDuplicates: true })] *)
Definition DistrictExtendedMetrics_bulkCreate (rows : list DistrictExtendedMetrics.attrs)
    (s : Store) : StorageError + (Store * unit) :=
  let '(m, next) :=
    foldl (DistrictExtendedMetrics_insert_ignore (performances s))
          (extendedMetrics s, nextExtendedId s) rows in
  inr ({| states := states s;
          districts := districts s;
          financialYears := financialYears s;
          performances := performances s;
          extendedMetrics := m;
          nextPerformanceId := nextPerformanceId s;
          nextExtendedId := next |}, tt).

(** *** Transactions *)

(** An open transaction: its working copy of the store, and the tables its
    statements were issued against, oldest first. *)
Record Transaction := { working : Store; statements : list Table }.

(** [sequelize.transaction()] *)
Definition begin (db : Store) : Transaction :=
  {| working := db; statements := [] |}.

(** [transaction.commit()] publishes the working copy. *)
Definition commit (db : Store) (t : Transaction) : Store := working t.

(** [transaction.rollback()] drops it. *)
Definition rollback (db : Store) (t : Transaction) : Store := db.

(** Code running inside a transaction: it may fail, and the transaction
    stays as the failure left it. *)
Definition Tx (A : Type) : Type := Transaction -> Transaction * (StorageError + A).

Definition ret {A} (a : A) : Tx A := fun t => (t, inr a).

Definition bind {A B} (m : Tx A) (k : A -> Tx B) : Tx B :=
  fun t =>
    match m t with
    | (t', inr a) => k a t'
    | (t', inl e) => (t', inl e)
    end.

(** A statement issued with [{ transaction }]. *)
Definition statement {A} (table : Table) (f : Store -> StorageError + (Store * A))
    : Tx A :=
  fun t =>
    let issued := (statements t ++ [table])%list in
    match f (working t) with
    | inr (s', a) => ({| working := s'; statements := issued |}, inr a)
    | inl e => ({| working := working t; statements := issued |}, inl e)
    end.

End Storage.

(** ** The reconciliation engine (dataProcessingService) *)

Module Ingest.
Import JS Codes Storage.

(** A record of the upstream API: flat text properties, any of which may
    be absent. *)
Record ApiRecord := {
  state_name : option string;
  state_code : option string;
  district_name : option string;
  district_code : option string;
  fin_year : option string;
  month : option string;
  Approved_Labour_Budget : option string;
  Average_Wage_rate_per_day_per_person : option string;
  Average_days_of_employment_provided_per_Household : option string;
  Total_Households_Worked : option string;
  Total_Individuals_Worked : option string;
  Number_of_Completed_Works : option string;
  Number_of_Ongoing_Works : option string;
  Women_Persondays : option string;
  SC_persondays : option string;
  ST_persondays : option string;
  Total_Exp : option string;
  Wages : option string;
  Total_No_of_HHs_completed_100_Days_of_Wage_Employment : option string;
  percentage_payments_gererated_within_15_days : option string
}.

(** A JavaScript [Map] with text keys: entries in insertion order. *)
Definition Map_has {V} (m : list (string * V)) (k : string) : bool :=
  existsb (fun kv => String.eqb (fst kv) k) m.

Fixpoint Map_get {V} (m : list (string * V)) (k : string) : option V :=
  match m with
  | [] => None
  | (k', v) :: m' => if String.eqb k' k then Some v else Map_get m' k
  end.

Fixpoint Map_set {V} (m : list (string * V)) (k : string) (v : V) : list (string * V) :=
  match m with
  | [] => [(k, v)]
  | (k', v') :: m' => if String.eqb k' k then (k', v) :: m' else (k', v') :: Map_set m' k v
  end.

Definition Map_values {V} (m : list (string * V)) : list V := map snd m.

(** [record.state_code || this.generateStateCode(record.state_name)] *)
Definition stateCodeOf (record : ApiRecord) : string :=
  or_str (state_code record) (generateStateCode (state_name record)).

(** [record.district_code || this.generateDistrictCode(record.district_name, stateCode)] *)
Definition districtCodeOf (record : ApiRecord) : string :=
  or_str (district_code record)
         (generateDistrictCode (district_name record) (stateCodeOf record)).

Definition extractUniqueStates (apiData : list ApiRecord) : list State.t :=
  let statesMap :=
    foldl (fun statesMap record =>
             let stateName := or_str (toUpperCase <$> state_name record) "" in
             if Map_has statesMap stateName then statesMap
             else Map_set statesMap stateName
                    {| State.stateCode := stateCodeOf record;
                       State.stateName := stateName |})
          [] apiData in
  Map_values statesMap.

Definition extractUniqueDistricts (apiData : list ApiRecord) : list District.t :=
  let districtsMap :=
    foldl (fun districtsMap record =>
             let stateCode := stateCodeOf record in
             let districtCode := districtCodeOf record in
             if Map_has districtsMap districtCode then districtsMap
             else Map_set districtsMap districtCode
                    {| District.districtCode := districtCode;
                       District.districtName :=
                         or_str (toUpperCase <$> district_name record) "";
                       District.stateCode := stateCode |})
          [] apiData in
  Map_values districtsMap.

Definition extractUniqueFinYears (currentYear : Z) (apiData : list ApiRecord)
    : list FinancialYear.attrs :=
  let finYearsMap :=
    foldl (fun finYearsMap record =>
             let finYear := or_str (fin_year record) "" in
             if Map_has finYearsMap finYear then finYearsMap
             else
               let fyData := parseFinancialYear currentYear finYear in
               Map_set finYearsMap finYear
                 {| FinancialYear.finYear := finYear;
                    FinancialYear.startYear := startYear fyData;
                    FinancialYear.endYear := endYear fyData |})
          [] apiData in
  Map_values finYearsMap.

Definition bulkUpsertStates (states : list State.t) : Tx unit :=
  if (length states =? 0)%nat then ret tt
  else statement States (State_bulkCreate states).

Definition bulkUpsertDistricts (districts : list District.t) : Tx unit :=
  if (length districts =? 0)%nat then ret tt
  else statement Districts (District_bulkCreate districts).

Definition bulkUpsertFinancialYears (finYears : list FinancialYear.attrs) : Tx unit :=
  if (length finYears =? 0)%nat then ret tt
  else statement FinancialYears (FinancialYear_bulkCreate finYears).

(** [record.month?.toUpperCase() || null] *)
Definition monthOf (record : ApiRecord) : option string :=
  match toUpperCase <$> month record with
  | Some m => if String.eqb m "" then None else Some m
  | None => None
  end.

Definition preparePerformanceRecords (apiData : list ApiRecord)
    : list DistrictPerformance.attrs :=
  map (fun record =>
         let stateCode := stateCodeOf record in
         let districtCode := districtCodeOf record in
         {| DistrictPerformance.districtCode := districtCode;
            DistrictPerformance.finYear := or_str (fin_year record) "";
            DistrictPerformance.month := monthOf record;
            DistrictPerformance.metrics :=
              {| DistrictPerformance.approvedLabourBudget :=
                   or_num (parseInt_num (Approved_Labour_Budget record)) zero;
                 DistrictPerformance.averageWageRate :=
                   or_num (parseFloat_prop (Average_Wage_rate_per_day_per_person record)) zero;
                 DistrictPerformance.averageDaysEmployment :=
                   or_num (parseFloat_prop
                             (Average_days_of_employment_provided_per_Household record)) zero;
                 DistrictPerformance.totalHouseholdsWorked :=
                   or_num (parseInt_num (Total_Households_Worked record)) zero;
                 DistrictPerformance.totalIndividualsWorked :=
                   or_num (parseInt_num (Total_Individuals_Worked record)) zero;
                 DistrictPerformance.completedWorks :=
                   or_num (parseInt_num (Number_of_Completed_Works record)) zero;
                 DistrictPerformance.ongoingWorks :=
                   or_num (parseInt_num (Number_of_Ongoing_Works record)) zero;
                 DistrictPerformance.womenPersondays :=
                   or_num (parseFloat_prop (Women_Persondays record)) zero;
                 DistrictPerformance.scPersondays :=
                   or_num (parseInt_num (SC_persondays record)) zero;
                 DistrictPerformance.stPersondays :=
                   or_num (parseInt_num (ST_persondays record)) zero;
                 DistrictPerformance.totalExpenditure :=
                   or_num (parseInt_num (Total_Exp record)) zero;
                 DistrictPerformance.wages :=
                   or_num (parseInt_num (Wages record)) zero;
                 DistrictPerformance.households100Days :=
                   or_num (parseInt_num
                             (Total_No_of_HHs_completed_100_Days_of_Wage_Employment record)) zero;
                 DistrictPerformance.paymentWithin15Days :=
                   or_num (parseFloat_prop
                             (percentage_payments_gererated_within_15_days record)) zero |} |})
      apiData.

Definition bulkUpsertPerformance (performanceRecords : list DistrictPerformance.attrs)
    : Tx (list DistrictPerformance.t) :=
  if (length performanceRecords =? 0)%nat then ret []
  else statement Performances (DistrictPerformance_bulkCreate performanceRecords).

(** The lookup key of the extended-metrics step. *)
Definition metricsKey (districtCode finYear month : string) : string :=
  districtCode +:+ "_" +:+ finYear +:+ "_" +:+ month.

(** The rows of the extended-metrics step: one per instance, every
    indicator 0.  The record looked up under the key is not used. *)
Definition extendedMetricsRecords (performances : list DistrictPerformance.t)
    (apiData : list ApiRecord) : list DistrictExtendedMetrics.attrs :=
  let apiDataMap :=
    foldl (fun apiDataMap record =>
             let key := metricsKey (districtCodeOf record)
                                   (or_str (fin_year record) "")
                                   (or_str (toUpperCase <$> month record) "") in
             Map_set apiDataMap key record)
          [] apiData in
  map (fun perf =>
         let a := DistrictPerformance.attributes perf in
         let key := metricsKey (DistrictPerformance.districtCode a)
                               (DistrictPerformance.finYear a)
                               (default "null" (DistrictPerformance.month a)) in
         let originalRecord := Map_get apiDataMap key in
         {| DistrictExtendedMetrics.performanceId := DistrictPerformance.id perf;
            DistrictExtendedMetrics.totalWorkers := 0;
            DistrictExtendedMetrics.totalActiveWorkers := 0;
            DistrictExtendedMetrics.totalJobcardsIssued := 0;
            DistrictExtendedMetrics.totalActiveJobcards := 0;
            DistrictExtendedMetrics.scWorkersActive := 0;
            DistrictExtendedMetrics.stWorkersActive := 0;
            DistrictExtendedMetrics.differentlyAbledWorked := 0;
            DistrictExtendedMetrics.percentNrmExpenditure := 0;
            DistrictExtendedMetrics.percentCategoryBWorks := 0;
            DistrictExtendedMetrics.percentAgricultureAllied := 0;
            DistrictExtendedMetrics.totalAdminExpenditure := 0;
            DistrictExtendedMetrics.materialSkilledWages := 0;
            DistrictExtendedMetrics.persondaysCentralLiability := 0;
            DistrictExtendedMetrics.totalWorksTakenup := 0;
            DistrictExtendedMetrics.gpsWithNilExp := 0 |})
      performances.

Definition bulkUpsertExtendedMetrics (performances : list DistrictPerformance.t)
    (apiData : list ApiRecord) : Tx unit :=
  if (length performances =? 0)%nat then ret tt
  else
    statement ExtendedMetrics
      (DistrictExtendedMetrics_bulkCreate (extendedMetricsRecords performances apiData)).

Notation "'let*' x ':=' m 'in' k" := (bind m (fun x => k))
  (at level 10, x binder, m at level 100, k at level 200).

(** The five steps of [processAndStoreDataBulk], inside its transaction. *)
Definition ingestSteps (currentYear : Z) (apiData : list ApiRecord)
    : Tx (list DistrictPerformance.t) :=
  let uniqueStates := extractUniqueStates apiData in
  let* _ := bulkUpsertStates uniqueStates in
  let uniqueDistricts := extractUniqueDistricts apiData in
  let* _ := bulkUpsertDistricts uniqueDistricts in
  let uniqueFinYears := extractUniqueFinYears currentYear apiData in
  let* _ := bulkUpsertFinancialYears uniqueFinYears in
  let performanceRecords := preparePerformanceRecords apiData in
  let* insertedPerformances := bulkUpsertPerformance performanceRecords in
  let* _ := bulkUpsertExtendedMetrics insertedPerformances apiData in
  ret insertedPerformances.

(** How an awaited call ends. *)
Inductive Outcome (A : Type) :=
  | Resolved (a : A)
  | Thrown (e : StorageError).
Arguments Resolved {A} a.
Arguments Thrown {A} e.

(** [processAndStoreDataBulk(apiData)] on the store [db]: the store it
    leaves and how the call ends. *)
Definition processAndStoreDataBulk (currentYear : Z) (apiData : list ApiRecord)
    (db : Store) : Store * Outcome (list DistrictPerformance.t) :=
  let transaction := begin db in
  match ingestSteps currentYear apiData transaction with
  | (transaction, inr insertedPerformances) =>
      (commit db transaction, Resolved insertedPerformances)
  | (transaction, inl error) =>
      (rollback db transaction, Thrown error)
  end.

End Ingest.

(** ** The query resolver (districtController.getDistrictData) *)

Module Resolver.
Import JS Storage Ingest.

(** [req.query] *)
Record Query := {
  state : option string;
  district : option string;
  finYear : option string;
  month : option string
}.

(** The argument of [mgnregaApiService.fetchDistrictData]. *)
Record FetchParams := {
  stateName : string;
  fetchYear : string;
  districtName : option string
}.

(** What the handler does not control.
    - [like value pattern]: the LIKE operator under the collation of the
      store.
    - [currentYear]: the calendar year the clock shows while the request is
      handled.
    - [upstream history params]: how a call of [fetchDistrictData] ends after
      the calls in [history]: the records (from the cache or the network),
      or [None] when it throws. *)
Record Env := {
  like : string -> string -> bool;
  currentYear : Z;
  upstream : list FetchParams -> FetchParams -> option (list ApiRecord)
}.

(** The store, and the upstream calls made so far, oldest first. *)
Record World := { db : Store; calls : list FetchParams }.

Record WhereClause := {
  whereFinYear : string;
  whereMonth : option string;
  whereDistrictCode : option string
}.

(** A DistrictPerformance row with its includes. *)
Record Joined := {
  performance : DistrictPerformance.t;
  joinedDistrict : District.t;
  joinedState : option State.t;
  financialYear : option FinancialYear.t;
  extendedMetrics : option DistrictExtendedMetrics.t
}.

Record ProcessedItem := {
  item : Joined;
  performanceScore : number;
  performanceGrade : Metrics.Grade
}.

(** One constructor per [res.status(..).json(..)] of the handler. *)
Inductive Response :=
  | MissingParameters
  | StateUnknownAnywhere (state : string) (availableYears : list string)
  | NoDataForYear (state finYear : string) (stateRecord : State.t)
  | UpstreamUnavailable
  | StateNotFound (state : string)
  | DistrictNotFound (district state : string)
  | DistrictNotFoundAfterFetch (district state : string)
  | NoPerformanceData (query : Query)
  | Success (data : list ProcessedItem).

Definition status (r : Response) : Z :=
  match r with
  | MissingParameters => 400
  | UpstreamUnavailable => 503
  | Success _ => 200
  | _ => 404
  end.


Definition fallbackYears : list string := ["2023-2024"; "2022-2023"; "2021-2022"].

(** [State.findOne({ where: { stateName: { [Op.like]: pattern } } })] *)
Definition State_findOne (env : Env) (db : Store) (pattern : string) : option State.t :=
  List.find (fun r => like env (State.stateName r) pattern)
            (map snd (map_to_list (states db))).

(** [District.findOne({ where: { districtName: { [Op.like]: pattern },
    stateCode } })] *)
Definition District_findOne (env : Env) (db : Store) (pattern stateCode : string)
    : option District.t :=
  List.find (fun r => like env (District.districtName r) pattern
                      && String.eqb (District.stateCode r) stateCode)
            (map snd (map_to_list (districts db))).

(** [await mgnregaApiService.fetchDistrictData(params)] *)
Definition fetchDistrictData (env : Env) (params : FetchParams) (w : World)
    : World * option (list ApiRecord) :=
  ({| db := db w; calls := (calls w ++ [params])%list |}, upstream env (calls w) params).

(** [await dataProcessingService.processAndStoreDataBulk(apiData)] *)
Definition store (env : Env) (apiData : list ApiRecord) (w : World)
    : World * Outcome (list DistrictPerformance.t) :=
  let '(db', r) := processAndStoreDataBulk (currentYear env) apiData (db w) in
  ({| db := db'; calls := calls w |}, r).

(** [buildWhereClause]: [None] is the [null] it returns when the district
    cannot be found. *)
Definition buildWhereClause (env : Env) (finYear : string) (month district : option string)
    (stateCode stateName : string) (w : World) : World * option WhereClause :=
  let whereClause (code : option string) :=
    {| whereFinYear := finYear;
       whereMonth := if truthy_str month then toUpperCase <$> month else None;
       whereDistrictCode := code |} in
  if truthy_str district then
    let pattern := toUpperCase (or_str district "") in
    match District_findOne env (db w) pattern stateCode with
    | Some districtRecord =>
        (w, Some (whereClause (Some (District.districtCode districtRecord))))
    | None =>
        let '(w, apiData) :=
          fetchDistrictData env
            {| stateName := stateName; fetchYear := finYear; districtName := district |} w in
        match apiData with
        | Some ((_ :: _) as apiData) =>
            match store env apiData w with
            | (w, Resolved _) =>
                match District_findOne env (db w) pattern stateCode with
                | Some districtRecord =>
                    (w, Some (whereClause (Some (District.districtCode districtRecord))))
                | None => (w, None)
                end
            | (w, Thrown _) => (w, None)
            end
        | _ => (w, None)
        end
    end
  else (w, Some (whereClause None)).

Fixpoint insert_by_month (x : Joined) (l : list Joined) : list Joined :=
  match l with
  | [] => [x]
  | y :: l' =>
      let monthOf (j : Joined) :=
        default "" (DistrictPerformance.month (DistrictPerformance.attributes (performance j))) in
      if String.ltb (monthOf x) (monthOf y) then y :: insert_by_month x l' else x :: l
  end.

(** [fetchPerformanceData]: the rows matching the where clause whose
    district lies in the state, with their includes, by month descending
    (the second sort key, the modification time, is not in the model). *)
Definition fetchPerformanceData (whereClause : WhereClause) (stateCode : string)
    (db : Store) : list Joined :=
  let matches (row : DistrictPerformance.t) : bool :=
    let a := DistrictPerformance.attributes row in
    String.eqb (DistrictPerformance.finYear a) (whereFinYear whereClause)
    && match whereMonth whereClause with
       | Some m => bool_decide (DistrictPerformance.month a = Some m)
       | None => true
       end
    && match whereDistrictCode whereClause with
       | Some c => String.eqb (DistrictPerformance.districtCode a) c
       | None => true
       end in
  let join (row : DistrictPerformance.t) : option Joined :=
    let a := DistrictPerformance.attributes row in
    match districts db !! DistrictPerformance.districtCode a with
    | Some d =>
        if String.eqb (District.stateCode d) stateCode then
          Some {| performance := row;
                  joinedDistrict := d;
                  joinedState := states db !! District.stateCode d;
                  financialYear := financialYears db !! DistrictPerformance.finYear a;
                  extendedMetrics :=
                    Storage.extendedMetrics db !! DistrictPerformance.id row |}
        else None
    | None => None
    end in
  fold_right insert_by_month []
    (omap join (List.filter matches (map snd (map_to_list (performances db))))).

(** The instance as the metric helpers read it. *)
Definition view (j : Joined) : Metrics.performance :=
  let v := DistrictPerformance.metrics (DistrictPerformance.attributes (performance j)) in
  {| Metrics.districtName := Some (District.districtName (joinedDistrict j));
     Metrics.approvedLabourBudget := DistrictPerformance.approvedLabourBudget v;
     Metrics.averageWageRate := DistrictPerformance.averageWageRate v;
     Metrics.averageDaysEmployment := DistrictPerformance.averageDaysEmployment v;
     Metrics.totalHouseholdsWorked := DistrictPerformance.totalHouseholdsWorked v;
     Metrics.totalIndividualsWorked := DistrictPerformance.totalIndividualsWorked v;
     Metrics.completedWorks := DistrictPerformance.completedWorks v;
     Metrics.ongoingWorks := DistrictPerformance.ongoingWorks v;
     Metrics.womenPersondays := DistrictPerformance.womenPersondays v;
     Metrics.scPersondays := DistrictPerformance.scPersondays v;
     Metrics.stPersondays := DistrictPerformance.stPersondays v;
     Metrics.totalExpenditure := DistrictPerformance.totalExpenditure v;
     Metrics.paymentWithin15Days := DistrictPerformance.paymentWithin15Days v |}.

(** The fallback loop of step 2: the years are tried in order until one
    yields records that are stored; a year whose fetch or storing throws is
    skipped. *)
Fixpoint tryFallbackYears (env : Env) (state : string) (years : list string) (w : World)
    : World :=
  match years with
  | [] => w
  | fallbackYear :: years' =>
      let '(w, fallbackData) :=
        fetchDistrictData env
          {| stateName := state; fetchYear := fallbackYear; districtName := None |} w in
      match fallbackData with
      | Some ((_ :: _) as fallbackData) =>
          match store env fallbackData w with
          | (w, Resolved _) => w
          | (w, Thrown _) => tryFallbackYears env state years' w
          end
      | _ => tryFallbackYears env state years' w
      end
  end.

(** Steps 1 and 2: the state record, or the response that ends the
    request. *)
Definition resolveState (env : Env) (state finYear : string) (district : option string)
    (w : World) : World * (Response + option State.t) :=
  match State_findOne env (db w) (toUpperCase state) with
  | Some stateRecord => (w, inr (Some stateRecord))
  | None =>
      let '(w, apiData) :=
        fetchDistrictData env
          {| stateName := state; fetchYear := finYear; districtName := district |} w in
      match apiData with
      | None => (w, inl UpstreamUnavailable)
      | Some [] =>
          let w := tryFallbackYears env state fallbackYears w in
          match State_findOne env (db w) (toUpperCase state) with
          | None => (w, inl (StateUnknownAnywhere state fallbackYears))
          | Some stateRecord => (w, inl (NoDataForYear state finYear stateRecord))
          end
      | Some apiData =>
          match store env apiData w with
          | (w, Resolved _) => (w, inr (State_findOne env (db w) (toUpperCase state)))
          | (w, Thrown _) => (w, inl UpstreamUnavailable)
          end
      end
  end.

(** Step 5, entered with no rows: one more fetch, and the rows found after
    it, or the response that ends the request. *)
Definition refetch (env : Env) (state finYear : string) (month district : option string)
    (stateRecord : State.t) (w : World) : World * (Response + list Joined) :=
  let '(w, apiData) :=
    fetchDistrictData env
      {| stateName := state; fetchYear := finYear; districtName := district |} w in
  match apiData with
  | Some ((_ :: _) as apiData) =>
      match store env apiData w with
      | (w, Resolved _) =>
          let '(w, refetchWhereClause) :=
            buildWhereClause env finYear month district
              (State.stateCode stateRecord) (State.stateName stateRecord) w in
          match refetchWhereClause with
          | None => (w, inl (DistrictNotFoundAfterFetch (or_str district "") state))
          | Some refetchWhereClause =>
              (w, inr (fetchPerformanceData refetchWhereClause
                         (State.stateCode stateRecord) (db w)))
          end
      | (w, Thrown _) => (w, inr [])
      end
  | _ => (w, inr [])
  end.

(** Step 6. *)
Definition respond (q : Query) (data : list Joined) : Response :=
  match data with
  | [] => NoPerformanceData q
  | _ =>
      Success
        (map (fun item =>
                {| item := item;
                   performanceScore := Metrics.calculatePerformanceScore (view item);
                   performanceGrade := Metrics.getPerformanceGrade (view item) |})
             data)
  end.

Definition getDistrictData (env : Env) (q : Query) (w : World) : World * Response :=
  if negb (truthy_str (state q)) || negb (truthy_str (finYear q))
  then (w, MissingParameters)
  else
    let state := or_str (state q) "" in
    let finYear := or_str (finYear q) "" in
    let district := district q in
    let month := month q in
    match resolveState env state finYear district w with
    | (w, inl response) => (w, response)
    | (w, inr None) => (w, StateNotFound state)
    | (w, inr (Some stateRecord)) =>
        let '(w, whereClause) :=
          buildWhereClause env finYear month district
            (State.stateCode stateRecord) (State.stateName stateRecord) w in
        match whereClause with
        | None => (w, DistrictNotFound (or_str district "") state)
        | Some whereClause =>
            let data := fetchPerformanceData whereClause (State.stateCode stateRecord) (db w) in
            match data with
            | [] =>
                match refetch env state finYear month district stateRecord w with
                | (w, inl response) => (w, response)
                | (w, inr data) => (w, respond q data)
                end
            | _ => (w, respond q data)
            end
        end
    end.

End Resolver.

(** ** The specification's wording, for comparison with the code *)

Module Spec.
Import JS.

(** The hash of a name as a polynomial in 31 over its code units, before
    any wrap-around. *)
Definition poly31 (name : string) : Z :=
  fold_left (fun h c => 31 * h + charCode c) (list_ascii_of_string name) 0.


(** A value below 1000 as three decimal digits. *)
Definition threeDigits (n : Z) : string :=
  String (digit_char (n / 100))
    (String (digit_char (n / 10 mod 10))
       (String (digit_char (n mod 10)) EmptyString)).



Fixpoint allDigits (s : string) : bool :=
  match s with
  | EmptyString => true
  | String c s' => is_digit c && allDigits s'
  end.

(** The integer a digit string denotes. *)
Definition yearOf (digits : string) : Z := decimal_value digits 0.

(** The shape "YYYY-YYYY". *)
Definition wellFormedLabel (label : string) : bool :=
  match split label "-" with
  | [a; b] =>
      allDigits a && allDigits b
      && (String.length a =? 4)%nat && (String.length b =? 4)%nat
  | _ => false
  end.

(** The smaller of two rationals. *)
Definition qmin (x y : Q) : Q := if Qle_bool x y then x else y.

(** The four capped contributions and their rounded sum, on rationals; the
    completion contribution is taken as 0 when there are no works. *)
Definition performanceScore (days payment women completed ongoing : Q) : Z :=
  Qfloor
    (qmin (days / 100 * 30) 30
     + payment / 100 * 25
     + qmin (women / 50 * 20) 20
     + (if Qeq_bool (completed + ongoing) 0 then 0
        else completed / (completed + ongoing) * 25)
     + (1 # 2))%Q.



(** How many of the values are strictly larger than [v]. *)
Fixpoint greaterCount (v : number) (values : list number) : Z :=
  match values with
  | [] => 0
  | w :: values' => (if lt v w then 1 else 0) + greaterCount v values'
  end.

(** A list in descending order: no element is smaller than a later one. *)
Definition sortedDescending (l : list number) : Prop :=
  StronglySorted (fun a b => lt a b = false) l.

(** The records a comparison is made over: the compared metrics and the
    inputs of the score are numbers. *)
Definition comparable (d : Metrics.performance) : bool :=
  is_finite (Metrics.averageDaysEmployment d)
  && is_finite (Metrics.averageWageRate d)
  && is_finite (Metrics.totalHouseholdsWorked d)
  && is_finite (Metrics.womenPersondays d)
  && is_finite (Metrics.paymentWithin15Days d)
  && is_finite (Metrics.completedWorks d)
  && is_finite (Metrics.ongoingWorks d).

(** The instance a bulk upsert hands back for the object [a]: the id of the
    row stored under its natural key, with the attributes given. *)
Definition instanceOf (m : gmap Storage.natural_key DistrictPerformance.t)
    (a : DistrictPerformance.attrs) : DistrictPerformance.t :=
  {| DistrictPerformance.id :=
       from_option DistrictPerformance.id 0 (m !! Storage.key_of a);
     DistrictPerformance.attributes := a |}.

(** Rows are stored under their keys; every district names a stored state,
    every performance row a stored district and a stored financial year,
    every extended-metrics row a stored performance row. *)
Definition referentialIntegrity (db : Storage.Store) : Prop :=
  (forall k st, Storage.states db !! k = Some st -> State.stateCode st = k)
  /\ (forall k d, Storage.districts db !! k = Some d ->
        District.districtCode d = k
        /\ is_Some (Storage.states db !! District.stateCode d))
  /\ (forall k p, Storage.performances db !! k = Some p ->
        Storage.key_of (DistrictPerformance.attributes p) = k
        /\ is_Some (Storage.districts db
                      !! DistrictPerformance.districtCode (DistrictPerformance.attributes p))
        /\ is_Some (Storage.financialYears db
                      !! DistrictPerformance.finYear (DistrictPerformance.attributes p)))
  /\ (forall pid x, Storage.extendedMetrics db !! pid = Some x ->
        DistrictExtendedMetrics.performanceId (DistrictExtendedMetrics.attributes x) = pid
        /\ Storage.has_performance (Storage.performances db) pid = true).

(** The stores the engine can leave: the empty one, and what a call of
    [processAndStoreDataBulk] leaves of such a store, however it ends. *)
Inductive ingested : Storage.Store -> Prop :=
  | ingested_empty : ingested Storage.empty
  | ingested_call currentYear apiData db db' outcome :
      ingested db ->
      Ingest.processAndStoreDataBulk currentYear apiData db = (db', outcome) ->
      ingested db'.

(** The data of a request is fully present in local storage: the state
    resolves, the district, when one is asked for, resolves, and the
    matching performance rows are not empty. *)
Definition locallyPresent (env : Resolver.Env) (db : Storage.Store)
    (q : Resolver.Query) : bool :=
  match Resolver.State_findOne env db (toUpperCase (or_str (Resolver.state q) "")) with
  | None => false
  | Some stateRecord =>
      let whereClause (code : option string) :=
        {| Resolver.whereFinYear := or_str (Resolver.finYear q) "";
           Resolver.whereMonth :=
             if truthy_str (Resolver.month q) then toUpperCase <$> Resolver.month q
             else None;
           Resolver.whereDistrictCode := code |} in
      let found (code : option string) :=
        match Resolver.fetchPerformanceData (whereClause code)
                (State.stateCode stateRecord) db with
        | [] => false
        | _ => true
        end in
      if truthy_str (Resolver.district q) then
        match Resolver.District_findOne env db
                (toUpperCase (or_str (Resolver.district q) ""))
                (State.stateCode stateRecord) with
        | Some districtRecord => found (Some (District.districtCode districtRecord))
        | None => false
        end
      else found None
  end.

End Spec.



(** ** Sample data *)

Module Examples.
Import JS.

(** A record with the given inputs of the score, and 3 and 4 SC/ST
    person-days among 20 individuals. *)
Definition scored (days payment women completed ongoing : Z) : Metrics.performance :=
  {| Metrics.districtName := Some "ERNAKULAM";
     Metrics.approvedLabourBudget := of_Z 1000;
     Metrics.averageWageRate := of_Z 250;
     Metrics.averageDaysEmployment := of_Z days;
     Metrics.totalHouseholdsWorked := of_Z 10;
     Metrics.totalIndividualsWorked := of_Z 20;
     Metrics.completedWorks := of_Z completed;
     Metrics.ongoingWorks := of_Z ongoing;
     Metrics.womenPersondays := of_Z women;
     Metrics.scPersondays := of_Z 3;
     Metrics.stPersondays := of_Z 4;
     Metrics.totalExpenditure := of_Z 990;
     Metrics.paymentWithin15Days := of_Z payment |}.

(** An upstream record of a district of Kerala for a month of a year. *)
Definition upstreamRecordOf (fin_year district_name month days : string)
    : Ingest.ApiRecord :=
  {| Ingest.state_name := Some "KERALA";
     Ingest.state_code := None;
     Ingest.district_name := Some district_name;
     Ingest.district_code := None;
     Ingest.fin_year := Some fin_year;
     Ingest.month := Some month;
     Ingest.Approved_Labour_Budget := Some "1000";
     Ingest.Average_Wage_rate_per_day_per_person := Some "250.5";
     Ingest.Average_days_of_employment_provided_per_Household := Some days;
     Ingest.Total_Households_Worked := Some "10";
     Ingest.Total_Individuals_Worked := Some "20";
     Ingest.Number_of_Completed_Works := Some "3";
     Ingest.Number_of_Ongoing_Works := Some "4";
     Ingest.Women_Persondays := Some "55.5";
     Ingest.SC_persondays := None;
     Ingest.ST_persondays := Some "x";
     Ingest.Total_Exp := Some "99";
     Ingest.Wages := Some "77";
     Ingest.Total_No_of_HHs_completed_100_Days_of_Wage_Employment := Some "1";
     Ingest.percentage_payments_gererated_within_15_days := Some "98.7" |}.

Definition upstreamRecord : string -> string -> string -> Ingest.ApiRecord :=
  upstreamRecordOf "2024-2025".

(** Three records, two of them for the same district and month. *)
Definition batch : list Ingest.ApiRecord :=
  [ upstreamRecord "Ernakulam" "April" "41";
    upstreamRecord "Idukki" "April" "42";
    upstreamRecord "Ernakulam" "April" "43" ].

(** A batch whose second record has no month. *)
Definition batchWithoutMonth : list Ingest.ApiRecord :=
  [ upstreamRecord "Ernakulam" "April" "41"; upstreamRecord "Idukki" "" "42" ].

(** The store after the batch is ingested into the empty store. *)
Definition afterBatch : Storage.Store :=
  fst (Ingest.processAndStoreDataBulk 2026 batch Storage.empty).

(** LIKE as an equality that ignores case. *)
Definition likeIgnoringCase (value pattern : string) : bool :=
  String.eqb (toUpperCase value) (toUpperCase pattern).

(** An upstream that has records for 2023-2024 only. *)
Definition upstreamOf2023 : Resolver.Env :=
  {| Resolver.like := likeIgnoringCase;
     Resolver.currentYear := 2026;
     Resolver.upstream := fun _ params =>
       if String.eqb (Resolver.fetchYear params) "2023-2024"
       then Some [upstreamRecordOf "2023-2024" "Ernakulam" "April" "41"]
       else Some [] |}.

(** An upstream that has no records at all. *)
Definition upstreamOfNothing : Resolver.Env :=
  {| Resolver.like := likeIgnoringCase;
     Resolver.currentYear := 2026;
     Resolver.upstream := fun _ _ => Some [] |}.

(** The request for Kerala, 2024-2025, every district and month. *)
Definition keralaQuery : Resolver.Query :=
  {| Resolver.state := Some "Kerala";
     Resolver.district := None;
     Resolver.finYear := Some "2024-2025";
     Resolver.month := None |}.

(** A world whose store holds the batch, with no upstream call made. *)
Definition populated : Resolver.World :=
  {| Resolver.db := afterBatch; Resolver.calls := [] |}.

(** A world with an empty store. *)
Definition blank : Resolver.World :=
  {| Resolver.db := Storage.empty; Resolver.calls := [] |}.

End Examples.




(** ** The cache (cacheService over the Redis client) *)

Module Cache.

(** The Redis client as the service sees it: whether its commands succeed,
    and the entries with the time, in seconds, they expire at.  A value is
    stored as its JSON text and parsed when it is read back; the model keeps
    the value. *)
Record Redis (V : Type) := {
  ready : bool;
  entries : gmap string (V * Z)
}.
Arguments ready {V} _.
Arguments entries {V} _.

(** [get(key)] at the time [now]: the value, or [None] for the [null] of a
    missing or expired key and of a failed command. *)
Definition get {V} (now : Z) (key : string) (redis : Redis V) : option V :=
  if ready redis then
    match entries redis !! key with
    | Some (data, expiry) => if now <? expiry then Some data else None
    | None => None
    end
  else None.

(** [set(key, value, ttl)]: the client after it, and whether it worked. *)
Definition set {V} (now : Z) (key : string) (value : V) (ttl : Z) (redis : Redis V)
    : Redis V * bool :=
  if ready redis then
    ({| ready := true; entries := <[key := (value, now + ttl)]> (entries redis) |}, true)
  else (redis, false).




End Cache.

(** ** The upstream client (mgnregaApiService) *)

Module Api.
Import JS Ingest.

(** The filters of a request; the key, the format and the limit are the
    same in every request. *)
Record Request := {
  filterStateName : string;
  filterFinYear : string;
  filterDistrictName : option string
}.

(** How a request ends: it is rejected (no answer, a timeout, a status
    outside 2xx), or it is answered with a body that has records or has
    none. *)
Inductive Reply :=
  | Rejected
  | Body (records : option (list ApiRecord)).

Definition cacheKey (params : Resolver.FetchParams) : string :=
  "mgnrega:" +:+ Resolver.stateName params +:+ ":" +:+ Resolver.fetchYear params
  +:+ ":" +:+ or_str (Resolver.districtName params) "all".

Definition requestOf (params : Resolver.FetchParams) : Request :=
  {| filterStateName := toUpperCase (Resolver.stateName params);
     filterFinYear := Resolver.fetchYear params;
     filterDistrictName :=
       if truthy_str (Resolver.districtName params)
       then toUpperCase <$> Resolver.districtName params
       else None |}.

(** [fetchDistrictData(params)] at the time [now], with [http] answering
    the requests: the cache after the call, the requests made, and the
    records, or [None] when the call throws. *)
Definition fetchDistrictData (http : Request -> Reply) (now : Z)
    (params : Resolver.FetchParams) (redis : Cache.Redis (list ApiRecord))
    : Cache.Redis (list ApiRecord) * list Request * option (list ApiRecord) :=
  let cacheKey := cacheKey params in
  match Cache.get now cacheKey redis with
  | Some cachedData => (redis, [], Some cachedData)
  | None =>
      let request := requestOf params in
      match http request with
      | Body (Some records) =>
          let '(redis, _) := Cache.set now cacheKey records 3600 redis in
          (redis, [request], Some records)
      | Body None => (redis, [request], Some [])
      | Rejected => (redis, [request], None)
      end
  end.

Definition states : list string :=
  [ "ANDHRA PRADESH"; "ARUNACHAL PRADESH"; "ASSAM"; "BIHAR";
    "CHHATTISGARH"; "GOA"; "GUJARAT"; "HARYANA"; "HIMACHAL PRADESH";
    "JHARKHAND"; "KARNATAKA"; "KERALA"; "MADHYA PRADESH"; "MAHARASHTRA";
    "MANIPUR"; "MEGHALAYA"; "MIZORAM"; "NAGALAND"; "ODISHA";
    "PUNJAB"; "RAJASTHAN"; "SIKKIM"; "TAMIL NADU"; "TELANGANA";
    "TRIPURA"; "UTTAR PRADESH"; "UTTARAKHAND"; "WEST BENGAL" ].

(** [fetchStatesList()]: the entries it reads and writes are lists of
    names. *)
Definition fetchStatesList (now : Z) (redis : Cache.Redis (list string))
    : Cache.Redis (list string) * list string :=
  let cacheKey := "mgnrega:states:list" in
  match Cache.get now cacheKey redis with
  | Some cachedData => (redis, cachedData)
  | None =>
      let '(redis, _) := Cache.set now cacheKey states 86400 redis in
      (redis, states)
  end.

(** [[...new Set(values)]]: the values in the order of their first
    occurrence. *)
Definition unique (values : list (option string)) : list (option string) :=
  foldl (fun seen value => if bool_decide (value ∈ seen) then seen
                           else (seen ++ [value])%list)
        [] values.

Definition fetchDistrictsList (http : Request -> Reply) (now : Z) (state : string)
    (redis : Cache.Redis (list ApiRecord))
    : Cache.Redis (list ApiRecord) * list Request * option (list (option string)) :=
  let '(redis, requests, data) :=
    fetchDistrictData http now
      {| Resolver.stateName := state; Resolver.fetchYear := "2024-2025";
         Resolver.districtName := None |} redis in
  (redis, requests, (fun data => unique (map district_name data)) <$> data).

End Api.

(** ** The routes of the district router (routes/districtRoutes) *)

Module Routes.
Import JS.

Inductive Method := GET | POST.

Inductive Handler :=
  | getStatesList
  | getFinancialYears
  | getDistrictsList
  | getDistrictDetails
  | getDistrictData
  | getHistoricalData
  | getStateStatistics
  | getTopPerformers
  | compareDistricts.

Inductive Segment :=
  | Literal (text : string)
  | Param (name : string).

Record Route := { method : Method; pattern : list Segment; handler : Handler }.

(** The routes in the order they are registered.  Every route ends in a
    handler that answers the request, so the first route that matches a
    request is the one that serves it. *)
Definition routes : list Route :=
  [ {| method := GET; pattern := [Literal "states"]; handler := getStatesList |};
    {| method := GET; pattern := [Literal "financial-years"];
       handler := getFinancialYears |};
    {| method := GET; pattern := [Literal "list"]; handler := getDistrictsList |};
    {| method := GET; pattern := [Param "districtCode"]; handler := getDistrictDetails |};
    {| method := GET; pattern := []; handler := getDistrictData |};
    {| method := GET; pattern := [Literal "historical"]; handler := getHistoricalData |};
    {| method := GET; pattern := [Literal "statistics"]; handler := getStateStatistics |};
    {| method := GET; pattern := [Literal "top-performers"];
       handler := getTopPerformers |};
    {| method := POST; pattern := [Literal "compare"]; handler := compareDistricts |} ].

(** A path, given by its segments (the slash at the end dropped), against
    a pattern: a literal matches its text whatever the case, a parameter
    any segment that is not empty; the result is [req.params]. *)
Fixpoint matchPath (pattern : list Segment) (segments : list string)
    : option (list (string * string)) :=
  match pattern, segments with
  | [], [] => Some []
  | Literal text :: pattern', segment :: segments' =>
      if String.eqb (toUpperCase segment) (toUpperCase text)
      then matchPath pattern' segments'
      else None
  | Param name :: pattern', segment :: segments' =>
      if String.eqb segment "" then None
      else option_map (cons (name, segment)) (matchPath pattern' segments')
  | _, _ => None
  end.

Definition same_method (a b : Method) : bool :=
  match a, b with
  | GET, GET | POST, POST => true
  | _, _ => false
  end.

(** The route that serves a request, with the parameters of its path. *)
Fixpoint dispatchIn (routes : list Route) (m : Method) (segments : list string)
    : option (Route * list (string * string)) :=
  match routes with
  | [] => None
  | route :: routes' =>
      if same_method (method route) m then
        match matchPath (pattern route) segments with
        | Some params => Some (route, params)
        | None => dispatchIn routes' m segments
        end
      else dispatchIn routes' m segments
  end.

Definition dispatch : Method -> list string -> option (Route * list (string * string)) :=
  dispatchIn routes.

(** The pattern [/^\d{4}-\d{4}$/] *)
Definition matchesYearPattern (value : string) : bool :=
  match list_ascii_of_string value with
  | [a; b; c; d; dash; e; f; g; h] =>
      forallb is_digit [a; b; c; d] && Ascii.eqb dash "-" && forallb is_digit [e; f; g; h]
  | _ => false
  end.

Definition monthNames : list string :=
  [ "APRIL"; "MAY"; "JUNE"; "JULY"; "AUGUST"; "SEPTEMBER"; "OCTOBER"; "NOVEMBER";
    "DECEMBER"; "JANUARY"; "FEBRUARY"; "MARCH" ].

(** The validators of [GET /]: whether [validate] lets the query through
    to [getDistrictData]. *)
Definition validDistrictDataQuery (q : Resolver.Query) : bool :=
  truthy_str (Resolver.state q)
  && (truthy_str (Resolver.finYear q)
      && matchesYearPattern (or_str (Resolver.finYear q) ""))
  && truthy_str (Resolver.district q)
  && match Resolver.month q with
     | Some month => bool_decide (month ∈ monthNames)
     | None => true
     end.

(** The validators of [GET /:districtCode]. *)
Definition validDistrictCodeParam (params : list (string * string)) : bool :=
  match Ingest.Map_get params "districtCode" with
  | Some value =>
      negb (String.eqb value "")
      && (1 <=? String.length value)%nat && (String.length value <=? 20)%nat
  | None => false
  end.

End Routes.

(** ** More handlers of the controller (districtController) *)

Module Controller.
Import JS Storage Ingest.

(** A number in a template literal. *)
Definition numberToString (n : option Z) : string :=
  match n with
  | None => "NaN"
  | Some z => if z <? 0 then "-" +:+ natToString (- z) else natToString z
  end.

(** The loop of [getHistoricalData] that lists the financial years: [years]
    labels counting down from [startYear]. *)
Definition yearsList (startYear : option Z) (years : Z) : list string :=
  map (fun i =>
         let year := (fun startYear => startYear - Z.of_nat i) <$> startYear in
         numberToString year +:+ "-" +:+ numberToString ((fun year => year + 1) <$> year))
      (seq 0 (Z.to_nat years)).

(** The start year the loop counts down from. *)
Definition startYearOf (finYear : string) : option Z :=
  parseInt_prop (split finYear "-" !! 0%nat).

(** One row of the performances included in the details of a district. *)
Record DetailsRow := {
  row : DistrictPerformance.t;
  rowFinancialYear : option FinancialYear.t;
  rowExtendedMetrics : option DistrictExtendedMetrics.t
}.

Inductive DetailsResponse :=
  | DetailsMissingParameters
  | DetailsStateNotFound (state : string)
  | DetailsDistrictNotFound (districtName state : string)
  | DetailsFound (district : District.t) (state : option State.t)
      (performances : list DetailsRow).

Definition detailsStatus (r : DetailsResponse) : Z :=
  match r with
  | DetailsMissingParameters => 400
  | DetailsStateNotFound _ | DetailsDistrictNotFound _ _ => 404
  | DetailsFound _ _ _ => 200
  end.

(** [a] sorts after [b] under [order: [['finYear', 'DESC'], ['month',
    'DESC']]]. *)
Definition later_row (a b : DetailsRow) : bool :=
  let finYear r := DistrictPerformance.finYear (DistrictPerformance.attributes (row r)) in
  let month r :=
    default "" (DistrictPerformance.month (DistrictPerformance.attributes (row r))) in
  String.ltb (finYear a) (finYear b)
  || String.eqb (finYear a) (finYear b) && String.ltb (month a) (month b).

Fixpoint insert_row (x : DetailsRow) (l : list DetailsRow) : list DetailsRow :=
  match l with
  | [] => [x]
  | y :: l' => if later_row x y then y :: insert_row x l' else x :: l
  end.

(** The included performances: the twelve first rows of the district by
    financial year and month, descending. *)
Definition includedPerformances (districtCode : string) (db : Store) : list DetailsRow :=
  take 12
    (fold_right insert_row []
       (map (fun r =>
               {| row := r;
                  rowFinancialYear :=
                    financialYears db
                      !! DistrictPerformance.finYear (DistrictPerformance.attributes r);
                  rowExtendedMetrics := extendedMetrics db !! DistrictPerformance.id r |})
            (List.filter
               (fun r => String.eqb (DistrictPerformance.districtCode
                                       (DistrictPerformance.attributes r)) districtCode)
               (map snd (map_to_list (performances db)))))).

(** [getDistrictDetails]: [params] is [req.params], [state] is
    [req.query.state]. *)
Definition getDistrictDetails (env : Resolver.Env) (params : list (string * string))
    (state : option string) (db : Store) : DetailsResponse :=
  let districtName := Map_get params "districtName" in
  if negb (truthy_str districtName) || negb (truthy_str state)
  then DetailsMissingParameters
  else
    let districtName := or_str districtName "" in
    let state := or_str state "" in
    match Resolver.State_findOne env db (toUpperCase state) with
    | None => DetailsStateNotFound state
    | Some stateRecord =>
        match Resolver.District_findOne env db (toUpperCase districtName)
                (State.stateCode stateRecord) with
        | None => DetailsDistrictNotFound districtName state
        | Some district =>
            DetailsFound district (states db !! District.stateCode district)
              (includedPerformances (District.districtCode district) db)
        end
    end.

(** [GET /:districtCode] as the router serves it: the validators, then the
    handler; the status of the answer. *)
Definition serveDistrictDetails (env : Resolver.Env) (params : list (string * string))
    (state : option string) (db : Store) : Z :=
  if Routes.validDistrictCodeParam params
  then detailsStatus (getDistrictDetails env params state db)
  else 400.

Inductive ListResponse :=
  | ListMissingState
  | ListNoDistricts (state : string)
  | ListSourceUnavailable
  | ListDistrictsUnavailable
  | ListFromApi (data : list (option string))
  | ListFromDatabase (data : list District.t).

Definition listStatus (r : ListResponse) : Z :=
  match r with
  | ListMissingState => 400
  | ListNoDistricts _ => 404
  | ListSourceUnavailable | ListDistrictsUnavailable => 503
  | ListFromApi _ | ListFromDatabase _ => 200
  end.

Fixpoint insert_by_name (x : District.t) (l : list District.t) : list District.t :=
  match l with
  | [] => [x]
  | y :: l' =>
      if String.ltb (District.districtName y) (District.districtName x)
      then y :: insert_by_name x l' else x :: l
  end.

(** [District.findAll({ where: { stateCode }, order: [['districtName',
    'ASC']] })] *)
Definition District_findAll (db : Store) (stateCode : string) : list District.t :=
  fold_right insert_by_name []
    (List.filter (fun d => String.eqb (District.stateCode d) stateCode)
                 (map snd (map_to_list (districts db)))).

(** [getDistrictsList]: the cache after the request, the upstream requests
    made, and the answer. *)
Definition getDistrictsList (env : Resolver.Env) (http : Api.Request -> Api.Reply)
    (now : Z) (state : option string) (db : Store)
    (redis : Cache.Redis (list ApiRecord))
    : Cache.Redis (list ApiRecord) * list Api.Request * ListResponse :=
  if negb (truthy_str state) then (redis, [], ListMissingState)
  else
    let state := or_str state "" in
    match Resolver.State_findOne env db (toUpperCase state) with
    | None =>
        match Api.fetchDistrictsList http now state redis with
        | (redis, requests, Some apiDistricts) =>
            if (length apiDistricts =? 0)%nat
            then (redis, requests, ListNoDistricts state)
            else (redis, requests, ListFromApi apiDistricts)
        | (redis, requests, None) => (redis, requests, ListSourceUnavailable)
        end
    | Some stateRecord =>
        let districts := District_findAll db (State.stateCode stateRecord) in
        if (length districts =? 0)%nat then
          match Api.fetchDistrictsList http now state redis with
          | (redis, requests, Some apiDistricts) =>
              (redis, requests, ListFromApi apiDistricts)
          | (redis, requests, None) => (redis, requests, ListDistrictsUnavailable)
          end
        else (redis, [], ListFromDatabase districts)
    end.

End Controller.

(** ** More sample data *)

Module Samples.
Import JS.

(** A record whose days of employment are absent, and one whose works are. *)
Definition withoutDays : Metrics.performance :=
  {| Metrics.districtName := Some "IDUKKI";
     Metrics.approvedLabourBudget := of_Z 1000;
     Metrics.averageWageRate := of_Z 250;
     Metrics.averageDaysEmployment := NaN;
     Metrics.totalHouseholdsWorked := of_Z 10;
     Metrics.totalIndividualsWorked := of_Z 20;
     Metrics.completedWorks := of_Z 7;
     Metrics.ongoingWorks := of_Z 3;
     Metrics.womenPersondays := of_Z 30;
     Metrics.scPersondays := of_Z 3;
     Metrics.stPersondays := of_Z 4;
     Metrics.totalExpenditure := of_Z 990;
     Metrics.paymentWithin15Days := of_Z 90 |}.

Definition withoutWorks : Metrics.performance :=
  {| Metrics.districtName := Some "IDUKKI";
     Metrics.approvedLabourBudget := of_Z 1000;
     Metrics.averageWageRate := of_Z 250;
     Metrics.averageDaysEmployment := of_Z 45;
     Metrics.totalHouseholdsWorked := of_Z 10;
     Metrics.totalIndividualsWorked := of_Z 20;
     Metrics.completedWorks := NaN;
     Metrics.ongoingWorks := of_Z 3;
     Metrics.womenPersondays := of_Z 30;
     Metrics.scPersondays := of_Z 3;
     Metrics.stPersondays := of_Z 4;
     Metrics.totalExpenditure := of_Z 990;
     Metrics.paymentWithin15Days := of_Z 90 |}.

(** A cache that works and holds nothing, and one whose commands fail. *)
Definition emptyCache : Cache.Redis (list Ingest.ApiRecord) :=
  {| Cache.ready := true; Cache.entries := ∅ |}.

Definition deadCache : Cache.Redis (list Ingest.ApiRecord) :=
  {| Cache.ready := false; Cache.entries := ∅ |}.

(** The fetch of every district of Kerala for 2024-2025. *)
Definition keralaParams : Resolver.FetchParams :=
  {| Resolver.stateName := "Kerala"; Resolver.fetchYear := "2024-2025";
     Resolver.districtName := None |}.

(** An upstream that answers with the batch for Kerala and with no record
    for any other state, and one that rejects every request. *)
Definition httpOfKerala (request : Api.Request) : Api.Reply :=
  if String.eqb (Api.filterStateName request) "KERALA"
  then Api.Body (Some Examples.batch)
  else Api.Body (Some []).

Definition httpDown (request : Api.Request) : Api.Reply := Api.Rejected.

End Samples.

(** * Properties *)

(** ** Facts about the JavaScript primitives *)

Section PrimitiveFacts.
Import JS.

Lemma toInt32_range z : - 2 ^ 31 <= toInt32 z < 2 ^ 31.
Proof. unfold toInt32. pose proof (Z.mod_pos_bound (z + 2 ^ 31) (2 ^ 32)). lia. Qed.

Lemma toInt32_small z : - 2 ^ 31 <= z < 2 ^ 31 -> toInt32 z = z.
Proof. intros H. unfold toInt32. rewrite Z.mod_small; lia. Qed.

Lemma toInt32_idem z : toInt32 (toInt32 z) = toInt32 z.
Proof. apply toInt32_small, toInt32_range. Qed.

(** Two integers that differ by a multiple of 2^32 wrap to the same value. *)
Lemma toInt32_congr a b k : a = b + k * 2 ^ 32 -> toInt32 a = toInt32 b.
Proof.
  intros ->. unfold toInt32. f_equal.
  replace (b + k * 2 ^ 32 + 2 ^ 31) with (b + 2 ^ 31 + k * 2 ^ 32) by lia.
  apply Z.mod_add. lia.
Qed.

Lemma toInt32_diff z : exists k, toInt32 z = z + k * 2 ^ 32.
Proof.
  exists (- ((z + 2 ^ 31) / 2 ^ 32)). unfold toInt32.
  rewrite (Z.mod_eq (z + 2 ^ 31) (2 ^ 32)) by lia. lia.
Qed.

Lemma is_digit_cases c :
  is_digit c = true ->
  c = "0"%char \/ c = "1"%char \/ c = "2"%char \/ c = "3"%char \/ c = "4"%char \/
  c = "5"%char \/ c = "6"%char \/ c = "7"%char \/ c = "8"%char \/ c = "9"%char.
Proof.
  destruct c as [[] [] [] [] [] [] [] []]; vm_compute; intros H;
    try discriminate H; tauto.
Qed.

Lemma digit_plain c :
  is_digit c = true ->
  is_space c = false /\ Ascii.eqb c "-" = false /\ Ascii.eqb c "+" = false
  /\ Ascii.eqb c "x" = false /\ Ascii.eqb c "X" = false /\ Ascii.eqb c "." = false
  /\ Ascii.eqb "I" c = false.
Proof.
  intros H. apply is_digit_cases in H.
  repeat (destruct H as [-> | H]; [by vm_compute|]). subst. by vm_compute.
Qed.

Lemma digit_char_spec d :
  0 <= d < 10 -> is_digit (digit_char d) = true /\ digit_val (digit_char d) = d.
Proof.
  intros H.
  assert (d = 0 \/ d = 1 \/ d = 2 \/ d = 3 \/ d = 4 \/ d = 5 \/ d = 6 \/ d = 7
          \/ d = 8 \/ d = 9) as C by lia.
  repeat (destruct C as [-> | C]; [by vm_compute|]). subst. by vm_compute.
Qed.

Lemma render_digits_S fuel n acc :
  render_digits (S fuel) n acc
  = if n <? 10 then String (digit_char (n mod 10)) acc
    else render_digits fuel (n / 10) (String (digit_char (n mod 10)) acc).
Proof. reflexivity. Qed.

Lemma render_digits_spec fuel n acc :
  0 <= n < 2 ^ Z.of_nat (S fuel) -> Spec.allDigits acc = true ->
  Spec.allDigits (render_digits (S fuel) n acc) = true
  /\ decimal_value (render_digits (S fuel) n acc) 0 = decimal_value acc n
  /\ (String.length acc < String.length (render_digits (S fuel) n acc))%nat.
Proof.
  revert n acc. induction fuel as [|fuel IH]; intros n acc Hn Hacc;
    rewrite render_digits_S;
    (destruct (digit_char_spec (n mod 10)) as [Hd Hv]; [apply Z.mod_pos_bound; lia|]);
    destruct (n <? 10) eqn:L.
  - apply Z.ltb_lt in L. rewrite (Z.mod_small n 10) in Hd, Hv |- * by lia.
    cbn [Spec.allDigits decimal_value String.length].
    rewrite Hd, Hacc, Hv. repeat split; auto.
  - apply Z.ltb_ge in L. change (2 ^ Z.of_nat 1) with 2 in Hn. lia.
  - apply Z.ltb_lt in L. rewrite (Z.mod_small n 10) in Hd, Hv |- * by lia.
    cbn [Spec.allDigits decimal_value String.length].
    rewrite Hd, Hacc, Hv. repeat split; auto.
  - apply Z.ltb_ge in L.
    destruct (IH (n / 10) (String (digit_char (n mod 10)) acc)) as (A & B & C).
    + split; [apply Z.div_pos; lia|].
      rewrite (Nat2Z.inj_succ (S fuel)), Z.pow_succ_r in Hn by lia.
      assert (0 < 2 ^ Z.of_nat (S fuel)) by (apply Z.pow_pos_nonneg; lia).
      assert (forall X, 0 < X -> 0 <= n < 2 * X -> n / 10 < X) as G
        by (intros; apply Z.div_lt_upper_bound; lia).
      by apply G.
    + cbn [Spec.allDigits]. by rewrite Hd, Hacc.
    + repeat split; [done| |cbn [String.length] in C; lia].
      rewrite B. cbn [decimal_value]. rewrite Hv. f_equal.
      pose proof (Z.div_mod n 10). lia.
Qed.

Lemma natToString_spec n :
  0 <= n ->
  Spec.allDigits (natToString n) = true
  /\ decimal_value (natToString n) 0 = n
  /\ natToString n <> "".
Proof.
  intros Hn. unfold natToString.
  destruct (render_digits_spec (Z.to_nat (Z.log2 n)) n "") as (A & B & C); [|done|].
  - split; [done|]. destruct (Z.eq_dec n 0) as [->|]; [done|].
    rewrite Nat2Z.inj_succ, Z2Nat.id by apply Z.log2_nonneg.
    apply Z.log2_spec. lia.
  - repeat split; [done|done|]. intros E. rewrite E in C. simpl in C. lia.
Qed.

Lemma app_String c (s t : string) : String c s +:+ t = String c (s +:+ t).
Proof. reflexivity. Qed.

Lemma span_digits_all s : Spec.allDigits s = true -> span_digits s = (s, "").
Proof.
  induction s as [|c s IH]; simpl; [done|]. intros H.
  apply andb_true_iff in H as [-> Hs]. by rewrite IH.
Qed.

Lemma span_digits_stop a c r :
  Spec.allDigits a = true -> is_digit c = false ->
  span_digits (a +:+ String c r) = (a, String c r).
Proof.
  intros Ha Hc. induction a as [|d a IH]; simpl.
  - by rewrite Hc.
  - simpl in Ha. apply andb_true_iff in Ha as [-> Ha]. by rewrite IH.
Qed.

Lemma read_digits_decimal s acc seen :
  Spec.allDigits s = true ->
  read_digits dec_val 10 s acc seen
  = (decimal_value s acc, seen || negb (String.eqb s "")).
Proof.
  revert acc seen. induction s as [|c s IH]; intros acc seen H; simpl in *.
  - by rewrite orb_false_r.
  - apply andb_true_iff in H as [Hc Hs]. unfold dec_val. rewrite Hc.
    rewrite IH by done. by rewrite orb_true_r.
Qed.

Lemma parseInt_digits s :
  s <> "" -> Spec.allDigits s = true -> parseInt s = Some (Spec.yearOf s).
Proof.
  intros Hne H. destruct s as [|c s]; [done|].
  pose proof H as H'. simpl in H'. apply andb_true_iff in H' as [Hc Hs].
  destruct (digit_plain c Hc) as (Hsp & Hm & Hp & _).
  unfold parseInt. simpl trimStart. rewrite Hsp.
  unfold read_sign. rewrite Hm, Hp.
  assert (startsWith (String c s) "0x" || startsWith (String c s) "0X" = false) as ->.
  { destruct s as [|c2 s]; cbn [startsWith].
    - by rewrite !andb_false_r.
    - simpl in Hs. apply andb_true_iff in Hs as [Hc2 _].
      destruct (digit_plain c2 Hc2) as (_ & _ & _ & Hx & HX & _).
      rewrite (Ascii.eqb_sym "x" c2), (Ascii.eqb_sym "X" c2), Hx, HX.
      by rewrite !andb_false_r. }
  rewrite read_digits_decimal by done. simpl. done.
Qed.

Lemma digits_no_dash s : Spec.allDigits s = true -> includes s "-" = false.
Proof.
  induction s as [|c s IH]; simpl; [done|]. intros H.
  apply andb_true_iff in H as [Hc Hs].
  destruct (digit_plain c Hc) as (_ & -> & _). auto.
Qed.

Lemma split_no_sep s sep : includes s sep = false -> split s sep = [s].
Proof.
  induction s as [|c s IH]; simpl; [done|].
  destruct (Ascii.eqb c sep); [done|]. intros H. by rewrite IH.
Qed.

Lemma split_at_sep a b sep :
  includes a sep = false -> split (a +:+ String sep b) sep = a :: split b sep.
Proof.
  induction a as [|c a IH]; simpl.
  - intros _. by rewrite Ascii.eqb_refl.
  - destruct (Ascii.eqb c sep); [done|]. intros H. by rewrite IH.
Qed.

Lemma includes_at_sep a b sep : includes (a +:+ String sep b) sep = true.
Proof.
  induction a as [|c a IH]; simpl.
  - by rewrite Ascii.eqb_refl.
  - by destruct (Ascii.eqb c sep).
Qed.

(** What [parseFloat] reads from an unsigned decimal with two places. *)
Lemma parseFloat_unsigned (i d1 d2 : Z) (negative : bool) :
  0 <= i -> 0 <= d1 < 10 -> 0 <= d2 < 10 ->
  let body := natToString i +:+ "." +:+
              String (digit_char d1) (String (digit_char d2) EmptyString) in
  exists q,
    parseFloat ((if negative then "-" else "") +:+ body) = Num q
    /\ (q == (if negative then -1 else 1) * inject_Z (i * 100 + d1 * 10 + d2) / 100)%Q.
Proof.
  intros Hi H1 H2 body.
  destruct (natToString_spec i Hi) as (A & V & Ne).
  destruct (digit_char_spec d1 H1) as [D1 V1], (digit_char_spec d2 H2) as [D2 V2].
  assert (exists c s, natToString i = String c s /\ is_digit c = true) as (c & s & Es & Hc).
  { destruct (natToString i) as [|c s]; [done|]. simpl in A.
    apply andb_true_iff in A as [? _]. eauto. }
  destruct (digit_plain c Hc) as (Sp & Mi & Pl & _ & _ & _ & In).
  assert (forall neg : bool,
    (let '(ip, r) := span_digits body in
     let '(fp, r) := read_fraction r in
     if String.eqb ip "" && String.eqb fp "" then NaN
     else
       let mant :=
         (inject_Z (decimal_value ip 0) +
          inject_Z (decimal_value fp 0) / inject_Z (10 ^ Z.of_nat (String.length fp)))%Q in
       let v := (mant * Qpower 10 (read_exponent r))%Q in
       Num (if neg then (- v)%Q else v))
    = Num (if neg then (- ((inject_Z i + inject_Z (d1 * 10 + d2) / inject_Z 100) * 1))%Q
           else ((inject_Z i + inject_Z (d1 * 10 + d2) / inject_Z 100) * 1)%Q)) as Core.
  { intros neg. unfold body. change ("." +:+ ?x) with (String "."%char x).
    rewrite span_digits_stop by done.
    cbn [read_fraction]. rewrite Ascii.eqb_refl.
    rewrite span_digits_all by (cbn [Spec.allDigits]; by rewrite D1, D2).
    assert (String.eqb (natToString i) "" = false) as -> by by apply String.eqb_neq.
    cbn [andb]. cbv zeta. rewrite V. cbn [decimal_value String.length read_exponent].
    rewrite V1, V2. replace ((0 * 10 + d1) * 10 + d2) with (d1 * 10 + d2) by lia.
    done. }
  exists (if negative then (- ((inject_Z i + inject_Z (d1 * 10 + d2) / inject_Z 100) * 1))%Q
          else ((inject_Z i + inject_Z (d1 * 10 + d2) / inject_Z 100) * 1)%Q).
  split.
  - unfold parseFloat. destruct negative.
    + change ("-" +:+ body) with (String "-"%char body).
      cbn [trimStart]. replace (is_space "-") with false by reflexivity.
      cbn [read_sign]. rewrite Ascii.eqb_refl.
      assert (startsWith body "Infinity" = false) as ->.
      { unfold body. rewrite Es. rewrite app_String. cbn [startsWith]. by rewrite In. }
      exact (Core true).
    + change ("" +:+ body) with body.
      assert (trimStart body = body) as ->.
      { unfold body. rewrite Es. rewrite app_String. cbn [trimStart]. by rewrite Sp. }
      assert (read_sign body = (false, body)) as ->.
      { unfold body. rewrite Es. rewrite app_String. cbn [read_sign]. by rewrite Mi, Pl. }
      assert (startsWith body "Infinity" = false) as ->.
      { unfold body. rewrite Es. rewrite app_String. cbn [startsWith]. by rewrite In. }
      exact (Core false).
  - replace (i * 100 + d1 * 10 + d2) with (i * 100 + (d1 * 10 + d2)) by lia.
    rewrite !inject_Z_plus, !inject_Z_mult.
    change (inject_Z 100) with 100%Q. change (inject_Z 10) with 10%Q.
    destruct negative; cbv beta iota; field.
Qed.

(** [parseFloat(x.toFixed(2))] is [x] rounded to two places, ties away
    from zero. *)
Lemma parseFloat_toFixed2 (x : Q) :
  exists q, parseFloat (toFixed2 (Num x)) = Num q
    /\ (q == (if Qle_bool 0 x then 1 else -1)
             * inject_Z (Qfloor (Qabs x * 100 + (1 # 2))) / 100)%Q.
Proof.
  set (n := Qfloor (Qabs x * 100 + (1 # 2))).
  assert (0 <= n) as Hn.
  { apply (Z.le_trans _ (Qfloor 0)); [done|]. apply Qfloor_resp_le.
    pose proof (Qabs_nonneg x). lra. }
  destruct (parseFloat_unsigned (n / 100) (n mod 100 / 10) (n mod 10)
              (match (x ?= 0)%Q with Lt => true | _ => false end)) as (q & E & V).
  { apply Z.div_pos; lia. }
  { pose proof (Z.mod_pos_bound n 100). split; [apply Z.div_pos; lia|].
    apply Z.div_lt_upper_bound; lia. }
  { apply Z.mod_pos_bound; lia. }
  exists q. split.
  - unfold toFixed2. fold n. exact E.
  - rewrite V.
    assert (n / 100 * 100 + n mod 100 / 10 * 10 + n mod 10 = n) as ->.
    { pose proof (Z.div_mod n 100). pose proof (Z.div_mod (n mod 100) 10).
      assert (n mod 100 mod 10 = n mod 10).
      { apply Z.mod_mod_divide. exists 10. lia. }
      lia. }
    destruct (Qle_bool 0 x) eqn:L.
    + apply Qle_bool_iff in L. destruct (x ?= 0)%Q eqn:C; try reflexivity.
      apply Qlt_alt in C. lra.
    + assert (x < 0)%Q as C.
      { apply Qnot_le_lt. rewrite <- Qle_bool_iff. congruence. }
      destruct (x ?= 0)%Q eqn:C'; try reflexivity.
      * apply Qeq_alt in C'. lra.
      * apply Qgt_alt in C'. lra.
Qed.


Lemma toUpperCase_length s : String.length (toUpperCase s) = String.length s.
Proof. induction s; simpl; auto. Qed.

End PrimitiveFacts.


(** ** Surrogate codes and reporting periods *)

Section CodeFacts.
Import JS Codes.

Lemma hashStep_wrap h c : hashStep h c = toInt32 (31 * h + charCode c).
Proof.
  unfold hashStep, and32. cbv zeta. rewrite Z.land_diag, toInt32_idem.
  unfold shl32. rewrite Z.shiftl_mul_pow2 by lia.
  destruct (toInt32_diff (toInt32 h * 2 ^ 5)) as [k1 H1].
  destruct (toInt32_diff h) as [k2 H2].
  apply (toInt32_congr _ _ (k1 + 32 * k2)).
  change (2 ^ 5) with 32 in *. set (M := 2 ^ 32) in *. clearbody M. lia.
Qed.

Lemma fold_left_cons {A B} (f : A -> B -> A) (x : B) (l : list B) (a : A) :
  fold_left f (x :: l) a = fold_left f l (f a x).
Proof. reflexivity. Qed.

Lemma hashCode_fold l h0 h1 :
  toInt32 h0 = toInt32 h1 ->
  toInt32 (fold_left hashStep l h0)
  = toInt32 (fold_left (fun h c => 31 * h + charCode c) l h1).
Proof.
  revert h0 h1. induction l as [|c l IH]; intros h0 h1 H; [exact H|].
  rewrite !fold_left_cons. apply IH. rewrite hashStep_wrap, toInt32_idem.
  destruct (toInt32_diff h0) as [a A]. destruct (toInt32_diff h1) as [b B].
  apply (toInt32_congr _ _ (31 * (b - a))).
  set (M := 2 ^ 32) in *. clearbody M. lia.
Qed.

Lemma fold_hashStep_int32 l h :
  toInt32 h = h -> toInt32 (fold_left hashStep l h) = fold_left hashStep l h.
Proof.
  revert h. induction l as [|c l IH]; intros h Hh; [exact Hh|].
  rewrite !fold_left_cons. apply IH. rewrite hashStep_wrap. apply toInt32_idem.
Qed.

(** The loop over 32-bit integers computes the polynomial hash wrapped to
    32 bits. *)
Lemma hashCode_poly31 name : hashCode name = toInt32 (Spec.poly31 name).
Proof.
  unfold hashCode, Spec.poly31.
  rewrite <- (fold_hashStep_int32 _ 0) by reflexivity.
  by apply hashCode_fold.
Qed.


Lemma pad3_table :
  forallb (fun h => String.eqb (padStart (natToString h) 3 "0") (Spec.threeDigits h))
          (map Z.of_nat (seq 0 1000)) = true.
Proof. vm_compute. reflexivity. Qed.

Lemma padStart_threeDigits h :
  0 <= h < 1000 -> padStart (natToString h) 3 "0" = Spec.threeDigits h.
Proof.
  intros Hh. apply String.eqb_eq.
  pose proof pad3_table as T. rewrite forallb_forall in T.
  apply (T h). apply in_map_iff. exists (Z.to_nat h). split; [lia|].
  apply in_seq. lia.
Qed.







End CodeFacts.

(** ** Derived metrics *)

Section MetricFacts.
Import JS Metrics.

Lemma div_Num x y : ~ (y == 0)%Q -> div (Num x) (Num y) = Num (x / y).
Proof.
  intros H. unfold div. destruct (y ?= 0)%Q eqn:E; try done.
  by apply Qeq_alt in E.
Qed.

Lemma lt_Num x y : lt (Num x) (Num y) = true <-> (x < y)%Q.
Proof.
  unfold lt. rewrite Qlt_alt. destruct (x ?= y)%Q; split; congruence.
Qed.

Lemma lt_Num_false x y : lt (Num x) (Num y) = false <-> (y <= x)%Q.
Proof.
  rewrite <- not_true_iff_false, lt_Num.
  split; [apply Qnot_lt_le | apply Qle_not_lt].
Qed.

Lemma min_Num x y :
  exists m, min (Num x) (Num y) = Num m /\ (m == Spec.qmin x y)%Q.
Proof.
  unfold min, Spec.qmin. destruct (lt (Num y) (Num x)) eqn:E.
  - apply lt_Num in E. exists y. split; [done|].
    destruct (Qle_bool x y) eqn:L; [|reflexivity].
    apply Qle_bool_iff in L. lra.
  - apply lt_Num_false in E. exists x. split; [done|].
    apply Qle_bool_iff in E. by rewrite E.
Qed.



(** The score of a record of numbers, before any assumption on their
    signs: the completion contribution counts when the total is positive. *)
Lemma score_of_numbers (d : performance) (days payment women completed ongoing : Q) :
  averageDaysEmployment d = Num days ->
  paymentWithin15Days d = Num payment ->
  womenPersondays d = Num women ->
  completedWorks d = Num completed ->
  ongoingWorks d = Num ongoing ->
  exists s : Q,
    calculatePerformanceScore d = of_Z (Qfloor (s + (1 # 2)))
    /\ (s == Spec.qmin (days / 100 * 30) 30 + payment / 100 * 25
             + Spec.qmin (women / 50 * 20) 20
             + (if Qle_bool (completed + ongoing) 0 then 0
                else completed / (completed + ongoing) * 25))%Q.
Proof.
  intros Ed Ep Ew Ec Eo.
  assert (~ (inject_Z 100 == 0)%Q) as N100 by (intros H; discriminate H).
  assert (~ (inject_Z 50 == 0)%Q) as N50 by (intros H; discriminate H).
  unfold calculatePerformanceScore. rewrite Ed, Ep, Ew, Ec, Eo.
  unfold of_Z. rewrite !div_Num by done. cbn [mul add zero].
  destruct (min_Num (days / inject_Z 100 * inject_Z 30) (inject_Z 30)) as (m1 & -> & E1).
  destruct (min_Num (women / inject_Z 50 * inject_Z 20) (inject_Z 20)) as (m2 & -> & E2).
  cbn [add]. unfold gt.
  change (inject_Z 100) with 100%Q in *. change (inject_Z 30) with 30%Q in *.
  change (inject_Z 25) with 25%Q in *. change (inject_Z 50) with 50%Q in *.
  change (inject_Z 20) with 20%Q in *.
  destruct (lt zero (Num (completed + ongoing))) eqn:T; unfold zero in T.
  - apply lt_Num in T. rewrite div_Num by lra. cbn [mul add round]. unfold of_Z.
    eexists. split; [reflexivity|].
    destruct (Qle_bool (completed + ongoing) 0) eqn:Z0;
      [apply Qle_bool_iff in Z0; lra|].
    rewrite E1, E2. ring.
  - apply lt_Num_false in T. cbn [round]. unfold of_Z.
    eexists. split; [reflexivity|].
    apply Qle_bool_iff in T. rewrite T. rewrite E1, E2. ring.
Qed.




(** *** The ratio helpers *)






End MetricFacts.

(** ** Comparison ranking *)

Section RankingFacts.
Import JS Metrics.

Local Abbreviation finite := (fun v : number => is_finite v = true).

Lemma finite_Num v : is_finite v = true -> exists q, v = Num q.
Proof. destruct v; try discriminate; eauto. Qed.

(** The comparator [(a, b) => b - a] puts [x] after [y] exactly when [x]
    is smaller. *)
Lemma descending_cmp x y :
  is_finite x = true -> is_finite y = true ->
  gt (sub y x) zero = lt x y.
Proof.
  intros [p ->]%finite_Num [q ->]%finite_Num.
  unfold gt, sub, zero. cbn [neg add].
  destruct (lt (Num p) (Num q)) eqn:E.
  - apply lt_Num in E. apply lt_Num. lra.
  - apply lt_Num_false in E. apply lt_Num_false. lra.
Qed.

Lemma sort_insert_perm cmp x l : sort_insert cmp x l ≡ₚ x :: l.
Proof.
  induction l as [|y l IH]; cbn [sort_insert]; [done|].
  destruct (gt (cmp x y) zero); [|done].
  rewrite IH. apply Permutation_swap.
Qed.

Lemma sort_perm cmp l : sort cmp l ≡ₚ l.
Proof.
  induction l as [|x l IH]; [done|].
  unfold sort in *. cbn [fold_right]. by rewrite sort_insert_perm, IH.
Qed.

Lemma sort_insert_finite cmp x l :
  is_finite x = true -> Forall finite l -> Forall finite (sort_insert cmp x l).
Proof. intros Hx Hl. rewrite sort_insert_perm. by constructor. Qed.

Lemma lt_false_trans a b c :
  is_finite a = true -> is_finite b = true -> is_finite c = true ->
  lt a b = false -> lt b c = false -> lt a c = false.
Proof.
  intros [p ->]%finite_Num [q ->]%finite_Num [r ->]%finite_Num.
  rewrite !lt_Num_false. lra.
Qed.

Lemma sort_insert_sorted x l :
  is_finite x = true -> Forall finite l -> Spec.sortedDescending l ->
  Spec.sortedDescending (sort_insert (fun a b => sub b a) x l).
Proof.
  unfold Spec.sortedDescending. intros Hx Hl Hs.
  induction Hs as [|y l Hs IH Hy]; cbn [sort_insert].
  - repeat constructor.
  - apply Forall_cons in Hl as [Fy Fl]. rewrite descending_cmp by done.
    destruct (lt x y) eqn:E.
    + constructor; [by apply IH|].
      rewrite sort_insert_perm. constructor; [|done].
      destruct (finite_Num _ Hx) as [p ->], (finite_Num _ Fy) as [q ->].
      apply lt_Num in E. apply lt_Num_false. lra.
    + constructor; [by constructor|]. constructor; [done|].
      rewrite Forall_forall in Hy, Fl |- *. intros z Hz.
      apply (lt_false_trans x y z); auto.
Qed.

Lemma sort_sorted l :
  Forall finite l -> Spec.sortedDescending (sort (fun a b => sub b a) l).
Proof.
  induction 1 as [|x l Hx Hl IH]; [constructor|].
  unfold sort in *. cbn [fold_right]. apply sort_insert_sorted; [done| |done].
  fold (sort (fun a b => sub b a) l). by rewrite sort_perm.
Qed.

Lemma greaterCount_nonneg v l : 0 <= Spec.greaterCount v l.
Proof. induction l as [|w l IH]; cbn [Spec.greaterCount]; [done|]. destruct (lt v w); lia. Qed.

Lemma greaterCount_perm v l l' :
  l ≡ₚ l' -> Spec.greaterCount v l = Spec.greaterCount v l'.
Proof.
  induction 1; cbn [Spec.greaterCount]; lia.
Qed.

Lemma greaterCount_none v l :
  Forall (fun w => lt v w = false) l -> Spec.greaterCount v l = 0.
Proof.
  induction 1 as [|w l Hw _ IH]; cbn [Spec.greaterCount]; [done|].
  rewrite Hw. lia.
Qed.

(** In a descending list, the first occurrence of a value sits after
    exactly the values larger than it. *)
Lemma indexOf_sorted_greaterCount s v :
  Forall finite s -> is_finite v = true -> Spec.sortedDescending s ->
  Exists (fun y => strict_eq y v = true) s ->
  indexOf s v = Spec.greaterCount v s.
Proof.
  unfold Spec.sortedDescending. intros Fs Fv Hs.
  induction Hs as [|y s Hs IH Hy]; intros Hex; [by apply Exists_nil in Hex|].
  apply Forall_cons in Fs as [Fy Fs].
  destruct (finite_Num _ Fv) as [q Eq]. destruct (finite_Num _ Fy) as [p Ep].
  cbn [indexOf Spec.greaterCount]. destruct (strict_eq y v) eqn:E.
  - rewrite greaterCount_none.
    + subst. cbn [strict_eq] in E. apply Qeq_bool_iff in E.
      assert (lt (Num q) (Num p) = false) as -> by (apply lt_Num_false; lra). done.
    + rewrite Forall_forall in Hy, Fs |- *. intros z Hz.
      destruct (finite_Num _ (Fs z Hz)) as [r ->]. specialize (Hy _ Hz).
      subst. cbn [strict_eq] in E. apply Qeq_bool_iff in E.
      apply lt_Num_false in Hy. apply lt_Num_false. lra.
  - apply Exists_cons in Hex as [Hex|Hex]; [congruence|].
    rewrite IH by done.
    pose proof (greaterCount_nonneg v s) as Hn.
    destruct (Spec.greaterCount v s <? 0) eqn:L; [apply Z.ltb_lt in L; lia|].
    assert (lt v y = true) as ->; [|lia].
    apply Exists_exists in Hex as (z & Hz & Ez).
    rewrite Forall_forall in Hy, Fs. specialize (Hy _ Hz).
    destruct (finite_Num _ (Fs z Hz)) as [r ->]. subst.
    cbn [strict_eq] in E, Ez. apply Qeq_bool_iff in Ez. apply Qeq_bool_neq in E.
    apply lt_Num_false in Hy. apply lt_Num. 
    destruct (Qlt_le_dec q p) as [|Hle]; [done|]. exfalso. apply E. lra.
Qed.

Lemma strict_eq_refl v : is_finite v = true -> strict_eq v v = true.
Proof. intros [q ->]%finite_Num. cbn [strict_eq]. by apply Qeq_bool_iff. Qed.

(** The rank given to each value of a column of numbers. *)
Lemma rank_values_spec (values : list number) :
  Forall finite values ->
  length (rank_values values) = length values
  /\ forall (i : nat) (v : number),
       values !! i = Some v ->
       rank_values values !! i = Some (Spec.greaterCount v values + 1)
       /\ forall sorted : list number,
            sorted ≡ₚ values -> Spec.sortedDescending sorted ->
            rank_values values !! i = Some (indexOf sorted v + 1).
Proof.
  intros Fv. unfold rank_values. split; [by rewrite length_map|].
  intros i v Hi.
  assert (is_finite v = true) as Hv.
  { rewrite Forall_forall in Fv. apply Fv. by eapply list_elem_of_lookup_2. }
  assert (forall sorted, sorted ≡ₚ values -> Spec.sortedDescending sorted ->
                         indexOf sorted v = Spec.greaterCount v values) as G.
  { intros sorted Hp Hs. rewrite <- (greaterCount_perm v _ _ Hp).
    apply indexOf_sorted_greaterCount; [by rewrite Hp|done|done|].
    apply Exists_exists. exists v. split; [|by apply strict_eq_refl].
    rewrite Hp. by eapply list_elem_of_lookup_2. }
  rewrite list_lookup_fmap, Hi. cbn [fmap option_fmap option_map].
  split.
  - f_equal. f_equal. apply G; [apply sort_perm | by apply sort_sorted].
  - intros sorted Hp Hs. f_equal. f_equal.
    rewrite (G sorted) by done. apply G; [apply sort_perm | by apply sort_sorted].
Qed.

Lemma score_finite d :
  Spec.comparable d = true -> is_finite (calculatePerformanceScore d) = true.
Proof.
  unfold Spec.comparable. rewrite !andb_true_iff.
  intros [[[[[[Hd _] _] Hw] Hp] Hc] Ho].
  destruct (finite_Num _ Hd) as [days Ed], (finite_Num _ Hw) as [women Ew],
    (finite_Num _ Hp) as [pay Ep], (finite_Num _ Hc) as [c Ec],
    (finite_Num _ Ho) as [o Eo].
  destruct (score_of_numbers d _ _ _ _ _ Ed Ep Ew Ec Eo) as (s & -> & _). done.
Qed.

(** C9. Over [n] districts with numeric metrics, every metric of the
    comparison has a ranking of exactly [n] entries, in input order; the
    entry of a value is one plus the index of its first occurrence in the
    values sorted descending (whichever way ties were ordered), that is one
    plus the number of strictly larger values: a largest value has rank 1
    and equal values have equal ranks. *)
Theorem generateComparison_rankings (ds : list performance) :
  Forall (fun d => Spec.comparable d = true) ds ->
  map fst (rankings (generateComparison ds)) = map fst (metrics (generateComparison ds))
  /\ length (districts (generateComparison ds)) = length ds
  /\ forall (metric : string) (ranks : list Z),
       (metric, ranks) ∈ rankings (generateComparison ds) ->
       exists values : list number,
         (metric, values) ∈ metrics (generateComparison ds)
         /\ length values = length ds
         /\ length ranks = length ds
         /\ (forall (i : nat) (v : number),
               values !! i = Some v ->
               ranks !! i = Some (Spec.greaterCount v values + 1)
               /\ (forall sorted : list number,
                     sorted ≡ₚ values -> Spec.sortedDescending sorted ->
                     ranks !! i = Some (indexOf sorted v + 1))
               /\ (Forall (fun w => lt v w = false) values -> ranks !! i = Some 1)
               /\ (forall (j : nat) (w : number),
                     values !! j = Some w -> strict_eq v w = true ->
                     ranks !! j = ranks !! i)).
Proof.
  intros Hds.
  assert (forall metric values,
            (metric, values) ∈ metrics (generateComparison ds) ->
            Forall finite values /\ length values = length ds) as Cols.
  { intros metric values Hin. cbn [generateComparison metrics comparison_metrics] in Hin.
    assert (forall f : performance -> number,
              (forall d, Spec.comparable d = true -> is_finite (f d) = true) ->
              Forall finite (map f ds)) as Col.
    { intros f Hf. apply Forall_map. eapply Forall_impl; [exact Hds|]. exact Hf. }
    assert (forall d, Spec.comparable d = true ->
              is_finite (averageDaysEmployment d) = true
              /\ is_finite (averageWageRate d) = true
              /\ is_finite (totalHouseholdsWorked d) = true
              /\ is_finite (womenPersondays d) = true
              /\ is_finite (paymentWithin15Days d) = true
              /\ is_finite (completedWorks d) = true) as Fields.
    { intros d. unfold Spec.comparable. rewrite !andb_true_iff. tauto. }
    repeat (apply elem_of_cons in Hin as [[= _ ->]|Hin];
            [split; [apply Col; intros d Hd; try (by apply score_finite);
                     by destruct (Fields d Hd) as (? & ? & ? & ? & ? & ?)
                    | by rewrite length_map]|]).
    by apply elem_of_nil in Hin. }
  split; [|split].
  - cbn [generateComparison rankings metrics]. rewrite map_map.
    apply map_ext. by intros [m vs].
  - cbn [generateComparison districts]. by rewrite length_map.
  - intros metric ranks Hin.
    cbn [generateComparison rankings] in Hin.
    apply list_elem_of_fmap in Hin as ([m values] & [= -> ->] & Hin).
    change (comparison_metrics ds) with (metrics (generateComparison ds)) in Hin.
    destruct (Cols _ _ Hin) as [Fv Lv].
    destruct (rank_values_spec values Fv) as [Lr Rk].
    exists values. repeat split; [done|done|lia|..].
    + by apply Rk.
    + by apply Rk.
    + intros Hmax. destruct (Rk i v H) as [-> _].
      by rewrite greaterCount_none.
    + intros j w Hj Heq. destruct (Rk i v H) as [-> _], (Rk j w Hj) as [-> _].
      do 2 f_equal.
      assert (is_finite v = true) as Hv.
      { rewrite Forall_forall in Fv. apply Fv. by eapply list_elem_of_lookup_2. }
      assert (is_finite w = true) as Hw.
      { rewrite Forall_forall in Fv. apply Fv. by eapply list_elem_of_lookup_2. }
      destruct (finite_Num _ Hv) as [p ->], (finite_Num _ Hw) as [q ->].
      cbn [strict_eq] in Heq. apply Qeq_bool_iff in Heq.
      clear -Heq Fv. induction Fv as [|z l Fz _ IH]; cbn [Spec.greaterCount]; [done|].
      rewrite IH. f_equal. destruct (finite_Num _ Fz) as [r ->].
      destruct (lt (Num q) (Num r)) eqn:A, (lt (Num p) (Num r)) eqn:B; try done.
      * apply lt_Num in A. apply lt_Num_false in B. lra.
      * apply lt_Num in B. apply lt_Num_false in A. lra.
Qed.

Lemma generateComparison_rankings_witness :
  Forall (fun d => Spec.comparable d = true)
    [Examples.scored 45 90 30 7 3; Examples.scored 60 80 30 1 1;
     Examples.scored 45 70 10 2 2]
  /\ ("averageDaysEmployment", [2; 1; 2])
     ∈ rankings (generateComparison
          [Examples.scored 45 90 30 7 3; Examples.scored 60 80 30 1 1;
           Examples.scored 45 70 10 2 2])
  /\ length (districts (generateComparison
          [Examples.scored 45 90 30 7 3; Examples.scored 60 80 30 1 1;
           Examples.scored 45 70 10 2 2])) = 3%nat.
Proof.
  assert (Forall (fun d => Spec.comparable d = true)
    [Examples.scored 45 90 30 7 3; Examples.scored 60 80 30 1 1;
     Examples.scored 45 70 10 2 2]) as H by (repeat constructor).
  split; [exact H|]. split; [apply list_elem_of_here|].
  exact (proj1 (proj2 (generateComparison_rankings _ H))).
Defined.

End RankingFacts.

(** ** The store *)

Section UpsertFacts.
Context `{Countable K} {R : Type} (key : R -> K).

(** Rows written one after the other under their keys. *)
Local Abbreviation upsertAll := (foldl (fun (m : gmap K R) r => <[key r := r]> m)).

(** The last row of [rows] written under [k]. *)
Local Abbreviation lastFor k rows := (last (filter (fun r => key r = k) rows)).

Lemma upsertAll_lookup (m : gmap K R) (rows : list R) (k : K) :
  upsertAll m rows !! k
  = match lastFor k rows with
    | Some r => Some r
    | None => m !! k
    end.
Proof.
  induction rows as [|r rows IH] using rev_ind; [done|].
  rewrite foldl_snoc, filter_app, lookup_insert.
  destruct (decide (key r = k)) as [E|N].
  - rewrite filter_cons_True by done. by rewrite filter_nil, last_snoc.
  - rewrite filter_cons_False by done. rewrite filter_nil, app_nil_r. done.
Qed.


Lemma upsertAll_keeps_keys (m : gmap K R) (rows : list R) (k : K) :
  is_Some (m !! k) -> is_Some (upsertAll m rows !! k).
Proof. intros Hk. rewrite upsertAll_lookup. by destruct (lastFor k rows). Qed.


(** A row of the result is an old row or one of the rows written. *)
Lemma upsertAll_origin (m : gmap K R) (rows : list R) (k : K) (r : R) :
  upsertAll m rows !! k = Some r -> m !! k = Some r \/ (r ∈ rows /\ key r = k).
Proof.
  rewrite upsertAll_lookup. destruct (lastFor k rows) as [r'|] eqn:E; [|auto].
  intros [= ->]. right. apply last_Some_elem_of in E.
  by apply list_elem_of_filter in E as [? ?].
Qed.

End UpsertFacts.

Section PerformanceUpsertFacts.
Import Storage.
Local Open Scope list_scope.

Local Abbreviation upsert := DistrictPerformance_upsert.
Local Abbreviation lastFor k rows := (last (filter (fun a => key_of a = k) rows)).

Lemma upsert_snoc acc rows a :
  foldl upsert acc (rows ++ [a]) = upsert (foldl upsert acc rows) a.
Proof. apply foldl_snoc. Qed.

(** One upsert keeps every row's id, and stores the attributes given. *)
Lemma upsert_step m n out a m' n' out' :
  upsert (m, n, out) a = (m', n', out') ->
  (forall k row, m !! k = Some row ->
     exists row', m' !! k = Some row'
                  /\ DistrictPerformance.id row' = DistrictPerformance.id row)
  /\ (exists i, m' = <[key_of a := {| DistrictPerformance.id := i;
                                       DistrictPerformance.attributes := a |}]> m
                /\ out' = out ++ [{| DistrictPerformance.id := i;
                                     DistrictPerformance.attributes := a |}])
  /\ (is_Some (m !! key_of a) -> n' = n).
Proof.
  unfold DistrictPerformance_upsert. destruct (m !! key_of a) as [old|] eqn:E;
    intros [= <- <- <-].
  - split; [|split; [eauto|done]].
    intros k row Hk. destruct (decide (key_of a = k)) as [<-|N].
    + rewrite lookup_insert_eq. eexists. split; [done|].
      rewrite E in Hk. by injection Hk as <-.
    + rewrite lookup_insert_ne by done. eauto.
  - split; [|split; [eauto|by intros [? ?]]].
    intros k row Hk. destruct (decide (key_of a = k)) as [<-|N]; [congruence|].
    rewrite lookup_insert_ne by done. eauto.
Qed.

Lemma upsert_fold_ids rows m n out m' n' out' :
  foldl upsert (m, n, out) rows = (m', n', out') ->
  forall k row, m !! k = Some row ->
    exists row', m' !! k = Some row'
                 /\ DistrictPerformance.id row' = DistrictPerformance.id row.
Proof.
  revert m' n' out'. induction rows as [|a rows IH] using rev_ind;
    intros m' n' out' Hf k row Hk.
  - cbn in Hf. injection Hf as <- <- <-. eauto.
  - rewrite upsert_snoc in Hf.
    destruct (foldl upsert (m, n, out) rows) as [[m1 n1] out1] eqn:E1.
    destruct (IH _ _ _ eq_refl k row Hk) as (row1 & H1 & I1).
    destruct (upsert_step _ _ _ _ _ _ _ Hf) as (Keep & _ & _).
    destruct (Keep _ _ H1) as (row' & H' & I'). exists row'. split; [done|congruence].
Qed.

(** What a bulk upsert leaves under each key. *)
Lemma upsert_fold_lookup rows m n out m' n' out' k :
  foldl upsert (m, n, out) rows = (m', n', out') ->
  match lastFor k rows with
  | Some a => exists i, m' !! k = Some {| DistrictPerformance.id := i;
                                          DistrictPerformance.attributes := a |}
  | None => m' !! k = m !! k
  end.
Proof.
  revert m' n' out'. induction rows as [|a rows IH] using rev_ind;
    intros m' n' out' Hf.
  - cbn in Hf. by injection Hf as <- <- <-.
  - rewrite upsert_snoc in Hf.
    destruct (foldl upsert (m, n, out) rows) as [[m1 n1] out1] eqn:E1.
    specialize (IH _ _ _ eq_refl).
    destruct (upsert_step _ _ _ _ _ _ _ Hf) as (_ & (i & -> & _) & _).
    rewrite filter_app. destruct (decide (key_of a = k)) as [<-|N].
    + rewrite filter_cons_True by done. rewrite filter_nil, last_snoc.
      exists i. apply lookup_insert_eq.
    + rewrite filter_cons_False by done. rewrite filter_nil, app_nil_r.
      rewrite lookup_insert_ne by done. exact IH.
Qed.

Lemma upsert_fold_written rows m n out m' n' out' a :
  foldl upsert (m, n, out) rows = (m', n', out') ->
  a ∈ rows -> is_Some (m' !! key_of a).
Proof.
  intros Hf Ha. pose proof (upsert_fold_lookup _ _ _ _ _ _ _ (key_of a) Hf) as L.
  destruct (lastFor (key_of a) rows) eqn:E.
  - destruct L as [i ->]. done.
  - apply last_None in E.
    assert (a ∈ filter (fun a' => key_of a' = key_of a) rows) as Hin
      by by apply list_elem_of_filter.
    rewrite E in Hin. by apply elem_of_nil in Hin.
Qed.


(** The instances handed back carry the ids of the rows finally stored. *)
Lemma upsert_fold_out rows m n out m' n' out' :
  foldl upsert (m, n, out) rows = (m', n', out') ->
  out' = out ++ map (Spec.instanceOf m') rows.
Proof.
  revert m' n' out'. induction rows as [|a rows IH] using rev_ind;
    intros m' n' out' Hf.
  - cbn in Hf. injection Hf as <- <- <-. by rewrite app_nil_r.
  - rewrite upsert_snoc in Hf.
    destruct (foldl upsert (m, n, out) rows) as [[m1 n1] out1] eqn:E1.
    pose proof (IH _ _ _ eq_refl) as Eout.
    destruct (upsert_step _ _ _ _ _ _ _ Hf) as (Keep & (i & -> & ->) & _).
    rewrite Eout.
    rewrite map_app, app_assoc. f_equal.
    + f_equal. apply map_ext_in. intros b Hb%list_elem_of_In.
      destruct (upsert_fold_written _ _ _ _ _ _ _ b E1 Hb) as [row Hrow].
      destruct (Keep _ _ Hrow) as (row' & Hrow' & Hid).
      unfold Spec.instanceOf. rewrite Hrow, Hrow'. cbn. by rewrite Hid.
    + cbn. unfold Spec.instanceOf. by rewrite lookup_insert_eq.
Qed.


End PerformanceUpsertFacts.

(** ** The reconciliation engine *)

Section IngestFacts.
Import JS Codes Storage Ingest.
Local Open Scope list_scope.

(** *** The extended-metrics statement *)

Local Abbreviation insertIgnore := DistrictExtendedMetrics_insert_ignore.

Lemma insertIgnore_step perfs m n a m' n' :
  insertIgnore perfs (m, n) a = (m', n') ->
  (forall pid x, m !! pid = Some x -> m' !! pid = Some x)
  /\ (forall pid x, m' !! pid = Some x ->
        m !! pid = Some x
        \/ (pid = DistrictExtendedMetrics.performanceId a
            /\ DistrictExtendedMetrics.attributes x = a
            /\ has_performance perfs pid = true))
  /\ (is_Some (m' !! DistrictExtendedMetrics.performanceId a)
      \/ has_performance perfs (DistrictExtendedMetrics.performanceId a) = false)
  /\ (is_Some (m !! DistrictExtendedMetrics.performanceId a)
      \/ has_performance perfs (DistrictExtendedMetrics.performanceId a) = false ->
      m' = m /\ n' = n).
Proof.
  unfold DistrictExtendedMetrics_insert_ignore.
  destruct (m !! DistrictExtendedMetrics.performanceId a) as [old|] eqn:E.
  - intros [= <- <-]. rewrite E. repeat split; eauto.
  - destruct (has_performance perfs (DistrictExtendedMetrics.performanceId a)) eqn:P;
      intros [= <- <-].
    + repeat split.
      * intros pid x Hx. rewrite lookup_insert_ne; [done|congruence].
      * intros pid x. rewrite lookup_insert.
        case_decide as D; [|by left]. intros [= <-]. right. by subst.
      * left. by rewrite lookup_insert_eq.
      * by destruct H as [[? ?]|?].
      * by destruct H as [[? ?]|?].
    + rewrite E. repeat split; eauto.
Qed.

Lemma insertIgnore_fold perfs rows m n m' n' :
  foldl (insertIgnore perfs) (m, n) rows = (m', n') ->
  (forall pid x, m !! pid = Some x -> m' !! pid = Some x)
  /\ (forall pid x, m' !! pid = Some x ->
        m !! pid = Some x
        \/ (DistrictExtendedMetrics.performanceId (DistrictExtendedMetrics.attributes x) = pid
            /\ has_performance perfs pid = true))
  /\ (forall a, a ∈ rows ->
        is_Some (m' !! DistrictExtendedMetrics.performanceId a)
        \/ has_performance perfs (DistrictExtendedMetrics.performanceId a) = false).
Proof.
  revert m' n'. induction rows as [|a rows IH] using rev_ind; intros m' n' Hf.
  - cbn in Hf. injection Hf as <- <-. repeat split; eauto.
    intros a Ha. by apply elem_of_nil in Ha.
  - rewrite foldl_snoc in Hf.
    destruct (foldl (insertIgnore perfs) (m, n) rows) as [m1 n1] eqn:E1.
    destruct (IH _ _ eq_refl) as (Keep1 & Orig1 & Done1).
    destruct (insertIgnore_step _ _ _ _ _ _ Hf) as (Keep & Orig & Done & _).
    repeat split.
    + eauto.
    + intros pid x Hx. destruct (Orig _ _ Hx) as [Hold|(-> & Ha & Hp)]; [eauto|].
      right. by rewrite Ha.
    + intros b [Hb|Hb%list_elem_of_singleton]%elem_of_app; [|by subst].
      destruct (Done1 b Hb) as [[x Hx]|Hn]; [|by right]. left. eauto.
Qed.


(** *** What each statement does to the store *)

Lemma State_bulkCreate_inv rows s :
  exists s',
    State_bulkCreate rows s = inr (s', tt)
    /\ states s' = foldl (fun m r => <[State.stateCode r := r]> m) (states s) rows
    /\ districts s' = districts s
    /\ financialYears s' = financialYears s
    /\ performances s' = performances s
    /\ extendedMetrics s' = extendedMetrics s
    /\ nextPerformanceId s' = nextPerformanceId s
    /\ nextExtendedId s' = nextExtendedId s.
Proof. eexists. split; [reflexivity|]. by repeat split. Qed.

Lemma District_bulkCreate_inv rows s s' u :
  District_bulkCreate rows s = inr (s', u) ->
  Forall (fun r => is_Some (states s !! District.stateCode r)) rows
  /\ states s' = states s
  /\ districts s' = foldl (fun m r => <[District.districtCode r := r]> m) (districts s) rows
  /\ financialYears s' = financialYears s
  /\ performances s' = performances s
  /\ extendedMetrics s' = extendedMetrics s
  /\ nextPerformanceId s' = nextPerformanceId s
  /\ nextExtendedId s' = nextExtendedId s.
Proof.
  unfold District_bulkCreate.
  destruct (forallb _ rows) eqn:C; [|discriminate]. intros [= <- <-].
  repeat split. rewrite forallb_forall in C. apply Forall_forall.
  intros r Hr%list_elem_of_In. specialize (C r Hr).
  by apply bool_decide_eq_true in C.
Qed.

Lemma FinancialYear_bulkCreate_inv rows s s' u :
  FinancialYear_bulkCreate rows s = inr (s', u) ->
  exists rs,
    mapM FinancialYear_row rows = Some rs
    /\ states s' = states s
    /\ districts s' = districts s
    /\ financialYears s'
       = foldl (fun m r => <[FinancialYear.row_finYear r := r]> m) (financialYears s) rs
    /\ performances s' = performances s
    /\ extendedMetrics s' = extendedMetrics s
    /\ nextPerformanceId s' = nextPerformanceId s
    /\ nextExtendedId s' = nextExtendedId s.
Proof.
  unfold FinancialYear_bulkCreate.
  destruct (mapM FinancialYear_row rows) as [rs|]; [|discriminate].
  intros [= <- <-]. exists rs. by repeat split.
Qed.

Lemma first_error_None s rows :
  first_error s rows = None <->
  Forall (fun a => DistrictPerformance_check s a = None) rows.
Proof.
  induction rows as [|a rows IH]; cbn [first_error].
  - split; [constructor|done].
  - destruct (DistrictPerformance_check s a) eqn:C.
    + split; [done|]. intros H%Forall_cons. destruct H as [H _]. congruence.
    + rewrite IH. split; [by constructor|]. by intros [_ ?]%Forall_cons.
Qed.

Lemma DistrictPerformance_check_None s a :
  DistrictPerformance_check s a = None ->
  is_Some (DistrictPerformance.month a)
  /\ is_Some (districts s !! DistrictPerformance.districtCode a)
  /\ is_Some (financialYears s !! DistrictPerformance.finYear a).
Proof.
  unfold DistrictPerformance_check.
  destruct (DistrictPerformance.month a); [|discriminate].
  destruct (bool_decide (is_Some (districts s !! _))) eqn:D; [|discriminate].
  destruct (bool_decide (is_Some (financialYears s !! _))) eqn:F; [|discriminate].
  intros _. apply bool_decide_eq_true in D, F. eauto.
Qed.


Lemma DistrictPerformance_bulkCreate_inv rows s s' out :
  DistrictPerformance_bulkCreate rows s = inr (s', out) ->
  first_error s rows = None
  /\ foldl DistrictPerformance_upsert (performances s, nextPerformanceId s, []) rows
     = (performances s', nextPerformanceId s', out)
  /\ states s' = states s
  /\ districts s' = districts s
  /\ financialYears s' = financialYears s
  /\ extendedMetrics s' = extendedMetrics s
  /\ nextExtendedId s' = nextExtendedId s.
Proof.
  unfold DistrictPerformance_bulkCreate.
  destruct (first_error s rows); [discriminate|].
  destruct (foldl _ _ rows) as [[m n] o]. intros [= <- <-]. by repeat split.
Qed.

Lemma DistrictExtendedMetrics_bulkCreate_inv rows s :
  exists s',
    DistrictExtendedMetrics_bulkCreate rows s = inr (s', tt)
    /\ foldl (insertIgnore (performances s)) (extendedMetrics s, nextExtendedId s) rows
       = (extendedMetrics s', nextExtendedId s')
    /\ states s' = states s
    /\ districts s' = districts s
    /\ financialYears s' = financialYears s
    /\ performances s' = performances s
    /\ nextPerformanceId s' = nextPerformanceId s.
Proof.
  unfold DistrictExtendedMetrics_bulkCreate.
  destruct (foldl _ _ rows) as [m n]. eexists. split; [reflexivity|]. by repeat split.
Qed.


(** *** Running the steps *)

(** A bulk upsert that returns early on no rows: what it leaves of the
    transaction. *)
Lemma guarded_run {A} (table : Table) (f : Store -> StorageError + (Store * A))
    (n : nat) (d : A) (t : Transaction) :
  (n = 0%nat -> forall s, f s = inr (s, d)) ->
  (if (n =? 0)%nat then ret d else statement table f) t
  = match f (working t) with
    | inr (s', a) =>
        ({| working := s';
            statements := statements t ++ (if (n =? 0)%nat then [] else [table]) |},
         inr a)
    | inl e =>
        ({| working := working t; statements := statements t ++ [table] |}, inl e)
    end.
Proof.
  intros Hempty. destruct (n =? 0)%nat eqn:E.
  - apply Nat.eqb_eq in E. rewrite (Hempty E). unfold ret. rewrite app_nil_r.
    by destruct t.
  - unfold statement. by destruct (f (working t)) as [e|[s' a]].
Qed.

Lemma length_zero_nil {A} (l : list A) : length l = 0%nat -> l = [].
Proof. by destruct l. Qed.

Lemma bulkUpsertStates_run rows t :
  bulkUpsertStates rows t
  = match State_bulkCreate rows (working t) with
    | inr (s', a) =>
        ({| working := s';
            statements := statements t
                          ++ (if (length rows =? 0)%nat then [] else [States]) |},
         inr a)
    | inl e =>
        ({| working := working t; statements := statements t ++ [States] |}, inl e)
    end.
Proof.
  apply guarded_run. intros ->%length_zero_nil s. by destruct s.
Qed.

Lemma bulkUpsertDistricts_run rows t :
  bulkUpsertDistricts rows t
  = match District_bulkCreate rows (working t) with
    | inr (s', a) =>
        ({| working := s';
            statements := statements t
                          ++ (if (length rows =? 0)%nat then [] else [Districts]) |},
         inr a)
    | inl e =>
        ({| working := working t; statements := statements t ++ [Districts] |}, inl e)
    end.
Proof.
  apply guarded_run. intros ->%length_zero_nil s. by destruct s.
Qed.

Lemma bulkUpsertFinancialYears_run rows t :
  bulkUpsertFinancialYears rows t
  = match FinancialYear_bulkCreate rows (working t) with
    | inr (s', a) =>
        ({| working := s';
            statements := statements t
                          ++ (if (length rows =? 0)%nat then [] else [FinancialYears]) |},
         inr a)
    | inl e =>
        ({| working := working t; statements := statements t ++ [FinancialYears] |},
         inl e)
    end.
Proof.
  apply guarded_run. intros ->%length_zero_nil s. by destruct s.
Qed.

Lemma bulkUpsertPerformance_run rows t :
  bulkUpsertPerformance rows t
  = match DistrictPerformance_bulkCreate rows (working t) with
    | inr (s', a) =>
        ({| working := s';
            statements := statements t
                          ++ (if (length rows =? 0)%nat then [] else [Performances]) |},
         inr a)
    | inl e =>
        ({| working := working t; statements := statements t ++ [Performances] |},
         inl e)
    end.
Proof.
  apply guarded_run. intros ->%length_zero_nil s. by destruct s.
Qed.

Lemma bulkUpsertExtendedMetrics_run performances apiData t :
  bulkUpsertExtendedMetrics performances apiData t
  = match DistrictExtendedMetrics_bulkCreate
            (extendedMetricsRecords performances apiData) (working t) with
    | inr (s', a) =>
        ({| working := s';
            statements := statements t
                          ++ (if (length performances =? 0)%nat then []
                              else [ExtendedMetrics]) |},
         inr a)
    | inl e =>
        ({| working := working t; statements := statements t ++ [ExtendedMetrics] |},
         inl e)
    end.
Proof.
  unfold bulkUpsertExtendedMetrics.
  destruct (length performances =? 0)%nat eqn:E.
  - apply Nat.eqb_eq, length_zero_nil in E. subst. unfold ret. cbn.
    rewrite app_nil_r. by destruct t as [[] ?].
  - unfold statement.
    by destruct (DistrictExtendedMetrics_bulkCreate _ (working t)) as [e|[s' a]].
Qed.

(** The run of the five steps, case by case: the store each statement
    leaves, where the run stops, and the statements issued. *)
Lemma ingestSteps_cases (currentYear : Z) (apiData : list ApiRecord) (t : Transaction) :
  let mark (n : nat) (table : Table) := if (n =? 0)%nat then [] else [table] in
  let uniqueStates := extractUniqueStates apiData in
  let uniqueDistricts := extractUniqueDistricts apiData in
  let uniqueFinYears := extractUniqueFinYears currentYear apiData in
  let performanceRecords := preparePerformanceRecords apiData in
  exists s1,
    State_bulkCreate uniqueStates (working t) = inr (s1, tt)
    /\ match District_bulkCreate uniqueDistricts s1 with
       | inl e =>
           ingestSteps currentYear apiData t
           = ({| working := s1;
                 statements := (statements t ++ mark (length uniqueStates) States)
                               ++ [Districts] |}, inl e)
       | inr (s2, _) =>
           match FinancialYear_bulkCreate uniqueFinYears s2 with
           | inl e =>
               ingestSteps currentYear apiData t
               = ({| working := s2;
                     statements :=
                       ((statements t ++ mark (length uniqueStates) States)
                        ++ mark (length uniqueDistricts) Districts)
                       ++ [FinancialYears] |}, inl e)
           | inr (s3, _) =>
               match DistrictPerformance_bulkCreate performanceRecords s3 with
               | inl e =>
                   ingestSteps currentYear apiData t
                   = ({| working := s3;
                         statements :=
                           (((statements t ++ mark (length uniqueStates) States)
                             ++ mark (length uniqueDistricts) Districts)
                            ++ mark (length uniqueFinYears) FinancialYears)
                           ++ [Performances] |}, inl e)
               | inr (s4, inserted) =>
                   exists s5,
                     DistrictExtendedMetrics_bulkCreate
                       (extendedMetricsRecords inserted apiData) s4 = inr (s5, tt)
                     /\ ingestSteps currentYear apiData t
                        = ({| working := s5;
                              statements :=
                                ((((statements t ++ mark (length uniqueStates) States)
                                   ++ mark (length uniqueDistricts) Districts)
                                  ++ mark (length uniqueFinYears) FinancialYears)
                                 ++ mark (length performanceRecords) Performances)
                                ++ mark (length inserted) ExtendedMetrics |},
                           inr inserted)
               end
           end
       end.
Proof.
  intros mark uniqueStates uniqueDistricts uniqueFinYears performanceRecords.
  destruct (State_bulkCreate_inv uniqueStates (working t)) as (s1 & E1 & _).
  exists s1. split; [done|].
  unfold ingestSteps, bind. rewrite bulkUpsertStates_run.
  fold uniqueStates. rewrite E1. rewrite bulkUpsertDistricts_run.
  fold uniqueDistricts. cbn [working statements].
  destruct (District_bulkCreate uniqueDistricts s1) as [e|[s2 []]]; [done|].
  rewrite bulkUpsertFinancialYears_run. fold uniqueFinYears. cbn [working statements].
  destruct (FinancialYear_bulkCreate uniqueFinYears s2) as [e|[s3 []]]; [done|].
  rewrite bulkUpsertPerformance_run. fold performanceRecords. cbn [working statements].
  destruct (DistrictPerformance_bulkCreate performanceRecords s3) as [e|[s4 inserted]];
    [done|].
  rewrite bulkUpsertExtendedMetrics_run. cbn [working statements].
  destruct (DistrictExtendedMetrics_bulkCreate_inv
              (extendedMetricsRecords inserted apiData) s4) as (s5 & E5 & _).
  exists s5. split; [done|]. by rewrite E5.
Qed.

(** *** A second pass finds every statement already applied *)






(** The five statements of a successful run, and the run they make. *)
Lemma ingestSteps_success currentYear apiData t t' inserted :
  ingestSteps currentYear apiData t = (t', inr inserted) ->
  exists s1 s2 s3 s4,
    State_bulkCreate (extractUniqueStates apiData) (working t) = inr (s1, tt)
    /\ District_bulkCreate (extractUniqueDistricts apiData) s1 = inr (s2, tt)
    /\ FinancialYear_bulkCreate (extractUniqueFinYears currentYear apiData) s2
       = inr (s3, tt)
    /\ DistrictPerformance_bulkCreate (preparePerformanceRecords apiData) s3
       = inr (s4, inserted)
    /\ DistrictExtendedMetrics_bulkCreate (extendedMetricsRecords inserted apiData) s4
       = inr (working t', tt).
Proof.
  intros Hrun.
  destruct (ingestSteps_cases currentYear apiData t) as (s1 & E1 & Hcases).
  cbv zeta in Hcases.
  destruct (District_bulkCreate _ s1) as [e|[s2 []]] eqn:E2; [congruence|].
  destruct (FinancialYear_bulkCreate _ s2) as [e|[s3 []]] eqn:E3; [congruence|].
  destruct (DistrictPerformance_bulkCreate _ s3) as [e|[s4 ins]] eqn:E4; [congruence|].
  destruct Hcases as (s5 & E5 & Hrun'). rewrite Hrun in Hrun'.
  injection Hrun' as -> ->. by exists s1, s2, s3, s4.
Qed.




(** *** Order and atomicity *)

Lemma Map_has_nil {V} (k : string) : Map_has (@nil (string * V)) k = false.
Proof. reflexivity. Qed.

Lemma Map_set_nonempty {V} (m : list (string * V)) k v : Map_set m k v <> [].
Proof. destruct m as [|[k' v'] m]; cbn; [done|]. by destruct (String.eqb k' k). Qed.

(** The de-duplicating pass of the three [extractUnique...] functions
    yields something for a batch that is not empty. *)
Lemma dedup_nonempty {V} (k : ApiRecord -> string) (v : ApiRecord -> V)
    (apiData : list ApiRecord) :
  apiData <> [] ->
  Map_values
    (foldl (fun m record => if Map_has m (k record) then m
                            else Map_set m (k record) (v record)) [] apiData) <> [].
Proof.
  destruct apiData as [|r l _] using rev_ind; [done|]. intros _.
  rewrite foldl_snoc. unfold Map_values.
  set (m := foldl _ [] l). intros Hnil%fmap_nil_inv.
  destruct (Map_has m (k r)) eqn:E.
  - rewrite Hnil in E. discriminate E.
  - by apply Map_set_nonempty in Hnil.
Qed.

Lemma mark_nonempty {A} (l : list A) (table : Table) :
  l <> [] -> (if (length l =? 0)%nat then [] else [table]) = [table].
Proof. by destruct l. Qed.

Lemma bulkCreate_length rows s s' out :
  DistrictPerformance_bulkCreate rows s = inr (s', out) -> length out = length rows.
Proof.
  intros H. pose proof (DistrictPerformance_bulkCreate_inv _ _ _ _ H) as (_ & Ef & _).
  rewrite (upsert_fold_out _ _ _ _ _ _ _ Ef). cbn. by rewrite length_map.
Qed.

(** C3. The statements of [processAndStoreDataBulk] are issued in the order
    States, Districts, FinancialYears, PerformanceRecords, ExtendedMetrics
    inside its transaction (all five for a batch that is not empty and
    succeeds, a prefix of them when a step fails); when every step succeeds
    the working copy is committed, and when a step fails the error is
    thrown on and the store is exactly as before the call. *)
Theorem processAndStoreDataBulk_atomic (currentYear : Z) (apiData : list ApiRecord)
    (db : Store) :
  statements (fst (ingestSteps currentYear apiData (begin db)))
    `prefix_of` [States; Districts; FinancialYears; Performances; ExtendedMetrics]
  /\ (forall inserted,
        snd (ingestSteps currentYear apiData (begin db)) = inr inserted ->
        processAndStoreDataBulk currentYear apiData db
        = (working (fst (ingestSteps currentYear apiData (begin db))), Resolved inserted)
        /\ (apiData <> [] ->
            statements (fst (ingestSteps currentYear apiData (begin db)))
            = [States; Districts; FinancialYears; Performances; ExtendedMetrics]))
  /\ (forall e,
        snd (ingestSteps currentYear apiData (begin db)) = inl e ->
        processAndStoreDataBulk currentYear apiData db = (db, Thrown e))
  /\ (forall db' e,
        processAndStoreDataBulk currentYear apiData db = (db', Thrown e) -> db' = db).
Proof.
  assert (forall inserted,
            snd (ingestSteps currentYear apiData (begin db)) = inr inserted ->
            processAndStoreDataBulk currentYear apiData db
            = (working (fst (ingestSteps currentYear apiData (begin db))),
               Resolved inserted)) as Hok.
  { intros ins. unfold processAndStoreDataBulk.
    destruct (ingestSteps currentYear apiData (begin db)) as [t r]. cbn. by intros ->. }
  assert (forall e,
            snd (ingestSteps currentYear apiData (begin db)) = inl e ->
            processAndStoreDataBulk currentYear apiData db = (db, Thrown e)) as Hko.
  { intros e. unfold processAndStoreDataBulk.
    destruct (ingestSteps currentYear apiData (begin db)) as [t r]. cbn. by intros ->. }
  assert (forall db' e,
            processAndStoreDataBulk currentYear apiData db = (db', Thrown e) -> db' = db)
    as Hback.
  { intros db' e. unfold processAndStoreDataBulk.
    destruct (ingestSteps currentYear apiData (begin db)) as [t [e'|ins]];
      [|discriminate]. by intros [= <- _]. }
  destruct (decide (apiData = [])) as [->|Hne].
  { split; [by exists [States; Districts; FinancialYears; Performances; ExtendedMetrics]|].
    repeat split; auto. done. }
  assert (statements (fst (ingestSteps currentYear apiData (begin db)))
            `prefix_of` [States; Districts; FinancialYears; Performances; ExtendedMetrics]
          /\ (forall inserted,
                snd (ingestSteps currentYear apiData (begin db)) = inr inserted ->
                statements (fst (ingestSteps currentYear apiData (begin db)))
                = [States; Districts; FinancialYears; Performances; ExtendedMetrics]))
    as [Hpre Hall].
  { destruct (ingestSteps_cases currentYear apiData (begin db)) as (s1 & E1 & Hcases).
    cbv zeta in Hcases.
    assert (extractUniqueStates apiData <> []) as N1 by by apply dedup_nonempty.
    assert (extractUniqueDistricts apiData <> []) as N2 by by apply dedup_nonempty.
    assert (extractUniqueFinYears currentYear apiData <> []) as N3
      by by apply dedup_nonempty.
    assert (preparePerformanceRecords apiData <> []) as N4.
    { unfold preparePerformanceRecords. by intros ?%fmap_nil_inv. }
    rewrite !mark_nonempty in Hcases by done. cbn [begin statements app] in Hcases.
    destruct (District_bulkCreate _ s1) as [e|[s2 []]].
    { rewrite Hcases. cbn. split; [by exists [FinancialYears; Performances; ExtendedMetrics]|done]. }
    destruct (FinancialYear_bulkCreate _ s2) as [e|[s3 []]].
    { rewrite Hcases. cbn. split; [by exists [Performances; ExtendedMetrics]|done]. }
    destruct (DistrictPerformance_bulkCreate _ s3) as [e|[s4 ins]] eqn:E4.
    { rewrite Hcases. cbn. split; [by exists [ExtendedMetrics]|done]. }
    destruct Hcases as (s5 & E5 & ->). cbn.
    assert (ins <> []) as N5.
    { apply bulkCreate_length in E4. intros ->. cbn in E4.
      by destruct (preparePerformanceRecords apiData). }
    rewrite mark_nonempty by done. split; [by exists []|done]. }
  split; [done|]. split; [|split; [done|done]].
  intros ins Hins. split; [by apply Hok|]. intros _. by apply (Hall ins).
Qed.

Lemma processAndStoreDataBulk_atomic_witness :
  processAndStoreDataBulk 2026 Examples.batchWithoutMonth Storage.empty
  = (Storage.empty, Thrown (NotNullViolation Performances))
  /\ statements (fst (ingestSteps 2026 Examples.batch (begin Storage.empty)))
     = [States; Districts; FinancialYears; Performances; ExtendedMetrics].
Proof.
  destruct (processAndStoreDataBulk_atomic 2026 Examples.batchWithoutMonth Storage.empty)
    as (_ & _ & Hko & _).
  destruct (processAndStoreDataBulk_atomic 2026 Examples.batch Storage.empty)
    as (_ & Hok & _).
  split.
  - apply Hko. vm_compute. reflexivity.
  - eapply Hok; [vm_compute; reflexivity | discriminate].
Defined.

(** *** Referential integrity *)

Lemma has_performance_true (m : gmap natural_key DistrictPerformance.t) (pid : Z) :
  has_performance m pid = true <->
  exists k row, m !! k = Some row /\ DistrictPerformance.id row = pid.
Proof. unfold has_performance. by rewrite bool_decide_eq_true. Qed.

Lemma key_of_stored a :
  is_Some (DistrictPerformance.month a) ->
  key_of a = (DistrictPerformance.districtCode a, DistrictPerformance.finYear a,
              default "" (DistrictPerformance.month a)).
Proof. done. Qed.


(** The five statements of a successful run keep the integrity of the
    store. *)
Lemma statements_keep_integrity rowsS rowsD rowsF rowsP rowsE s s1 s2 s3 s4 s5 out :
  Spec.referentialIntegrity s ->
  State_bulkCreate rowsS s = inr (s1, tt) ->
  District_bulkCreate rowsD s1 = inr (s2, tt) ->
  FinancialYear_bulkCreate rowsF s2 = inr (s3, tt) ->
  DistrictPerformance_bulkCreate rowsP s3 = inr (s4, out) ->
  DistrictExtendedMetrics_bulkCreate rowsE s4 = inr (s5, tt) ->
  Spec.referentialIntegrity s5.
Proof.
  intros (RS & RD & RP & RE) E1 E2 E3 E4 E5.
  destruct (State_bulkCreate_inv rowsS s) as (s1' & E1' & I1).
  rewrite E1 in E1'. injection E1' as <-.
  pose proof (District_bulkCreate_inv _ _ _ _ E2) as (FK2 & I2).
  pose proof (FinancialYear_bulkCreate_inv _ _ _ _ E3) as (rs & Em & I3).
  pose proof (DistrictPerformance_bulkCreate_inv _ _ _ _ E4) as (Ee & Efold & I4).
  destruct (DistrictExtendedMetrics_bulkCreate_inv rowsE s4) as (s5' & E5' & Eext & I5).
  rewrite E5 in E5'. injection E5' as <-.
  destruct I1 as (A0 & A1 & A2 & A3 & A4 & A5 & A6).
  destruct I2 as (B1 & B0 & B2 & B3 & B4 & B5 & B6).
  destruct I3 as (C1 & C2 & C0 & C3 & C4 & C5 & C6).
  destruct I4 as (D1 & D2 & D3 & D4 & D5).
  destruct I5 as (F1 & F2 & F3 & F4 & F5).
  assert (forall k, is_Some (states s !! k) -> is_Some (states s5 !! k)) as KeepS.
  { intros k Hk. rewrite F1, D1, C1, B1, A0.
    by apply (upsertAll_keeps_keys State.stateCode). }
  assert (forall k, is_Some (districts s !! k) -> is_Some (districts s5 !! k)) as KeepD.
  { intros k Hk. rewrite F2, D2, C2, B0, A1.
    by apply (upsertAll_keeps_keys District.districtCode). }
  assert (forall k, is_Some (financialYears s !! k) -> is_Some (financialYears s5 !! k))
    as KeepF.
  { intros k Hk. rewrite F3, D3, C0, B2, A2.
    by apply (upsertAll_keeps_keys FinancialYear.row_finYear). }
  apply first_error_None in Ee. rewrite Forall_forall in Ee.
  split; [|split; [|split]].
  - intros k st. rewrite F1, D1, C1, B1, A0.
    intros [Hold|[_ Hk]]%(upsertAll_origin State.stateCode); [by apply RS|done].
  - intros k d H. rewrite F2, D2, C2, B0 in H.
    apply (upsertAll_origin District.districtCode) in H as [Hold|[Hin Hk]].
    + rewrite A1 in Hold. apply RD in Hold as [Hk Hst]. split; [done|by apply KeepS].
    + split; [done|]. rewrite Forall_forall in FK2. specialize (FK2 _ Hin).
      by rewrite F1, D1, C1, B1.
  - intros k p H. rewrite F4 in H.
    pose proof (upsert_fold_lookup _ _ _ _ _ _ _ k Efold) as L.
    destruct (last (filter (fun a => key_of a = k) rowsP)) as [a|] eqn:El.
    + destruct L as [i L]. rewrite L in H. injection H as <-. cbn.
      apply last_Some_elem_of, list_elem_of_filter in El as [Hk Hin].
      apply Ee, DistrictPerformance_check_None in Hin as (_ & Hd & Hf).
      split; [done|]. by rewrite F2, D2, F3, D3.
    + rewrite L, C3, B3, A3 in H. apply RP in H as (Hk & Hd & Hf).
      split; [done|]. split; [by apply KeepD | by apply KeepF].
  - intros pid x H.
    destruct (insertIgnore_fold _ _ _ _ _ _ Eext) as (_ & Orig & _).
    rewrite F4. apply Orig in H as [Hold|[Hk Hp]]; [|done].
    rewrite D4, C4, B4, A4 in Hold. apply RE in Hold as [Hk Hp].
    split; [done|].
    apply has_performance_true in Hp as (k & row & Hrow & Hid).
    rewrite <- A3, <- B3, <- C3 in Hrow.
    destruct (upsert_fold_ids _ _ _ _ _ _ _ Efold _ _ Hrow) as (row' & Hrow' & Hid').
    apply has_performance_true. exists k, row'. split; [done|congruence].
Qed.

Lemma empty_integrity : Spec.referentialIntegrity Storage.empty.
Proof.
  split; [|split; [|split]]; intros k x H; cbn in H; by rewrite lookup_empty in H.
Qed.

Lemma processAndStoreDataBulk_keeps_integrity currentYear apiData db db' outcome :
  Spec.referentialIntegrity db ->
  processAndStoreDataBulk currentYear apiData db = (db', outcome) ->
  Spec.referentialIntegrity db'.
Proof.
  intros RI. unfold processAndStoreDataBulk.
  destruct (ingestSteps currentYear apiData (begin db)) as [t [e|ins]] eqn:Hrun.
  - by intros [= <- _].
  - intros [= <- _]. unfold commit.
    destruct (ingestSteps_success _ _ _ _ _ Hrun)
      as (s1 & s2 & s3 & s4 & E1 & E2 & E3 & E4 & E5).
    by eapply statements_keep_integrity.
Qed.

Lemma ingested_integrity db : Spec.ingested db -> Spec.referentialIntegrity db.
Proof.
  induction 1 as [|y a db db' r _ IH Hcall]; [apply empty_integrity|].
  by eapply processAndStoreDataBulk_keeps_integrity.
Qed.

(** The rows of a batch that was ingested are in the store. *)
Lemma processAndStoreDataBulk_covers currentYear apiData db db' inserted record :
  processAndStoreDataBulk currentYear apiData db = (db', Resolved inserted) ->
  record ∈ apiData ->
  is_Some (districts db' !! districtCodeOf record)
  /\ is_Some (performances db'
                !! (districtCodeOf record, or_str (fin_year record) "",
                    default "" (monthOf record))).
Proof.
  unfold processAndStoreDataBulk.
  destruct (ingestSteps currentYear apiData (begin db)) as [t [e|ins]] eqn:Hrun;
    [discriminate|].
  intros [= <- <-] Hin. unfold commit.
  destruct (ingestSteps_success _ _ _ _ _ Hrun)
    as (s1 & s2 & s3 & s4 & E1 & E2 & E3 & E4 & E5).
  pose proof (DistrictPerformance_bulkCreate_inv _ _ _ _ E4) as (Ee & Efold & _ & D2 & _).
  destruct (DistrictExtendedMetrics_bulkCreate_inv
              (extendedMetricsRecords ins apiData) s4) as (s5 & E5' & _ & _ & F2 & _ & F4 & _).
  rewrite E5 in E5'. injection E5' as <-.
  apply first_error_None in Ee. rewrite Forall_forall in Ee.
  assert (exists a, a ∈ preparePerformanceRecords apiData
                    /\ DistrictPerformance.districtCode a = districtCodeOf record
                    /\ key_of a = (districtCodeOf record, or_str (fin_year record) "",
                                   default "" (monthOf record))) as (a & Ha & Hd & Hk).
  { unfold preparePerformanceRecords. eexists. split.
    - apply list_elem_of_fmap. exists record. split; [reflexivity|done].
    - by split. }
  split.
  - rewrite F2, D2, <- Hd.
    by apply (Ee a), DistrictPerformance_check_None in Ha as (_ & ? & _).
  - rewrite F4, <- Hk. by apply (upsert_fold_written _ _ _ _ _ _ _ a Efold).
Qed.

(** C4. After a successful ingest into a store the engine has left, every
    District row names a stored State row, every PerformanceRecord row a
    stored District row (and a stored financial year), every
    ExtendedMetrics row a stored PerformanceRecord row; and the district
    and the performance row of every record of the batch are stored. *)
Theorem processAndStoreDataBulk_referential (currentYear : Z)
    (apiData : list ApiRecord) (db db' : Store) (inserted : list DistrictPerformance.t) :
  Spec.ingested db ->
  processAndStoreDataBulk currentYear apiData db = (db', Resolved inserted) ->
  Spec.referentialIntegrity db'
  /\ forall record, record ∈ apiData ->
       is_Some (districts db' !! districtCodeOf record)
       /\ is_Some (performances db'
                     !! (districtCodeOf record, or_str (fin_year record) "",
                         default "" (monthOf record))).
Proof.
  intros Hdb Hcall. split.
  - eapply processAndStoreDataBulk_keeps_integrity; [|exact Hcall].
    by apply ingested_integrity.
  - intros record Hin. by eapply processAndStoreDataBulk_covers.
Qed.

Lemma processAndStoreDataBulk_referential_witness :
  Spec.ingested Storage.empty
  /\ Spec.referentialIntegrity Examples.afterBatch.
Proof.
  split; [constructor|].
  eapply (processAndStoreDataBulk_referential 2026 Examples.batch Storage.empty);
    [constructor | vm_compute; reflexivity].
Defined.

End IngestFacts.

(** ** The query resolver *)

Section ResolverFacts.
Import JS Storage Ingest Resolver.
Local Open Scope list_scope.

(** [w'] is [w] after at most [n] more upstream calls. *)
Local Abbreviation calls_within n w w' :=
  (exists l, calls w' = calls w ++ l /\ (length l <= n)%nat).

Lemma calls_within_refl n w : calls_within n w w.
Proof. exists []. split; [by rewrite app_nil_r | cbn; lia]. Qed.

Lemma calls_within_trans n m w w' w'' :
  calls_within n w w' -> calls_within m w' w'' -> calls_within (n + m) w w''.
Proof.
  intros (l & E & L) (l' & E' & L'). exists (l ++ l'). split.
  - by rewrite E', E, app_assoc.
  - rewrite length_app. lia.
Qed.

Lemma calls_within_le n m w w' : (n <= m)%nat -> calls_within n w w' -> calls_within m w w'.
Proof. intros Hle (l & E & L). exists l. split; [done|lia]. Qed.

Lemma fetchDistrictData_calls env params w :
  calls_within 1 w (fst (fetchDistrictData env params w)).
Proof. exists [params]. by split. Qed.

Lemma store_calls env apiData w : calls (fst (store env apiData w)) = calls w.
Proof.
  unfold store. by destruct (processAndStoreDataBulk _ apiData (db w)).
Qed.

Lemma store_within env apiData w : calls_within 0 w (fst (store env apiData w)).
Proof. exists []. rewrite store_calls, app_nil_r. by split. Qed.

Lemma buildWhereClause_calls env finYear month district stateCode stateName w :
  calls_within 1 w
    (fst (buildWhereClause env finYear month district stateCode stateName w)).
Proof.
  unfold buildWhereClause. destruct (truthy_str district); [|apply calls_within_refl].
  destruct (District_findOne env (db w) _ stateCode); [apply calls_within_refl|].
  pose proof (fetchDistrictData_calls env
                {| stateName := stateName; fetchYear := finYear; districtName := district |}
                w) as F.
  destruct (fetchDistrictData env _ w) as [w1 [[|r apiData]|]]; cbn [fst] in *; try done.
  pose proof (store_within env (r :: apiData) w1) as S.
  destruct (store env (r :: apiData) w1) as [w2 [ins|e]]; cbn [fst] in *.
  - destruct (District_findOne env (db w2) _ stateCode); cbn [fst];
      apply (calls_within_trans 1 0 _ _ _ F S).
  - apply (calls_within_trans 1 0 _ _ _ F S).
Qed.

Lemma tryFallbackYears_calls env state years w :
  calls_within (length years) w (tryFallbackYears env state years w).
Proof.
  revert w. induction years as [|year years IH]; intros w; [apply calls_within_refl|].
  cbn [tryFallbackYears length].
  pose proof (fetchDistrictData_calls env
                {| stateName := state; fetchYear := year; districtName := None |} w) as F.
  destruct (fetchDistrictData env _ w) as [w1 [[|r fallbackData]|]]; cbn [fst] in *.
  - apply (calls_within_trans 1 _ _ _ _ F (IH w1)).
  - pose proof (store_within env (r :: fallbackData) w1) as S.
    destruct (store env (r :: fallbackData) w1) as [w2 [ins|e]]; cbn [fst] in *.
    + apply (calls_within_le 1); [lia|]. apply (calls_within_trans 1 0 _ _ _ F S).
    + apply (calls_within_trans 1 _ _ _ _ F).
      apply (calls_within_trans 0 _ _ _ _ S (IH w2)).
  - apply (calls_within_trans 1 _ _ _ _ F (IH w1)).
Qed.

(** Steps 1 and 2 make one call when they hand a state record on, and at
    most one more per fallback year when they end the request. *)
Lemma resolveState_calls env state finYear district w :
  calls_within
    (match snd (resolveState env state finYear district w) with
     | inl _ => 1 + length fallbackYears
     | inr _ => 1
     end)
    w (fst (resolveState env state finYear district w)).
Proof.
  unfold resolveState.
  destruct (State_findOne env (db w) (toUpperCase state)); [apply calls_within_refl|].
  pose proof (fetchDistrictData_calls env
                {| stateName := state; fetchYear := finYear; districtName := district |}
                w) as F.
  destruct (fetchDistrictData env _ w) as [w1 [[|r apiData]|]]; cbn [fst] in *.
  - pose proof (tryFallbackYears_calls env state fallbackYears w1) as T.
    destruct (State_findOne env (db (tryFallbackYears env state fallbackYears w1)) _);
      cbn [fst snd]; apply (calls_within_trans 1 _ _ _ _ F T).
  - pose proof (store_within env (r :: apiData) w1) as S.
    destruct (store env (r :: apiData) w1) as [w2 [ins|e]]; cbn [fst snd] in *.
    + apply (calls_within_trans 1 0 _ _ _ F S).
    + apply (calls_within_le 1); [lia|]. apply (calls_within_trans 1 0 _ _ _ F S).
  - cbn [fst snd]. apply (calls_within_le 1); [lia|done].
Qed.

Lemma refetch_calls env state finYear month district stateRecord w :
  calls_within 2 w (fst (refetch env state finYear month district stateRecord w)).
Proof.
  unfold refetch.
  pose proof (fetchDistrictData_calls env
                {| stateName := state; fetchYear := finYear; districtName := district |}
                w) as F.
  destruct (fetchDistrictData env _ w) as [w1 [[|r apiData]|]]; cbn [fst] in *;
    try (apply (calls_within_le 1); [lia|done]).
  pose proof (store_within env (r :: apiData) w1) as S.
  destruct (store env (r :: apiData) w1) as [w2 [ins|e]]; cbn [fst] in *.
  - pose proof (buildWhereClause_calls env finYear month district
                  (State.stateCode stateRecord) (State.stateName stateRecord) w2) as B.
    destruct (buildWhereClause env finYear month district _ _ w2) as [w3 [wc|]];
      cbn [fst] in *;
      apply (calls_within_trans 1 1 _ _ _ (calls_within_trans 1 0 _ _ _ F S) B).
  - apply (calls_within_le 1); [lia|]. apply (calls_within_trans 1 0 _ _ _ F S).
Qed.

(** C2. A request makes at most four upstream calls before it succeeds or
    fails: the call for the requested year and one per fallback year, or
    that call, one scoped to the district and one general retry with its
    own district lookup; that is within the three fallback attempts plus
    one district attempt plus one retry.  A request whose data is fully
    present in local storage makes none, leaves the store as it is and
    succeeds. *)
Theorem getDistrictData_bounded_calls (env : Env) (q : Query) (w : World) :
  (exists l, calls (fst (getDistrictData env q w)) = calls w ++ l
             /\ (length l <= 4)%nat
             /\ (length l <= length fallbackYears + 1 + 1)%nat)
  /\ (truthy_str (state q) = true -> truthy_str (finYear q) = true ->
      Spec.locallyPresent env (db w) q = true ->
      exists data, getDistrictData env q w = (w, Success data) /\ data <> []).
Proof.
  split.
  - assert (calls_within 4 w (fst (getDistrictData env q w))) as (l & E & L).
    { unfold getDistrictData.
      destruct (negb (truthy_str (state q)) || negb (truthy_str (finYear q)));
        [apply calls_within_refl|].
      pose proof (resolveState_calls env (or_str (state q) "") (or_str (finYear q) "")
                    (district q) w) as R.
      destruct (resolveState env _ _ (district q) w) as [w1 [response|[stateRecord|]]];
        cbn [fst snd] in *; [done| |apply (calls_within_le 1); [lia|done]].
      pose proof (buildWhereClause_calls env (or_str (finYear q) "") (month q) (district q)
                    (State.stateCode stateRecord) (State.stateName stateRecord) w1) as B.
      destruct (buildWhereClause env _ (month q) (district q) _ _ w1) as [w2 [wc|]];
        cbn [fst] in *;
        [|apply (calls_within_le 2); [lia|]; apply (calls_within_trans 1 1 _ _ _ R B)].
      destruct (fetchPerformanceData wc (State.stateCode stateRecord) (db w2));
        [|apply (calls_within_le 2); [lia|]; apply (calls_within_trans 1 1 _ _ _ R B)].
      pose proof (refetch_calls env (or_str (state q) "") (or_str (finYear q) "")
                    (month q) (district q) stateRecord w2) as F.
      destruct (refetch env _ _ (month q) (district q) stateRecord w2)
        as [w3 [response|data]]; cbn [fst] in *;
        apply (calls_within_trans 2 2 _ _ _ (calls_within_trans 1 1 _ _ _ R B) F). }
    exists l. cbn [length fallbackYears]. repeat split; [done|lia|lia].
  - intros Hs Hf Hlocal. unfold getDistrictData. rewrite Hs, Hf. cbn [negb orb].
    unfold Spec.locallyPresent in Hlocal. unfold resolveState.
    destruct (State_findOne env (db w) _) as [stateRecord|]; [|discriminate].
    unfold buildWhereClause.
    destruct (truthy_str (district q)).
    + destruct (District_findOne env (db w) _ _) as [districtRecord|]; [|discriminate].
      destruct (fetchPerformanceData _ _ (db w)) as [|j data] eqn:D; [discriminate|].
      eexists. split; [reflexivity|done].
    + destruct (fetchPerformanceData _ _ (db w)) as [|j data] eqn:D; [discriminate|].
      eexists. split; [reflexivity|done].
Qed.

Lemma getDistrictData_bounded_calls_witness :
  truthy_str (state Examples.keralaQuery) = true
  /\ truthy_str (finYear Examples.keralaQuery) = true
  /\ Spec.locallyPresent Examples.upstreamOfNothing (db Examples.populated)
       Examples.keralaQuery = true
  /\ calls (fst (getDistrictData Examples.upstreamOfNothing Examples.keralaQuery
                   Examples.populated)) = [].
Proof.
  assert (Spec.locallyPresent Examples.upstreamOfNothing (db Examples.populated)
            Examples.keralaQuery = true) as H by (vm_compute; reflexivity).
  split; [reflexivity|]. split; [reflexivity|]. split; [exact H|].
  destruct (proj2 (getDistrictData_bounded_calls Examples.upstreamOfNothing
                     Examples.keralaQuery Examples.populated) eq_refl eq_refl H)
    as (data & -> & _).
  reflexivity.
Defined.

(** *** The two not-found outcomes of an unknown region *)




End ResolverFacts.

(** ** More on the surrogate codes *)

Section MoreCodeFacts.
Import JS Codes Ingest.





Lemma substring_length n s :
  String.length (String.substring 0 n s) = Nat.min n (String.length s).
Proof. revert s. induction n as [|n IH]; intros [|c s]; cbn; auto. Qed.

Lemma assoc_In k l v : assoc k l = Some v -> In v (map snd l).
Proof.
  induction l as [|[k' v'] l IH]; cbn; [done|].
  destruct (String.eqb k k'); [intros [= ->]; by left | right; auto].
Qed.

Lemma stateCodeMap_codes v :
  In v (map snd stateCodeMap) ->
  String.length v = 2%nat /\ toUpperCase v = v.
Proof.
  assert (forallb (fun v => (String.length v =? 2)%nat && String.eqb (toUpperCase v) v)
                  (map snd stateCodeMap) = true) as T by (vm_compute; reflexivity).
  rewrite forallb_forall in T. intros Hin. specialize (T v Hin).
  apply andb_true_iff in T as [T1 T2].
  split; [by apply Nat.eqb_eq | by apply String.eqb_eq].
Qed.

(** The code of a state is one of the table, the first two letters of the
    name, or "XX". *)
Lemma generateStateCode_cases stateName :
  In (generateStateCode stateName) (map snd stateCodeMap)
  \/ (exists name, stateName = Some name /\ name <> ""
                   /\ generateStateCode stateName = toUpperCase (substring 0 2 name))
  \/ (truthy_str stateName = false /\ generateStateCode stateName = "XX").
Proof.
  destruct stateName as [name|]; [|by right; right].
  unfold generateStateCode.
  destruct (String.eqb name "") eqn:E.
  { right; right. cbn [truthy_str]. by rewrite E. }
  destruct (assoc (toUpperCase name) stateCodeMap) as [v|] eqn:A; cbn [or_str].
  - pose proof (assoc_In _ _ _ A) as Hin.
    destruct (stateCodeMap_codes v Hin) as [Hl _].
    destruct (String.eqb v "") eqn:Ev.
    + apply String.eqb_eq in Ev. subst v. discriminate.
    + by left.
  - right; left. exists name. apply String.eqb_neq in E. done.
Qed.

Lemma generateStateCode_length stateName :
  (1 <= String.length (generateStateCode stateName) <= 2)%nat.
Proof.
  destruct (generateStateCode_cases stateName) as [H|[(name & _ & Hn & ->)|[_ ->]]].
  - destruct (stateCodeMap_codes _ H) as [-> _]. lia.
  - rewrite toUpperCase_length. unfold substring. rewrite substring_length.
    destruct name as [|c name]; [done|]. cbn [String.length]. lia.
  - cbn. lia.
Qed.

Lemma generateStateCode_nonempty stateName : generateStateCode stateName <> "".
Proof.
  pose proof (generateStateCode_length stateName) as H.
  destruct (generateStateCode stateName); [cbn in H; lia | done].
Qed.

Lemma stateCodeOf_nonempty record : stateCodeOf record <> "".
Proof.
  unfold stateCodeOf, or_str. destruct (state_code record) as [s|].
  - destruct (String.eqb s "") eqn:E.
    + apply generateStateCode_nonempty.
    + by apply String.eqb_neq.
  - apply generateStateCode_nonempty.
Qed.





Lemma list_ascii_app (s t : string) :
  list_ascii_of_string (s +:+ t)
  = (list_ascii_of_string s ++ list_ascii_of_string t)%list.
Proof.
  induction s as [|c s IH]; [done|].
  rewrite app_String. cbn [list_ascii_of_string]. by rewrite IH.
Qed.

(** The hash of a name is a 32-bit integer, and each further character [c]
    takes the hash [h] to [31 * h + c] wrapped to 32 bits; the loop never
    leaves the range, however long the name is. *)
Theorem hashCode_int32 (str : string) (c : ascii) :
  hashCode "" = 0
  /\ - 2 ^ 31 <= hashCode str < 2 ^ 31
  /\ hashCode (str +:+ String c "") = toInt32 (31 * hashCode str + charCode c)
  /\ 0 <= Z.abs (hashCode str) mod 1000 < 1000.
Proof.
  split; [reflexivity|]. split.
  - rewrite hashCode_poly31. apply toInt32_range.
  - split; [|apply Z.mod_pos_bound; lia].
    unfold hashCode. rewrite list_ascii_app, fold_left_app. cbn [list_ascii_of_string].
    rewrite fold_left_cons. cbn [fold_left]. apply hashStep_wrap.
Qed.

Lemma not_UNKNOWN (a : string) (d1 d2 d3 : ascii) :
  a +:+ String d1 (String d2 (String d3 "")) = "UNKNOWN" -> d3 = "N"%char.
Proof.
  destruct a as [|c1 [|c2 [|c3 [|c4 [|c5 [|c6 [|c7 [|c8 a]]]]]]]];
    simpl; intros H; inversion H; reflexivity.
Qed.

Lemma string_app_assoc (a b c : string) : (a +:+ b) +:+ c = a +:+ (b +:+ c).
Proof. induction a as [|x a IH]; [done|]. by rewrite !app_String, IH. Qed.

Lemma generateDistrictCode_known name stateCode :
  name <> "" -> stateCode <> "" ->
  generateDistrictCode (Some name) stateCode <> "UNKNOWN".
Proof.
  intros Hn Hs. unfold generateDistrictCode.
  apply String.eqb_neq in Hn, Hs. rewrite Hn, Hs. cbn [orb]. cbv zeta.
  assert (0 <= Z.abs (hashCode name) mod 1000 < 1000) as Hh
    by (apply Z.mod_pos_bound; lia).
  rewrite padStart_threeDigits by done. unfold Spec.threeDigits.
  set (h := Z.abs (hashCode name) mod 1000) in *.
  rewrite <- string_app_assoc. intros E. apply not_UNKNOWN in E.
  assert (0 <= h mod 10 < 10) as Hd by (apply Z.mod_pos_bound; lia).
  destruct (digit_char_spec (h mod 10) Hd) as [D _].
  rewrite E in D. discriminate.
Qed.

(** A record that brings no district code is filed under the code
    "UNKNOWN" exactly when it brings no district name either: a derived
    code always ends in a digit, and the state code it starts with is never
    empty. *)
Theorem districtCodeOf_unknown (record : ApiRecord) :
  truthy_str (district_code record) = false ->
  (districtCodeOf record = "UNKNOWN" <-> truthy_str (district_name record) = false).
Proof.
  intros Hc. unfold districtCodeOf.
  assert (or_str (district_code record)
                 (generateDistrictCode (district_name record) (stateCodeOf record))
          = generateDistrictCode (district_name record) (stateCodeOf record)) as ->.
  { unfold or_str, truthy_str in *. destruct (district_code record) as [s|]; [|done].
    by destruct (String.eqb s ""). }
  pose proof (stateCodeOf_nonempty record) as Hs.
  destruct (district_name record) as [name|] eqn:En; cbn [truthy_str].
  - destruct (String.eqb name "") eqn:E; cbn [negb].
    + apply String.eqb_eq in E. subst name. by cbn.
    + apply String.eqb_neq in E. split; [|done].
      intros H. by apply generateDistrictCode_known in H.
  - by cbn.
Qed.

Lemma districtCodeOf_unknown_witness :
  districtCodeOf (Examples.upstreamRecord "" "April" "41") = "UNKNOWN"
  /\ districtCodeOf (Examples.upstreamRecord "Idukki" "April" "41") <> "UNKNOWN".
Proof.
  split.
  - apply (districtCodeOf_unknown (Examples.upstreamRecord "" "April" "41")); reflexivity.
  - intros H.
    apply (districtCodeOf_unknown (Examples.upstreamRecord "Idukki" "April" "41")) in H;
      [discriminate | reflexivity].
Defined.

End MoreCodeFacts.

(** ** More on the derived metrics *)

Section MoreMetricFacts.
Import JS Metrics.

Lemma add_NaN_r a : add a NaN = NaN.
Proof. by destruct a. Qed.

Lemma min_NaN_l a : min NaN a = NaN.
Proof. done. Qed.

Lemma ge_Num x y : ge (Num x) (Num y) = true <-> (y <= x)%Q.
Proof.
  unfold ge. rewrite negb_true_iff. apply lt_Num_false.
Qed.

Lemma ge_Num_false x y : ge (Num x) (Num y) = false <-> (x < y)%Q.
Proof.
  unfold ge. rewrite negb_false_iff. apply lt_Num.
Qed.

(** A record whose days of employment, payment percentage or women
    person-days are absent has no score (NaN), and its grade is "E": every
    threshold comparison with NaN fails. *)
Theorem getPerformanceGrade_absent (d : performance) :
  averageDaysEmployment d = NaN \/ paymentWithin15Days d = NaN
  \/ womenPersondays d = NaN ->
  calculatePerformanceScore d = NaN
  /\ getPerformanceGrade d = {| grade := "E"; label := "Poor"; color := "#E65100" |}.
Proof.
  intros H.
  assert (calculatePerformanceScore d = NaN) as E.
  { unfold calculatePerformanceScore. cbv zeta.
    set (a := min (mul (div (averageDaysEmployment d) (of_Z 100)) (of_Z 30)) (of_Z 30)).
    set (b := mul (div (paymentWithin15Days d) (of_Z 100)) (of_Z 25)).
    set (c := min (mul (div (womenPersondays d) (of_Z 50)) (of_Z 20)) (of_Z 20)).
    assert (add (add (add zero a) b) c = NaN) as ->.
    { destruct H as [H|[H|H]].
      - subst a. rewrite H. reflexivity.
      - subst b. rewrite H. cbn [div mul]. by rewrite add_NaN_r.
      - subst c. rewrite H. cbn [div mul min]. by rewrite add_NaN_r. }
    by destruct (gt _ _). }
  split; [done|]. unfold getPerformanceGrade. by rewrite E.
Qed.

Lemma getPerformanceGrade_absent_witness :
  calculatePerformanceScore Samples.withoutDays = NaN
  /\ getPerformanceGrade Samples.withoutDays
     = {| grade := "E"; label := "Poor"; color := "#E65100" |}.
Proof. apply getPerformanceGrade_absent. left. reflexivity. Defined.

(** Absent works do not spoil the score: a record whose completed or
    ongoing works are absent scores as the record with the same days,
    payment percentage and women person-days and no works at all. *)
Theorem calculatePerformanceScore_absent_works (d d' : performance) :
  completedWorks d = NaN \/ ongoingWorks d = NaN ->
  completedWorks d' = zero -> ongoingWorks d' = zero ->
  averageDaysEmployment d' = averageDaysEmployment d ->
  paymentWithin15Days d' = paymentWithin15Days d ->
  womenPersondays d' = womenPersondays d ->
  calculatePerformanceScore d = calculatePerformanceScore d'.
Proof.
  intros H Ec Eo Ed Ep Ew. unfold calculatePerformanceScore. cbv zeta.
  rewrite Ec, Eo, Ed, Ep, Ew.
  assert (gt (add (completedWorks d) (ongoingWorks d)) zero = false) as ->.
  { destruct H as [-> | ->]; [done|]. by rewrite add_NaN_r. }
  reflexivity.
Qed.

Lemma calculatePerformanceScore_absent_works_witness :
  calculatePerformanceScore Samples.withoutWorks
  = calculatePerformanceScore (Examples.scored 45 90 30 0 0).
Proof.
  apply calculatePerformanceScore_absent_works; try reflexivity. left. reflexivity.
Defined.

(** A higher score never earns a later letter: the grade is monotone in
    the score. *)
Theorem getPerformanceGrade_monotone (d d' : performance) (q q' : Q) :
  calculatePerformanceScore d = Num q ->
  calculatePerformanceScore d' = Num q' ->
  (q <= q')%Q ->
  String.leb (grade (getPerformanceGrade d')) (grade (getPerformanceGrade d)) = true.
Proof.
  intros E E' Hq. unfold getPerformanceGrade. rewrite E, E'. unfold of_Z.
  destruct (ge (Num q) (Num (inject_Z 80))) eqn:A1;
    [apply ge_Num in A1 | apply ge_Num_false in A1];
  (destruct (ge (Num q) (Num (inject_Z 60))) eqn:A2;
    [apply ge_Num in A2 | apply ge_Num_false in A2]);
  (destruct (ge (Num q) (Num (inject_Z 40))) eqn:A3;
    [apply ge_Num in A3 | apply ge_Num_false in A3]);
  (destruct (ge (Num q) (Num (inject_Z 20))) eqn:A4;
    [apply ge_Num in A4 | apply ge_Num_false in A4]);
  (destruct (ge (Num q') (Num (inject_Z 80))) eqn:B1;
    [apply ge_Num in B1 | apply ge_Num_false in B1]);
  (destruct (ge (Num q') (Num (inject_Z 60))) eqn:B2;
    [apply ge_Num in B2 | apply ge_Num_false in B2]);
  (destruct (ge (Num q') (Num (inject_Z 40))) eqn:B3;
    [apply ge_Num in B3 | apply ge_Num_false in B3]);
  (destruct (ge (Num q') (Num (inject_Z 20))) eqn:B4;
    [apply ge_Num in B4 | apply ge_Num_false in B4]);
  first [ reflexivity
        | exfalso; unfold inject_Z in *; lra ].
Qed.

Lemma getPerformanceGrade_monotone_witness :
  String.leb (grade (getPerformanceGrade (Examples.scored 100 100 50 1 0)))
             (grade (getPerformanceGrade (Examples.scored 45 90 30 7 3))) = true.
Proof.
  apply (getPerformanceGrade_monotone _ _ (inject_Z 66) (inject_Z 100));
    [vm_compute; reflexivity | vm_compute; reflexivity | unfold inject_Z; lra].
Defined.

(** For counts of works that are not negative, the completion rate is a
    percentage: a number between 0 and 100. *)
Theorem calculateCompletionRate_percentage (p : performance) (completed ongoing : Q) :
  completedWorks p = Num completed -> ongoingWorks p = Num ongoing ->
  (0 <= completed)%Q -> (0 <= ongoing)%Q ->
  exists rate : Q,
    calculateCompletionRate p = Num rate /\ (0 <= rate <= 100)%Q.
Proof.
  intros Ec Eo Hc Ho. unfold calculateCompletionRate. rewrite Ec, Eo. cbv zeta.
  assert (exists t, add (or_num (Num completed) zero) (or_num (Num ongoing) zero) = Num t
                    /\ (t == completed + ongoing)%Q) as (t & -> & Et).
  { unfold or_num, zero.
    destruct (Qeq_bool completed 0) eqn:C; destruct (Qeq_bool ongoing 0) eqn:O;
      try apply Qeq_bool_iff in C; try apply Qeq_bool_iff in O;
      eexists; (split; [reflexivity|]); lra. }
  unfold strict_eq, zero. destruct (Qeq_bool t 0) eqn:T.
  { exists 0%Q. split; [done|lra]. }
  apply Qeq_bool_neq in T.
  rewrite div_Num by done. cbn [mul of_Z].
  destruct (parseFloat_toFixed2 (completed / t * inject_Z 100)) as (rate & -> & Er).
  exists rate. split; [done|].
  assert (0 < t)%Q as Tpos by (destruct (Qlt_le_dec 0 t); [done|]; exfalso; apply T; lra).
  assert (0 <= completed / t)%Q as R0.
  { apply Qle_shift_div_l; [done|]. lra. }
  assert (completed / t <= 1)%Q as R1.
  { apply Qle_shift_div_r; [done|]. lra. }
  set (x := (completed / t * inject_Z 100)%Q) in *.
  assert (0 <= x <= 100)%Q as Hx by (unfold x, inject_Z; split; nra).
  assert (Qle_bool 0 x = true) as L by (apply Qle_bool_iff; lra).
  rewrite L in Er. rewrite Qabs_pos in Er by lra.
  assert (0 <= Qfloor (x * 100 + (1 # 2)) <= 10000) as Hn.
  { split.
    - apply (Qfloor_resp_le 0 (x * 100 + (1 # 2))). lra.
    - apply (Z.le_trans _ (Qfloor (10000 + (1 # 2)))); [|by vm_compute].
      apply Qfloor_resp_le. lra. }
  destruct Hn as [Hn0 Hn1]. rewrite Zle_Qle in Hn0, Hn1.
  set (n := inject_Z (Qfloor (x * 100 + (1 # 2)))) in *.
  unfold inject_Z in Hn0, Hn1. clearbody n.
  assert (rate == n * (1 # 100))%Q as Er' by (rewrite Er; field).
  split; lra.
Qed.

Lemma calculateCompletionRate_percentage_witness :
  exists rate : Q,
    calculateCompletionRate (Examples.scored 45 90 30 7 3) = Num rate
    /\ (0 <= rate <= 100)%Q.
Proof.
  apply (calculateCompletionRate_percentage _ (inject_Z 7) (inject_Z 3));
    [reflexivity | reflexivity | unfold inject_Z; lra | unfold inject_Z; lra].
Defined.

End MoreMetricFacts.

(** ** More on the reconciliation engine *)

Section DedupFacts.
Import JS Codes Storage Ingest.
Local Open Scope list_scope.

Context {V : Type} (k : ApiRecord -> string) (v : ApiRecord -> V).

Local Abbreviation dedup :=
  (foldl (fun m record => if Map_has m (k record) then m
                          else Map_set m (k record) (v record)) []).

Lemma Map_has_elem (m : list (string * V)) key :
  Map_has m key = true <-> key ∈ map fst m.
Proof.
  unfold Map_has. rewrite existsb_exists, list_elem_of_In, in_map_iff.
  split; intros ([key' val] & H1 & H2); exists (key', val); cbn in *.
  - apply String.eqb_eq in H2. done.
  - subst. split; [done|apply String.eqb_refl].
Qed.

Lemma Map_set_absent (m : list (string * V)) key val :
  Map_has m key = false -> Map_set m key val = m ++ [(key, val)].
Proof.
  induction m as [|[key' val'] m IH]; cbn; [done|].
  destruct (String.eqb key' key); cbn; [done|]. intros H. by rewrite IH.
Qed.

(** The de-duplicating pass keeps one entry per key, for exactly the keys
    of the records, and the entry of a key comes from the first record that
    has it. *)
Lemma dedup_spec (apiData : list ApiRecord) :
  NoDup (map fst (dedup apiData))
  /\ (forall key, key ∈ map fst (dedup apiData) <-> exists r, r ∈ apiData /\ k r = key)
  /\ (forall key val, (key, val) ∈ dedup apiData ->
        exists l1 r l2, apiData = l1 ++ r :: l2 /\ k r = key /\ v r = val
                        /\ forall r', r' ∈ l1 -> k r' <> key).
Proof.
  induction apiData as [|r l (IH1 & IH2 & IH3)] using rev_ind.
  { cbn. split; [constructor|]. split.
    - intros key. split; [by intros ?%elem_of_nil|].
      by intros (? & ?%elem_of_nil & _).
    - by intros ?? ?%elem_of_nil. }
  rewrite foldl_snoc. set (m := dedup l) in *.
  destruct (Map_has m (k r)) eqn:E.
  - split; [done|]. split.
    + intros key. rewrite IH2. split.
      * intros (r0 & Hin & Hk). exists r0. split; [|done]. apply elem_of_app. by left.
      * intros (r0 & [Hin| ->%list_elem_of_singleton]%elem_of_app & Hk).
        -- by exists r0.
        -- apply IH2. rewrite <- Hk. by apply Map_has_elem.
    + intros key val Hin. destruct (IH3 key val Hin) as (l1 & r0 & l2 & -> & ? & ? & ?).
      exists l1, r0, (l2 ++ [r]). by rewrite <- app_assoc.
  - rewrite Map_set_absent by done.
    assert (k r ∉ map fst m) as Hfresh.
    { intros H%Map_has_elem. congruence. }
    split; [|split].
    + rewrite map_app. apply NoDup_app. split; [done|]. split.
      * intros key Hkey ->%list_elem_of_singleton. done.
      * cbn. apply NoDup_singleton.
    + intros key. rewrite map_app, elem_of_app, IH2. cbn. rewrite list_elem_of_singleton.
      split.
      * intros [(r0 & Hin & Hk) | ->].
        -- exists r0. split; [|done]. apply elem_of_app. by left.
        -- exists r. split; [|done]. apply elem_of_app. right. by apply list_elem_of_singleton.
      * intros (r0 & [Hin| ->%list_elem_of_singleton]%elem_of_app & Hk).
        -- left. by exists r0.
        -- by right.
    + intros key val [Hin | [= -> ->]%list_elem_of_singleton]%elem_of_app.
      * destruct (IH3 key val Hin) as (l1 & r0 & l2 & -> & ? & ? & ?).
        exists l1, r0, (l2 ++ [r]). by rewrite <- app_assoc.
      * exists l, r, []. split; [done|]. split; [done|]. split; [done|].
        intros r' Hin Hk. apply Hfresh, IH2. by exists r'.
Qed.

Lemma keyed_values (f : V -> string) (m : list (string * V)) :
  (forall key val, (key, val) ∈ m -> f val = key) ->
  map f (Map_values m) = map fst m.
Proof.
  induction m as [|[key val] m IH]; intros H; cbn; [done|].
  rewrite (H key val) by apply list_elem_of_here. f_equal. apply IH.
  intros key' val' Hin. apply H. by apply list_elem_of_further.
Qed.

Lemma dedup_values (f : V -> string) (apiData : list ApiRecord) :
  (forall r, f (v r) = k r) ->
  map f (Map_values (dedup apiData)) = map fst (dedup apiData).
Proof.
  intros Hf. apply keyed_values. intros key val Hin.
  destruct (dedup_spec apiData) as (_ & _ & H3).
  destruct (H3 key val Hin) as (_ & r & _ & _ & <- & <- & _). apply Hf.
Qed.

Lemma dedup_value_origin (apiData : list ApiRecord) (val : V) :
  val ∈ Map_values (dedup apiData) ->
  exists l1 r l2, apiData = l1 ++ r :: l2 /\ v r = val
                  /\ forall r', r' ∈ l1 -> k r' <> k r.
Proof.
  unfold Map_values. intros ([key val'] & -> & Hin)%list_elem_of_fmap. cbn.
  destruct (dedup_spec apiData) as (_ & _ & H3).
  destruct (H3 key val' Hin) as (l1 & r & l2 & ? & <- & ? & ?). by exists l1, r, l2.
Qed.

End DedupFacts.

Section ExtractFacts.
Import JS Codes Storage Ingest.
Local Open Scope list_scope.

Local Abbreviation nameOf r := (or_str (toUpperCase <$> state_name r) "").

(** [extractUniqueStates] yields one state per upper-cased name of the
    batch, and no other; the code of a state is the code of the first
    record that has its name. *)
Theorem extractUniqueStates_distinct (apiData : list ApiRecord) :
  NoDup (map State.stateName (extractUniqueStates apiData))
  /\ (forall name,
        name ∈ map State.stateName (extractUniqueStates apiData)
        <-> exists r, r ∈ apiData /\ nameOf r = name)
  /\ (forall st,
        st ∈ extractUniqueStates apiData ->
        exists l1 r l2,
          apiData = l1 ++ r :: l2
          /\ st = {| State.stateCode := stateCodeOf r; State.stateName := nameOf r |}
          /\ forall r', r' ∈ l1 -> nameOf r' <> nameOf r).
Proof.
  unfold extractUniqueStates. cbv zeta.
  set (k := fun r : ApiRecord => nameOf r).
  set (v := fun r : ApiRecord =>
              {| State.stateCode := stateCodeOf r; State.stateName := nameOf r |}).
  destruct (dedup_spec k v apiData) as (H1 & H2 & _).
  rewrite (dedup_values k v State.stateName) by done.
  split; [exact H1|]. split; [exact H2|].
  intros st Hin. destruct (dedup_value_origin k v apiData st Hin) as (l1 & r & l2 & ? & ? & ?).
  by exists l1, r, l2.
Qed.

(** [extractUniqueDistricts] yields one district per district code of the
    batch, and no other; its name and state code are those of the first
    record filed under the code. *)
Theorem extractUniqueDistricts_distinct (apiData : list ApiRecord) :
  NoDup (map District.districtCode (extractUniqueDistricts apiData))
  /\ (forall code,
        code ∈ map District.districtCode (extractUniqueDistricts apiData)
        <-> exists r, r ∈ apiData /\ districtCodeOf r = code)
  /\ (forall d,
        d ∈ extractUniqueDistricts apiData ->
        exists l1 r l2,
          apiData = l1 ++ r :: l2
          /\ d = {| District.districtCode := districtCodeOf r;
                    District.districtName := or_str (toUpperCase <$> district_name r) "";
                    District.stateCode := stateCodeOf r |}
          /\ forall r', r' ∈ l1 -> districtCodeOf r' <> districtCodeOf r).
Proof.
  unfold extractUniqueDistricts. cbv zeta.
  set (k := fun r : ApiRecord => districtCodeOf r).
  set (v := fun r : ApiRecord =>
              {| District.districtCode := districtCodeOf r;
                 District.districtName := or_str (toUpperCase <$> district_name r) "";
                 District.stateCode := stateCodeOf r |}).
  destruct (dedup_spec k v apiData) as (H1 & H2 & _).
  rewrite (dedup_values k v District.districtCode) by done.
  split; [exact H1|]. split; [exact H2|].
  intros d Hin. destruct (dedup_value_origin k v apiData d Hin) as (l1 & r & l2 & ? & ? & ?).
  by exists l1, r, l2.
Qed.

End ExtractFacts.

Section MoreIngestFacts.
Import JS Codes Storage Ingest.
Local Open Scope list_scope.









(** Only the empty batch issues no statement; it leaves the store as it
    is and hands back no instance. *)
Theorem processAndStoreDataBulk_empty (currentYear : Z) (apiData : list ApiRecord)
    (db : Store) :
  (statements (fst (ingestSteps currentYear apiData (begin db))) = [] <-> apiData = [])
  /\ processAndStoreDataBulk currentYear [] db = (db, Resolved []).
Proof.
  split; [|reflexivity]. split; [|by intros ->].
  intros Hnone. destruct (decide (apiData = [])) as [|Hne]; [done|]. exfalso.
  destruct (ingestSteps_cases currentYear apiData (begin db)) as (s1 & E1 & Hcases).
  cbv zeta in Hcases.
  assert (extractUniqueStates apiData <> []) as N1 by by apply dedup_nonempty.
  rewrite (mark_nonempty (extractUniqueStates apiData)) in Hcases by done.
  cbn [begin statements app] in Hcases.
  destruct (District_bulkCreate _ s1) as [e|[s2 []]].
  { rewrite Hcases in Hnone. discriminate Hnone. }
  destruct (FinancialYear_bulkCreate _ s2) as [e|[s3 []]].
  { rewrite Hcases in Hnone. discriminate Hnone. }
  destruct (DistrictPerformance_bulkCreate _ s3) as [e|[s4 ins]].
  { rewrite Hcases in Hnone. discriminate Hnone. }
  destruct Hcases as (s5 & E5 & Hrun). rewrite Hrun in Hnone. discriminate Hnone.
Qed.

(** The engine never deletes: whatever the batch and however the call
    ends, every state, district and financial year stored before is stored
    after, every performance row is still there under its key with the id
    it had, and every extended-metrics row is untouched. *)
Theorem processAndStoreDataBulk_keeps_rows (currentYear : Z) (apiData : list ApiRecord)
    (db db' : Store) (outcome : Outcome (list DistrictPerformance.t)) :
  processAndStoreDataBulk currentYear apiData db = (db', outcome) ->
  (forall k, is_Some (states db !! k) -> is_Some (states db' !! k))
  /\ (forall k, is_Some (districts db !! k) -> is_Some (districts db' !! k))
  /\ (forall k, is_Some (financialYears db !! k) -> is_Some (financialYears db' !! k))
  /\ (forall k row, performances db !! k = Some row ->
        exists row', performances db' !! k = Some row'
                     /\ DistrictPerformance.id row' = DistrictPerformance.id row)
  /\ (forall pid x, extendedMetrics db !! pid = Some x ->
        extendedMetrics db' !! pid = Some x).
Proof.
  unfold processAndStoreDataBulk.
  destruct (ingestSteps currentYear apiData (begin db)) as [t [e|ins]] eqn:Hrun.
  { intros [= <- _]. unfold rollback. repeat split; eauto. }
  intros [= <- _]. unfold commit.
  destruct (ingestSteps_success _ _ _ _ _ Hrun)
    as (s1 & s2 & s3 & s4 & E1 & E2 & E3 & E4 & E5).
  cbn [begin working] in E1.
  destruct (State_bulkCreate_inv (extractUniqueStates apiData) db) as (s1' & E1' & I1).
  rewrite E1 in E1'. injection E1' as <-.
  pose proof (District_bulkCreate_inv _ _ _ _ E2) as (FK2 & I2).
  pose proof (FinancialYear_bulkCreate_inv _ _ _ _ E3) as (rs & Em & I3).
  pose proof (DistrictPerformance_bulkCreate_inv _ _ _ _ E4) as (Ee & Efold & I4).
  destruct (DistrictExtendedMetrics_bulkCreate_inv
              (extendedMetricsRecords ins apiData) s4) as (s5' & E5' & Eext & I5).
  rewrite E5 in E5'. injection E5' as <-.
  destruct I1 as (A0 & A1 & A2 & A3 & A4 & A5 & A6).
  destruct I2 as (B1 & B0 & B2 & B3 & B4 & B5 & B6).
  destruct I3 as (C1 & C2 & C0 & C3 & C4 & C5 & C6).
  destruct I4 as (D1 & D2 & D3 & D4 & D5).
  destruct I5 as (F1 & F2 & F3 & F4 & F5).
  split; [|split; [|split; [|split]]].
  - intros k Hk. rewrite F1, D1, C1, B1, A0.
    by apply (upsertAll_keeps_keys State.stateCode).
  - intros k Hk. rewrite F2, D2, C2, B0, A1.
    by apply (upsertAll_keeps_keys District.districtCode).
  - intros k Hk. rewrite F3, D3, C0, B2, A2.
    by apply (upsertAll_keeps_keys FinancialYear.row_finYear).
  - intros k row Hk. rewrite F4.
    apply (upsert_fold_ids _ _ _ _ _ _ _ Efold). by rewrite C3, B3, A3.
  - intros pid x Hx.
    apply (insertIgnore_fold _ _ _ _ _ _ Eext). by rewrite D4, C4, B4, A4.
Qed.

Lemma processAndStoreDataBulk_keeps_rows_witness :
  is_Some (states (fst (processAndStoreDataBulk 2026 Examples.batchWithoutMonth
                          Examples.afterBatch)) !! "KL").
Proof.
  apply (processAndStoreDataBulk_keeps_rows 2026 Examples.batchWithoutMonth
           Examples.afterBatch _ _ (surjective_pairing _)).
  vm_compute. eexists. reflexivity.
Defined.








End MoreIngestFacts.

(** ** More on the query resolver *)

(** What holds of every step the resolver takes holds of the request: the
    resolver changes the world only by calling [fetchDistrictData], and by
    storing records an upstream call has yielded. *)
Section StepFacts.
Import JS Storage Ingest Resolver.
Local Open Scope list_scope.

Variable env : Env.
Variable P : World -> World -> Prop.
Hypothesis P_refl : forall w, P w w.
Hypothesis P_trans : forall w1 w2 w3, P w1 w2 -> P w2 w3 -> P w1 w3.
Hypothesis P_fetch : forall params w, P w (fst (fetchDistrictData env params w)).
Hypothesis P_store : forall history params apiData w,
  upstream env history params = Some apiData -> apiData <> [] ->
  P w (fst (store env apiData w)).

Lemma fetch_store_steps params w r l :
  upstream env (calls w) params = Some (r :: l) ->
  P w (fst (store env (r :: l) (fst (fetchDistrictData env params w)))).
Proof.
  intros U. eapply P_trans; [apply (P_fetch params)|]. by eapply P_store.
Qed.

Lemma buildWhereClause_steps finYear month district stateCode stateName w :
  P w (fst (buildWhereClause env finYear month district stateCode stateName w)).
Proof.
  unfold buildWhereClause. destruct (truthy_str district); [|apply P_refl].
  destruct (District_findOne env (db w) _ stateCode); [apply P_refl|].
  pose proof (P_fetch {| stateName := stateName; fetchYear := finYear;
                         districtName := district |} w) as F.
  pose proof (fetch_store_steps {| stateName := stateName; fetchYear := finYear;
                                   districtName := district |} w) as S.
  unfold fetchDistrictData in *. cbn [fst] in *.
  destruct (upstream env (calls w) _) as [[|r l]|]; cbn [fst]; try done.
  specialize (S r l eq_refl).
  destruct (store env (r :: l) _) as [w2 [ins|e]]; cbn [fst] in *; [|done].
  by destruct (District_findOne env (db w2) _ stateCode).
Qed.

Lemma tryFallbackYears_steps state years w :
  P w (tryFallbackYears env state years w).
Proof.
  revert w. induction years as [|year years IH]; intros w; [apply P_refl|].
  cbn [tryFallbackYears].
  pose proof (P_fetch {| stateName := state; fetchYear := year; districtName := None |} w)
    as F.
  pose proof (fetch_store_steps {| stateName := state; fetchYear := year;
                                   districtName := None |} w) as S.
  unfold fetchDistrictData in *. cbn [fst] in *.
  destruct (upstream env (calls w) _) as [[|r l]|].
  - eapply P_trans; [exact F|apply IH].
  - specialize (S r l eq_refl).
    destruct (store env (r :: l) _) as [w2 [ins|e]]; cbn [fst] in *; [done|].
    eapply P_trans; [exact S|apply IH].
  - eapply P_trans; [exact F|apply IH].
Qed.

Lemma resolveState_steps state finYear district w :
  P w (fst (resolveState env state finYear district w)).
Proof.
  unfold resolveState.
  destruct (State_findOne env (db w) (toUpperCase state)); [apply P_refl|].
  pose proof (P_fetch {| stateName := state; fetchYear := finYear;
                         districtName := district |} w) as F.
  pose proof (fetch_store_steps {| stateName := state; fetchYear := finYear;
                                   districtName := district |} w) as S.
  unfold fetchDistrictData in *. cbn [fst] in *.
  destruct (upstream env (calls w) _) as [[|r l]|]; cbn [fst]; [| |done].
  - set (w1 := {| db := db w; calls := _ |}) in *.
    pose proof (tryFallbackYears_steps state fallbackYears w1) as T.
    destruct (State_findOne env (db (tryFallbackYears env state fallbackYears w1)) _);
      cbn [fst]; by eapply P_trans.
  - specialize (S r l eq_refl).
    by destruct (store env (r :: l) _) as [w2 [ins|e]].
Qed.

Lemma refetch_steps state finYear month district stateRecord w :
  P w (fst (refetch env state finYear month district stateRecord w)).
Proof.
  unfold refetch.
  pose proof (P_fetch {| stateName := state; fetchYear := finYear;
                         districtName := district |} w) as F.
  pose proof (fetch_store_steps {| stateName := state; fetchYear := finYear;
                                   districtName := district |} w) as S.
  unfold fetchDistrictData in *. cbn [fst] in *.
  destruct (upstream env (calls w) _) as [[|r l]|]; cbn [fst]; try done.
  specialize (S r l eq_refl).
  destruct (store env (r :: l) _) as [w2 [ins|e]]; cbn [fst] in *; [|done].
  pose proof (buildWhereClause_steps finYear month district
                (State.stateCode stateRecord) (State.stateName stateRecord) w2) as B.
  destruct (buildWhereClause env finYear month district _ _ w2) as [w3 [wc|]];
    cbn [fst] in *; by eapply P_trans.
Qed.

Lemma getDistrictData_steps q w : P w (fst (getDistrictData env q w)).
Proof.
  unfold getDistrictData.
  destruct (negb (truthy_str (state q)) || negb (truthy_str (finYear q)));
    [apply P_refl|].
  pose proof (resolveState_steps (or_str (state q) "") (or_str (finYear q) "")
                (district q) w) as R.
  destruct (resolveState env _ _ (district q) w) as [w1 [response|[stateRecord|]]];
    cbn [fst] in *; try done.
  pose proof (buildWhereClause_steps (or_str (finYear q) "") (month q) (district q)
                (State.stateCode stateRecord) (State.stateName stateRecord) w1) as B.
  destruct (buildWhereClause env _ (month q) (district q) _ _ w1) as [w2 [wc|]];
    cbn [fst] in *; [|by eapply P_trans].
  destruct (fetchPerformanceData wc (State.stateCode stateRecord) (db w2));
    [|cbn [fst]; by eapply P_trans].
  pose proof (refetch_steps (or_str (state q) "") (or_str (finYear q) "") (month q)
                (district q) stateRecord w2) as F.
  destruct (refetch env _ _ (month q) (district q) stateRecord w2) as [w3 [response|data]];
    cbn [fst] in *; eapply P_trans; eauto.
Qed.

End StepFacts.

Section MoreResolverFacts.
Import JS Storage Ingest Resolver.
Local Open Scope list_scope.

(** The resolver writes only what the upstream yields: when no upstream
    call yields a record, whatever the request and however it ends, the
    store is left exactly as it was. *)
Theorem getDistrictData_reads_only (env : Env) (q : Query) (w : World) :
  (forall history params,
     upstream env history params = None \/ upstream env history params = Some []) ->
  db (fst (getDistrictData env q w)) = db w.
Proof.
  intros Hsilent.
  apply (getDistrictData_steps env (fun w w' => db w' = db w)); try done.
  - intros w1 w2 w3 H1 H2. by rewrite H2.
  - intros history params apiData w1 U Hne.
    destruct (Hsilent history params) as [H|H]; rewrite H in U; [done|].
    by injection U as <-.
Qed.

Lemma getDistrictData_reads_only_witness :
  db (fst (getDistrictData Examples.upstreamOfNothing Examples.keralaQuery Examples.blank))
  = Storage.empty.
Proof.
  apply (getDistrictData_reads_only Examples.upstreamOfNothing Examples.keralaQuery
           Examples.blank).
  intros history params. by right.
Defined.

(** The resolver keeps the store consistent: it changes the store only
    through the engine, so a store whose references resolve before a
    request has them resolve after it, however the request ends. *)
Theorem getDistrictData_keeps_integrity (env : Env) (q : Query) (w : World) :
  Spec.referentialIntegrity (db w) ->
  Spec.referentialIntegrity (db (fst (getDistrictData env q w))).
Proof.
  apply (getDistrictData_steps env
           (fun w w' => Spec.referentialIntegrity (db w) ->
                        Spec.referentialIntegrity (db w'))); try done.
  - intros w1 w2 w3 H1 H2 H. auto.
  - intros _ _ apiData w1 _ _ H. unfold store.
    destruct (processAndStoreDataBulk (currentYear env) apiData (db w1))
      as [db' r] eqn:E. cbn.
    by eapply processAndStoreDataBulk_keeps_integrity.
Qed.

Lemma getDistrictData_keeps_integrity_witness :
  Spec.referentialIntegrity
    (db (fst (getDistrictData Examples.upstreamOf2023 Examples.keralaQuery Examples.blank))).
Proof.
  apply getDistrictData_keeps_integrity. apply empty_integrity.
Defined.

Lemma resolveState_response env state finYear district w response :
  snd (resolveState env state finYear district w) = inl response ->
  State_findOne env (db w) (toUpperCase state) = None
  /\ (status response = 404 \/ status response = 503).
Proof.
  unfold resolveState.
  destruct (State_findOne env (db w) (toUpperCase state)); [done|].
  intros H. split; [done|]. revert H.
  destruct (fetchDistrictData env _ w) as [w1 [[|r l]|]].
  - destruct (State_findOne env (db (tryFallbackYears env state fallbackYears w1)) _);
      cbn; intros [= <-]; by left.
  - destruct (store env (r :: l) w1) as [w2 [ins|e]]; cbn; [done|].
    intros [= <-]. by right.
  - cbn. intros [= <-]. by right.
Qed.

Lemma refetch_response env state finYear month district stateRecord w response :
  snd (refetch env state finYear month district stateRecord w) = inl response ->
  status response = 404.
Proof.
  unfold refetch. destruct (fetchDistrictData env _ w) as [w1 [[|r l]|]]; try done.
  destruct (store env (r :: l) w1) as [w2 [ins|e]]; [|done].
  destruct (buildWhereClause env finYear month district _ _ w2) as [w3 [wc|]]; [done|].
  cbn. by intros [= <-].
Qed.

Lemma respond_status q data : status (respond q data) = if data is [] then 404 else 200.
Proof. by destruct data. Qed.

(** A request that names a state and a financial year is answered 200,
    404 or 503, the last only for a state that is unknown locally. *)
Lemma getDistrictData_found_status (env : Env) (q : Query) (w : World) :
  truthy_str (state q) = true -> truthy_str (finYear q) = true ->
  status (snd (getDistrictData env q w)) = 200
  \/ status (snd (getDistrictData env q w)) = 404
  \/ (status (snd (getDistrictData env q w)) = 503
      /\ State_findOne env (db w) (toUpperCase (or_str (state q) "")) = None).
Proof.
  intros Hs Hf. unfold getDistrictData. rewrite Hs, Hf. cbn [negb orb].
  pose proof (resolveState_response env (or_str (state q) "") (or_str (finYear q) "")
                (district q) w) as R.
  destruct (resolveState env _ _ (district q) w) as [w1 [response|[stateRecord|]]];
    cbn [fst snd] in *.
  - destruct (R response eq_refl) as [Hnone [H|H]]; auto.
  - destruct (buildWhereClause env _ (month q) (district q) _ _ w1) as [w2 [wc|]];
      cbn [snd]; [|by right; left].
    destruct (fetchPerformanceData wc (State.stateCode stateRecord) (db w2)) eqn:D.
    + pose proof (refetch_response env (or_str (state q) "") (or_str (finYear q) "")
                    (month q) (district q) stateRecord w2) as F.
      destruct (refetch env _ _ (month q) (district q) stateRecord w2)
        as [w3 [response|data]]; cbn [snd] in *.
      * right; left. by apply F.
      * rewrite respond_status. destruct data; auto.
    + cbn [snd]. by left.
  - by right; left.
Qed.


Lemma insert_by_month_elem (x a : Joined) (l : list Joined) :
  x ∈ insert_by_month a l <-> x = a \/ x ∈ l.
Proof.
  induction l as [|y l IH]; cbn.
  - rewrite list_elem_of_singleton, elem_of_nil. tauto.
  - destruct (String.ltb _ _); rewrite !elem_of_cons; [rewrite IH|]; tauto.
Qed.

Lemma by_month_elem (x : Joined) (l : list Joined) :
  x ∈ fold_right insert_by_month [] l <-> x ∈ l.
Proof.
  induction l as [|y l IH]; cbn; [done|].
  rewrite insert_by_month_elem, elem_of_cons, IH. tauto.
Qed.

(** The rows [fetchPerformanceData] hands back are rows of the store that
    match the where clause, joined with their stored district, which lies
    in the state. *)
Lemma fetchPerformanceData_elem whereClause stateCode db (j : Joined) :
  j ∈ fetchPerformanceData whereClause stateCode db ->
  (exists k, performances db !! k = Some (performance j))
  /\ DistrictPerformance.finYear (DistrictPerformance.attributes (performance j))
     = whereFinYear whereClause
  /\ (forall m, whereMonth whereClause = Some m ->
        DistrictPerformance.month (DistrictPerformance.attributes (performance j)) = Some m)
  /\ (forall c, whereDistrictCode whereClause = Some c ->
        DistrictPerformance.districtCode (DistrictPerformance.attributes (performance j))
        = c)
  /\ districts db
       !! DistrictPerformance.districtCode (DistrictPerformance.attributes (performance j))
     = Some (joinedDistrict j)
  /\ District.stateCode (joinedDistrict j) = stateCode.
Proof.
  unfold fetchPerformanceData. cbv zeta.
  intros (row & Hrow & Hjoin)%by_month_elem%list_elem_of_omap.
  apply list_elem_of_In, filter_In in Hrow as [Hin Hmatch].
  apply list_elem_of_In, list_elem_of_fmap in Hin as ([k row'] & -> & Hk).
  apply elem_of_map_to_list in Hk. cbn [snd] in *.
  destruct (districts db !! _) as [d|] eqn:Ed; [|done].
  destruct (String.eqb (District.stateCode d) stateCode) eqn:Es; [|done].
  injection Hjoin as <-. cbn [performance joinedDistrict].
  apply andb_true_iff in Hmatch as [[M1 M2]%andb_true_iff M3].
  split; [by exists k|]. split; [by apply String.eqb_eq|]. split; [|split; [|split]].
  - intros m Em. rewrite Em in M2. by apply bool_decide_eq_true in M2.
  - intros c Ec. rewrite Ec in M3. by apply String.eqb_eq.
  - done.
  - by apply String.eqb_eq.
Qed.

Lemma buildWhereClause_clause env finYear month district stateCode stateName w wc :
  snd (buildWhereClause env finYear month district stateCode stateName w) = Some wc ->
  whereFinYear wc = finYear
  /\ whereMonth wc = (if truthy_str month then toUpperCase <$> month else None).
Proof.
  unfold buildWhereClause. destruct (truthy_str district).
  2: { cbn. by intros [= <-]. }
  destruct (District_findOne env (db w) _ stateCode).
  { cbn. by intros [= <-]. }
  destruct (fetchDistrictData env _ w) as [w1 [[|r l]|]]; try done.
  destruct (store env (r :: l) w1) as [w2 [ins|e]]; [|done].
  destruct (District_findOne env (db w2) _ stateCode); [|done].
  cbn. by intros [= <-].
Qed.

(** A 200 answer is never empty, and every row in it is a row of the store
    as the request leaves it, of the financial year asked for, and of the
    month asked for when there is one; it carries the score and the grade
    of that row. *)
Theorem getDistrictData_success (env : Env) (q : Query) (w w' : World)
    (data : list ProcessedItem) :
  getDistrictData env q w = (w', Success data) ->
  data <> []
  /\ Forall (fun it =>
       (exists k, performances (db w') !! k = Some (performance (item it)))
       /\ DistrictPerformance.finYear
            (DistrictPerformance.attributes (performance (item it)))
          = or_str (finYear q) ""
       /\ (truthy_str (month q) = true ->
           DistrictPerformance.month
             (DistrictPerformance.attributes (performance (item it)))
           = toUpperCase <$> month q)
       /\ performanceScore it = Metrics.calculatePerformanceScore (view (item it))
       /\ performanceGrade it = Metrics.getPerformanceGrade (view (item it)))
     data.
Proof.
  assert (forall wc code rows,
            whereFinYear wc = or_str (finYear q) "" ->
            whereMonth wc = (if truthy_str (month q) then toUpperCase <$> month q
                             else None) ->
            rows = fetchPerformanceData wc code (db w') ->
            respond q rows = Success data ->
            data <> []
            /\ Forall (fun it =>
                 (exists k, performances (db w') !! k = Some (performance (item it)))
                 /\ DistrictPerformance.finYear
                      (DistrictPerformance.attributes (performance (item it)))
                    = or_str (finYear q) ""
                 /\ (truthy_str (month q) = true ->
                     DistrictPerformance.month
                       (DistrictPerformance.attributes (performance (item it)))
                     = toUpperCase <$> month q)
                 /\ performanceScore it
                    = Metrics.calculatePerformanceScore (view (item it))
                 /\ performanceGrade it = Metrics.getPerformanceGrade (view (item it)))
               data) as Hrespond.
  { intros wc code rows Ey Em Erows Hresp.
    assert (rows <> []
            /\ data = map (fun item =>
                             {| item := item;
                                performanceScore :=
                                  Metrics.calculatePerformanceScore (view item);
                                performanceGrade :=
                                  Metrics.getPerformanceGrade (view item) |}) rows)
      as [Hne ->].
    { unfold respond in Hresp. destruct rows; [done|]. by injection Hresp as <-. }
    split; [by destruct rows|].
    apply Forall_forall. intros it (j & -> & Hj)%list_elem_of_fmap. cbn.
    rewrite Erows in Hj.
    apply fetchPerformanceData_elem in Hj as (Hk & Hy & Hm & _).
    split; [done|]. split; [by rewrite Hy|]. split; [|done].
    intros Hmonth. rewrite Hmonth in Em.
    destruct (month q) as [m0|]; [|done]. cbn in *. by apply Hm. }
  unfold getDistrictData.
  destruct (negb (truthy_str (state q)) || negb (truthy_str (finYear q))); [done|].
  pose proof (resolveState_response env (or_str (state q) "") (or_str (finYear q) "")
                (district q) w) as R.
  destruct (resolveState env _ _ (district q) w) as [w1 [response|[stateRecord|]]];
    cbn [snd] in R; [|clear R|done].
  { intros [= _ ->]. destruct (R _ eq_refl) as [_ [H|H]]; discriminate H. }
  pose proof (buildWhereClause_clause env (or_str (finYear q) "") (month q) (district q)
                (State.stateCode stateRecord) (State.stateName stateRecord) w1) as B.
  destruct (buildWhereClause env _ (month q) (district q) _ _ w1) as [w2 [wc|]];
    cbn [snd] in *; [|done].
  destruct (B wc eq_refl) as [Ey Em].
  destruct (fetchPerformanceData wc (State.stateCode stateRecord) (db w2)) as [|row rows]
    eqn:D.
  - unfold refetch.
    destruct (fetchDistrictData env _ w2) as [w3 [[|r l]|]]; try done.
    destruct (store env (r :: l) w3) as [w4 [ins|e]]; [|done].
    pose proof (buildWhereClause_clause env (or_str (finYear q) "") (month q) (district q)
                  (State.stateCode stateRecord) (State.stateName stateRecord) w4) as B'.
    destruct (buildWhereClause env _ (month q) (district q) _ _ w4) as [w5 [wc'|]];
      cbn [snd] in *; [|done].
    destruct (B' wc' eq_refl) as [Ey' Em'].
    intros [= <- Hr]. by eapply Hrespond.
  - intros [= <- Hr].
    apply (Hrespond wc (State.stateCode stateRecord) (row :: rows) Ey Em (eq_sym D)).
    cbn. by rewrite Hr.
Qed.

Lemma getDistrictData_success_witness :
  exists data,
    getDistrictData Examples.upstreamOfNothing Examples.keralaQuery Examples.populated
    = (Examples.populated, Success data)
    /\ data <> [].
Proof.
  eexists. split; [vm_compute; reflexivity|].
  eapply (getDistrictData_success Examples.upstreamOfNothing Examples.keralaQuery
            Examples.populated Examples.populated).
  vm_compute. reflexivity.
Defined.

End MoreResolverFacts.

(** ** The cache and the upstream client *)

Section CacheFacts.
Import JS Ingest Cache.
Local Open Scope list_scope.

Context {V : Type}.

Lemma get_set (now later ttl : Z) (key : string) (value : V) (redis : Redis V) :
  ready redis = true ->
  get later key (fst (set now key value ttl redis))
  = if later <? now + ttl then Some value else None.
Proof.
  intros R. unfold set, get. rewrite R. cbn. by rewrite lookup_insert_eq.
Qed.



End CacheFacts.

Section ApiFacts.
Import JS Codes Ingest Resolver Api.
Local Open Scope list_scope.


(** The records of an answered request are served from the cache for an
    hour: a second call for the same parameters within 3600 seconds makes no
    request and yields the same records, an empty list of records included,
    whatever the upstream would answer by then; after the hour the upstream
    is asked again. *)
Theorem fetchDistrictData_cached (http http' : Request -> Reply) (now later : Z)
    (params : FetchParams) (redis : Cache.Redis (list ApiRecord))
    (records : list ApiRecord) :
  Cache.ready redis = true ->
  Cache.get now (cacheKey params) redis = None ->
  http (requestOf params) = Body (Some records) ->
  snd (fetchDistrictData http now params redis) = Some records
  /\ snd (fst (fetchDistrictData http now params redis)) = [requestOf params]
  /\ (now <= later < now + 3600 ->
      fetchDistrictData http' later params
        (fst (fst (fetchDistrictData http now params redis)))
      = (fst (fst (fetchDistrictData http now params redis)), [], Some records))
  /\ (now + 3600 <= later ->
      snd (fst (fetchDistrictData http' later params
                  (fst (fst (fetchDistrictData http now params redis)))))
      = [requestOf params]).
Proof.
  intros R Hmiss Hhttp. unfold fetchDistrictData at 1 2 4 5 7. cbv zeta.
  rewrite Hmiss, Hhttp.
  destruct (Cache.set now (cacheKey params) records 3600 redis) as [redis1 ok] eqn:S.
  cbn [fst snd].
  assert (forall t, Cache.get t (cacheKey params) redis1
                    = if t <? now + 3600 then Some records else None) as G.
  { intros t. replace redis1 with (fst (Cache.set now (cacheKey params) records 3600 redis))
      by by rewrite S. by apply get_set. }
  split; [done|]. split; [done|]. split.
  - intros [H1 H2]. unfold fetchDistrictData. cbv zeta. rewrite G.
    by rewrite (proj2 (Z.ltb_lt _ _) H2).
  - intros H. unfold fetchDistrictData. cbv zeta. rewrite G.
    rewrite (proj2 (Z.ltb_ge _ _) H).
    destruct (http' (requestOf params)) as [|[records'|]]; try done.
    by destruct (Cache.set later (cacheKey params) records' 3600 redis1).
Qed.

Lemma fetchDistrictData_cached_witness :
  fetchDistrictData Samples.httpDown 3599 Samples.keralaParams
    (fst (fst (fetchDistrictData Samples.httpOfKerala 0 Samples.keralaParams
                 Samples.emptyCache)))
  = (fst (fst (fetchDistrictData Samples.httpOfKerala 0 Samples.keralaParams
                 Samples.emptyCache)), [], Some Examples.batch).
Proof.
  apply (fetchDistrictData_cached Samples.httpOfKerala Samples.httpDown 0 3599
           Samples.keralaParams Samples.emptyCache Examples.batch);
    [reflexivity | reflexivity | reflexivity | lia].
Defined.

(** The cache never fails a call.  A call makes at most one request, the
    one for its parameters, and none on a cache hit; it throws only when
    that request is rejected; and with a cache whose commands fail it is the
    plain request: the answer of the upstream, and the cache left alone. *)
Theorem fetchDistrictData_degrades (http : Request -> Reply) (now : Z)
    (params : FetchParams) (redis : Cache.Redis (list ApiRecord)) :
  (snd (fst (fetchDistrictData http now params redis)) = []
   \/ snd (fst (fetchDistrictData http now params redis)) = [requestOf params])
  /\ (snd (fetchDistrictData http now params redis) = None
      <-> Cache.get now (cacheKey params) redis = None
          /\ http (requestOf params) = Rejected)
  /\ (Cache.ready redis = false ->
      fetchDistrictData http now params redis
      = (redis, [requestOf params],
         match http (requestOf params) with
         | Body (Some records) => Some records
         | Body None => Some []
         | Rejected => None
         end)).
Proof.
  unfold fetchDistrictData. cbv zeta. split; [|split].
  - destruct (Cache.get now (cacheKey params) redis); [by left|]. right.
    destruct (http (requestOf params)) as [|[records|]]; try done.
    by destruct (Cache.set now (cacheKey params) records 3600 redis).
  - destruct (Cache.get now (cacheKey params) redis).
    { cbn. split; [done|]. by intros [? _]. }
    destruct (http (requestOf params)) as [|[records|]]; cbn.
    + done.
    + destruct (Cache.set now (cacheKey params) records 3600 redis). cbn.
      split; [done|]. by intros [_ ?].
    + split; [done|]. by intros [_ ?].
  - intros R. unfold Cache.get, Cache.set. rewrite R.
    by destruct (http (requestOf params)) as [|[records|]].
Qed.

Lemma colon_free_split (a a' x x' : string) :
  includes a ":" = false -> includes a' ":" = false ->
  a +:+ String ":" x = a' +:+ String ":" x' -> a = a' /\ x = x'.
Proof.
  revert a'. induction a as [|c a IH]; intros [|c' a'] Ha Ha'; rewrite ?app_String.
  - by intros [= ->].
  - intros [= <- _]. cbn in Ha'. done.
  - intros [= -> _]. cbn in Ha. done.
  - cbn in Ha, Ha'. intros [= -> H].
    destruct (Ascii.eqb c' ":"); [done|].
    by destruct (IH a' Ha Ha' H) as [-> ->].
Qed.

Lemma string_app_inj (p a b : string) : p +:+ a = p +:+ b -> a = b.
Proof. induction p as [|c p IH]; [done|]. rewrite !app_String. intros [= H]. auto. Qed.

(** Cache keys tell the fetches apart as long as state names and years
    hold no colon and no district is called "all": then two fetches with
    the same key have the same parameters.  A district called "all" shares
    the key of the fetch of every district. *)
Theorem cacheKey_injective (params params' : FetchParams) :
  includes (stateName params) ":" = false ->
  includes (stateName params') ":" = false ->
  includes (fetchYear params) ":" = false ->
  includes (fetchYear params') ":" = false ->
  (forall d, districtName params = Some d -> d <> "" /\ d <> "all") ->
  (forall d, districtName params' = Some d -> d <> "" /\ d <> "all") ->
  (cacheKey params = cacheKey params' -> params = params')
  /\ cacheKey {| stateName := stateName params; fetchYear := fetchYear params;
                 districtName := Some "all" |}
     = cacheKey {| stateName := stateName params; fetchYear := fetchYear params;
                   districtName := None |}.
Proof.
  intros Hs Hs' Hy Hy' Hd Hd'. split; [|reflexivity].
  unfold cacheKey. intros H.
  apply (string_app_inj "mgnrega:") in H.
  change (?a +:+ ":" +:+ ?b) with (a +:+ String ":" b) in H.
  apply colon_free_split in H as [Es H]; [|done|done].
  change (?a +:+ ":" +:+ ?b) with (a +:+ String ":" b) in H.
  apply colon_free_split in H as [Ey H]; [|done|done].
  destruct params as [s y d], params' as [s' y' d']. cbn in *. subst s' y'.
  f_equal. unfold or_str in H.
  destruct d as [d|], d' as [d'|].
  - destruct (Hd d eq_refl) as [N1 _], (Hd' d' eq_refl) as [N1' _].
    apply String.eqb_neq in N1, N1'. rewrite N1, N1' in H. by subst.
  - destruct (Hd d eq_refl) as [N1 N2]. apply String.eqb_neq in N1. rewrite N1 in H.
    done.
  - destruct (Hd' d' eq_refl) as [N1 N2]. apply String.eqb_neq in N1. rewrite N1 in H.
    done.
  - done.
Qed.

Lemma cacheKey_injective_witness :
  includes (stateName Samples.keralaParams) ":" = false
  /\ includes (fetchYear Samples.keralaParams) ":" = false
  /\ cacheKey Samples.keralaParams
     <> cacheKey {| stateName := "Kerala"; fetchYear := "2024-2025";
                    districtName := Some "Idukki" |}.
Proof.
  split; [reflexivity|]. split; [reflexivity|]. intros H.
  apply (cacheKey_injective Samples.keralaParams
           {| stateName := "Kerala"; fetchYear := "2024-2025";
              districtName := Some "Idukki" |}) in H;
    [discriminate H | reflexivity | reflexivity | reflexivity | reflexivity
    | intros d [=] | intros d [= <-]; split; discriminate].
Defined.

(** Every state of the list [fetchStatesList] falls back on has a code in
    the table of [generateStateCode], and no two of them share a code: on a
    cache miss the list names 28 states with 28 codes. *)
Theorem fetchStatesList_codes (now : Z) (redis : Cache.Redis (list string)) :
  Cache.get now "mgnrega:states:list" redis = None ->
  snd (fetchStatesList now redis) = states
  /\ Forall (fun name => assoc name stateCodeMap = Some (generateStateCode (Some name)))
            (snd (fetchStatesList now redis))
  /\ NoDup (map (fun name => generateStateCode (Some name))
                (snd (fetchStatesList now redis))).
Proof.
  intros Hmiss. unfold fetchStatesList. cbv zeta. rewrite Hmiss.
  destruct (Cache.set now "mgnrega:states:list" states 86400 redis) as [redis1 ok].
  cbn [snd]. split; [done|]. split.
  - apply Forall_forall. intros name Hin%list_elem_of_In.
    assert (forallb (fun name =>
                       bool_decide (assoc name stateCodeMap
                                    = Some (generateStateCode (Some name))))
                    states = true) as T by (vm_compute; reflexivity).
    rewrite forallb_forall in T. specialize (T name Hin).
    by apply bool_decide_eq_true in T.
  - apply (bool_decide_unpack _). vm_compute. exact I.
Qed.

Lemma fetchStatesList_codes_witness :
  length (snd (fetchStatesList 0 {| Cache.ready := false; Cache.entries := ∅ |}))
  = 28%nat.
Proof.
  rewrite (proj1 (fetchStatesList_codes 0 {| Cache.ready := false; Cache.entries := ∅ |}
                    eq_refl)).
  reflexivity.
Defined.

Lemma unique_spec (values : list (option string)) :
  NoDup (unique values) /\ forall value, value ∈ unique values <-> value ∈ values.
Proof.
  unfold unique. induction values as [|x l [IH1 IH2]] using rev_ind.
  { split; [constructor|done]. }
  rewrite foldl_snoc. set (seen := foldl _ [] l) in *.
  destruct (bool_decide (x ∈ seen)) eqn:E.
  - apply bool_decide_eq_true in E. split; [done|]. intros value.
    rewrite elem_of_app, list_elem_of_singleton, IH2. split; [tauto|].
    intros [H| ->]; [done|]. by apply IH2.
  - apply bool_decide_eq_false in E. split.
    + apply NoDup_app. split; [done|]. split; [|apply NoDup_singleton].
      by intros value Hin ->%list_elem_of_singleton.
    + intros value. by rewrite !elem_of_app, !list_elem_of_singleton, IH2.
Qed.

(** The districts list names every district of the records once: no name
    twice, no name missing, none made up; it always asks for the year
    2024-2025, for every district, and makes at most that one request. *)
Theorem fetchDistrictsList_names (http : Request -> Reply) (now : Z) (state : string)
    (redis : Cache.Redis (list ApiRecord)) (names : list (option string)) :
  snd (fetchDistrictsList http now state redis) = Some names ->
  NoDup names
  /\ (exists data,
        snd (fetchDistrictData http now
               {| stateName := state; fetchYear := "2024-2025"; districtName := None |}
               redis) = Some data
        /\ forall name, name ∈ names <-> exists r, r ∈ data /\ district_name r = name)
  /\ (snd (fst (fetchDistrictsList http now state redis)) = []
      \/ snd (fst (fetchDistrictsList http now state redis))
         = [ {| filterStateName := toUpperCase state; filterFinYear := "2024-2025";
                filterDistrictName := None |} ]).
Proof.
  unfold fetchDistrictsList.
  pose proof (fetchDistrictData_degrades http now
                {| stateName := state; fetchYear := "2024-2025"; districtName := None |}
                redis) as (Hreq & _).
  destruct (fetchDistrictData http now _ redis) as [[redis1 requests] [data|]];
    cbn [fst snd] in *; [|done].
  intros [= <-]. destruct (unique_spec (map district_name data)) as [U1 U2].
  split; [done|]. split; [|done].
  exists data. split; [done|]. intros name. rewrite U2, list_elem_of_fmap.
  split; intros (r & ? & ?); by exists r.
Qed.

Lemma fetchDistrictsList_names_witness :
  NoDup [Some "Ernakulam"; Some "Idukki"]
  /\ snd (fetchDistrictsList Samples.httpOfKerala 0 "Kerala" Samples.emptyCache)
     = Some [Some "Ernakulam"; Some "Idukki"].
Proof.
  assert (snd (fetchDistrictsList Samples.httpOfKerala 0 "Kerala" Samples.emptyCache)
          = Some [Some "Ernakulam"; Some "Idukki"]) as H by (vm_compute; reflexivity).
  split; [|exact H].
  apply (fetchDistrictsList_names Samples.httpOfKerala 0 "Kerala" Samples.emptyCache _ H).
Defined.

End ApiFacts.

(** ** The routes and the other handlers *)

Section RouteFacts.
Import JS Codes Storage Ingest Routes.
Local Open Scope list_scope.

Lemma dispatch_cases (m : Method) (segments : list string) :
  dispatch m segments
  = match m, segments with
    | GET, [] =>
        Some ({| method := GET; pattern := []; handler := getDistrictData |}, [])
    | GET, [segment] =>
        if String.eqb (toUpperCase segment) "STATES" then
          Some ({| method := GET; pattern := [Literal "states"];
                   handler := getStatesList |}, [])
        else if String.eqb (toUpperCase segment) "FINANCIAL-YEARS" then
          Some ({| method := GET; pattern := [Literal "financial-years"];
                   handler := getFinancialYears |}, [])
        else if String.eqb (toUpperCase segment) "LIST" then
          Some ({| method := GET; pattern := [Literal "list"];
                   handler := getDistrictsList |}, [])
        else if String.eqb segment "" then None
        else
          Some ({| method := GET; pattern := [Param "districtCode"];
                   handler := getDistrictDetails |}, [("districtCode", segment)])
    | POST, [segment] =>
        if String.eqb (toUpperCase segment) "COMPARE" then
          Some ({| method := POST; pattern := [Literal "compare"];
                   handler := compareDistricts |}, [])
        else None
    | _, _ => None
    end.
Proof.
  unfold dispatch, routes.
  destruct m, segments as [|segment [|s2 rest]];
    cbn [dispatchIn method pattern same_method matchPath option_map];
    change (toUpperCase "states") with "STATES";
    change (toUpperCase "financial-years") with "FINANCIAL-YEARS";
    change (toUpperCase "list") with "LIST";
    change (toUpperCase "historical") with "HISTORICAL";
    change (toUpperCase "statistics") with "STATISTICS";
    change (toUpperCase "top-performers") with "TOP-PERFORMERS";
    change (toUpperCase "compare") with "COMPARE";
    try reflexivity.
  - destruct (String.eqb (toUpperCase segment) "STATES"); [done|].
    destruct (String.eqb (toUpperCase segment) "FINANCIAL-YEARS"); [done|].
    destruct (String.eqb (toUpperCase segment) "LIST"); [done|].
    destruct (String.eqb segment "") eqn:E; [|done].
    apply String.eqb_eq in E. subst segment. reflexivity.
  - repeat match goal with
           | |- context [String.eqb ?a ?b] => destruct (String.eqb a b)
           end; reflexivity.
  - by destruct (String.eqb (toUpperCase segment) "COMPARE").
  - by destruct (String.eqb (toUpperCase segment) "COMPARE").
Qed.

(** Three routes are never served.  The route [/:districtCode] is
    registered before [/historical], [/statistics] and [/top-performers]
    and matches every path they match, so whatever the request, the router
    never hands it to [getHistoricalData], [getStateStatistics] or
    [getTopPerformers]; a path of one segment other than [states],
    [financial-years] and [list] goes to [getDistrictDetails], with the
    segment as the parameter [districtCode]. *)
Theorem dispatch_shadowed (m : Method) (segments : list string) (route : Route)
    (params : list (string * string)) :
  dispatch m segments = Some (route, params) ->
  (handler route ∉ [getHistoricalData; getStateStatistics; getTopPerformers])
  /\ (route ∈ routes)
  /\ (handler route = getDistrictDetails ->
      exists segment, segments = [segment] /\ params = [("districtCode", segment)]).
Proof.
  rewrite dispatch_cases.
  assert (forall h, h <> getHistoricalData -> h <> getStateStatistics ->
                    h <> getTopPerformers ->
                    h ∉ [getHistoricalData; getStateStatistics; getTopPerformers]) as Hnot.
  { intros h H1 H2 H3 Hin. rewrite !elem_of_cons, elem_of_nil in Hin. tauto. }
  destruct m, segments as [|segment [|s2 rest]]; try done.
  - intros [= <- <-]. split; [by apply Hnot|]. split; [|done].
    unfold routes. rewrite !elem_of_cons. tauto.
  - destruct (String.eqb (toUpperCase segment) "STATES").
    { intros [= <- <-]. split; [by apply Hnot|]. split; [|done].
      unfold routes. rewrite !elem_of_cons. tauto. }
    destruct (String.eqb (toUpperCase segment) "FINANCIAL-YEARS").
    { intros [= <- <-]. split; [by apply Hnot|]. split; [|done].
      unfold routes. rewrite !elem_of_cons. tauto. }
    destruct (String.eqb (toUpperCase segment) "LIST").
    { intros [= <- <-]. split; [by apply Hnot|]. split; [|done].
      unfold routes. rewrite !elem_of_cons. tauto. }
    destruct (String.eqb segment ""); [done|].
    intros [= <- <-]. split; [by apply Hnot|]. split.
    + unfold routes. rewrite !elem_of_cons. tauto.
    + intros _. by exists segment.
  - destruct (String.eqb (toUpperCase segment) "COMPARE"); [|done].
    intros [= <- <-]. split; [by apply Hnot|]. split; [|done].
    unfold routes. rewrite !elem_of_cons. tauto.
Qed.

Lemma dispatch_shadowed_witness :
  exists route params,
    dispatch GET ["historical"] = Some (route, params)
    /\ handler route = getDistrictDetails
    /\ (handler route ∉ [getHistoricalData; getStateStatistics; getTopPerformers]).
Proof.
  eexists _, _. split; [reflexivity|]. split; [reflexivity|].
  eapply (dispatch_shadowed GET ["historical"]). reflexivity.
Defined.

(** [GET /:districtCode] never yields a district.  The route binds the
    parameter [districtCode] and the handler reads [districtName], so
    whatever the path, the query and the store, a request the router hands
    to [getDistrictDetails] is answered 400 for missing parameters. *)
Theorem getDistrictDetails_unreachable (env : Resolver.Env) (segments : list string)
    (route : Route) (params : list (string * string)) (state : option string)
    (db : Store) :
  dispatch GET segments = Some (route, params) ->
  handler route = getDistrictDetails ->
  Controller.getDistrictDetails env params state db = Controller.DetailsMissingParameters
  /\ Controller.serveDistrictDetails env params state db = 400.
Proof.
  rewrite dispatch_cases.
  destruct segments as [|segment [|s2 rest]]; try done.
  { by intros [= <- <-]. }
  destruct (String.eqb (toUpperCase segment) "STATES"); [by intros [= <- <-]|].
  destruct (String.eqb (toUpperCase segment) "FINANCIAL-YEARS"); [by intros [= <- <-]|].
  destruct (String.eqb (toUpperCase segment) "LIST"); [by intros [= <- <-]|].
  destruct (String.eqb segment ""); [done|].
  intros [= <- <-] _.
  assert (Controller.getDistrictDetails env [("districtCode", segment)] state db
          = Controller.DetailsMissingParameters) as E by reflexivity.
  split; [exact E|]. unfold Controller.serveDistrictDetails. rewrite E.
  by destruct (validDistrictCodeParam _).
Qed.

Lemma getDistrictDetails_unreachable_witness :
  Controller.serveDistrictDetails Examples.upstreamOfNothing [("districtCode", "KLERN123")]
    (Some "Kerala") Examples.afterBatch = 400.
Proof.
  apply (getDistrictDetails_unreachable Examples.upstreamOfNothing ["KLERN123"]
           {| method := GET; pattern := [Param "districtCode"];
              handler := getDistrictDetails |});
    reflexivity.
Defined.

Lemma is_digit_val c : is_digit c = true -> 0 <= digit_val c <= 9.
Proof.
  intros H. destruct (is_digit_cases c H) as [->|[->|[->|[->|[->|[->|[->|[->|[->| ->]]]]]]]]];
    by vm_compute.
Qed.

Lemma matchesYearPattern_shape value :
  matchesYearPattern value = true ->
  exists a b, value = a +:+ String "-" b
              /\ Spec.allDigits a = true /\ Spec.allDigits b = true
              /\ String.length a = 4%nat /\ String.length b = 4%nat
              /\ 0 <= Spec.yearOf a <= 9999 /\ 0 <= Spec.yearOf b <= 9999.
Proof.
  unfold matchesYearPattern.
  destruct value as [|a [|b [|c [|d [|dash [|e [|f [|g [|h [|x rest]]]]]]]]]];
    cbn [list_ascii_of_string]; try done.
  cbn [forallb]. rewrite !andb_true_r.
  intros [[[A [B [C D]%andb_true_iff]%andb_true_iff]%andb_true_iff
            ->%Ascii.eqb_eq]%andb_true_iff
           [E [F [G H]%andb_true_iff]%andb_true_iff]%andb_true_iff]%andb_true_iff.
  exists (String a (String b (String c (String d "")))),
         (String e (String f (String g (String h "")))).
  split; [reflexivity|]. cbn [Spec.allDigits String.length].
  rewrite A, B, C, D, E, F, G, H. repeat (split; [reflexivity|]).
  unfold Spec.yearOf. cbn [decimal_value].
  pose proof (is_digit_val a A). pose proof (is_digit_val b B).
  pose proof (is_digit_val c C). pose proof (is_digit_val d D).
  pose proof (is_digit_val e E). pose proof (is_digit_val f F).
  pose proof (is_digit_val g G). pose proof (is_digit_val h H).
  lia.
Qed.

Lemma parseFinancialYear_digits currentYear a b :
  a <> "" -> b <> "" -> Spec.allDigits a = true -> Spec.allDigits b = true ->
  parseFinancialYear currentYear (a +:+ String "-" b)
  = {| startYear := Some (Spec.yearOf a); endYear := Some (Spec.yearOf b) |}
  /\ Controller.startYearOf (a +:+ String "-" b) = Some (Spec.yearOf a).
Proof.
  intros Ha Hb Da Db. unfold parseFinancialYear, Controller.startYearOf.
  rewrite includes_at_sep.
  assert (String.eqb (a +:+ String "-" b) "" = false) as ->.
  { apply String.eqb_neq. by destruct a. }
  cbn [orb negb]. rewrite split_at_sep by by apply digits_no_dash.
  rewrite split_no_sep by by apply digits_no_dash.
  cbn [lookup list_lookup parseInt_prop]. by rewrite !parseInt_digits.
Qed.

(** What the route lets through, the handler and the parser accept.  A
    query that passes the validators of [GET /] is never answered 400 by
    [getDistrictData]; it names a district; its financial year has the
    shape YYYY-YYYY, and parses to two years, not to the default span nor to
    NaN; and its month, when there is one, is already in upper case. *)
Theorem validDistrictDataQuery_sound (env : Resolver.Env) (q : Resolver.Query)
    (w : Resolver.World) (currentYear : Z) :
  validDistrictDataQuery q = true ->
  Resolver.status (snd (Resolver.getDistrictData env q w)) <> 400
  /\ truthy_str (Resolver.district q) = true
  /\ Spec.wellFormedLabel (or_str (Resolver.finYear q) "") = true
  /\ (exists a b,
        parseFinancialYear currentYear (or_str (Resolver.finYear q) "")
        = {| startYear := Some a; endYear := Some b |}
        /\ 0 <= a <= 9999 /\ 0 <= b <= 9999)
  /\ toUpperCase <$> Resolver.month q = Resolver.month q.
Proof.
  unfold validDistrictDataQuery.
  intros [[[Hs [Hf Hy]%andb_true_iff]%andb_true_iff Hd]%andb_true_iff Hm]%andb_true_iff.
  split.
  { destruct (getDistrictData_found_status env q w Hs Hf) as [H|[H|[H _]]];
      rewrite H; done. }
  split; [done|].
  destruct (matchesYearPattern_shape _ Hy)
    as (a & b & -> & Da & Db & La & Lb & Ra & Rb).
  assert (a <> "") as Na by (intros ->; discriminate La).
  assert (b <> "") as Nb by (intros ->; discriminate Lb).
  split; [|split].
  - unfold Spec.wellFormedLabel.
    rewrite split_at_sep by by apply digits_no_dash.
    rewrite split_no_sep by by apply digits_no_dash.
    by rewrite Da, Db, La, Lb.
  - exists (Spec.yearOf a), (Spec.yearOf b).
    split; [by apply parseFinancialYear_digits|done].
  - destruct (Resolver.month q) as [m|]; [|done]. cbn. f_equal.
    apply bool_decide_eq_true in Hm. unfold monthNames in Hm.
    rewrite !elem_of_cons, elem_of_nil in Hm.
    destruct Hm as [->|[->|[->|[->|[->|[->|[->|[->|[->|[->|[->|[->|[]]]]]]]]]]]]];
      reflexivity.
Qed.

Lemma validDistrictDataQuery_sound_witness :
  validDistrictDataQuery
    {| Resolver.state := Some "Kerala"; Resolver.district := Some "Idukki";
       Resolver.finYear := Some "2024-2025"; Resolver.month := Some "APRIL" |} = true
  /\ Resolver.status
       (snd (Resolver.getDistrictData Examples.upstreamOfNothing
               {| Resolver.state := Some "Kerala"; Resolver.district := Some "Idukki";
                  Resolver.finYear := Some "2024-2025"; Resolver.month := Some "APRIL" |}
               Examples.populated)) <> 400.
Proof.
  split; [reflexivity|].
  apply (validDistrictDataQuery_sound Examples.upstreamOfNothing
           {| Resolver.state := Some "Kerala"; Resolver.district := Some "Idukki";
              Resolver.finYear := Some "2024-2025"; Resolver.month := Some "APRIL" |}
           Examples.populated 2026).
  reflexivity.
Defined.

End RouteFacts.

Section ControllerFacts.
Import JS Codes Storage Ingest Controller.
Local Open Scope list_scope.

Lemma numberToString_year (year : Z) :
  0 <= year ->
  numberToString (Some year) <> ""
  /\ Spec.allDigits (numberToString (Some year)) = true
  /\ Spec.yearOf (numberToString (Some year)) = year.
Proof.
  intros H. unfold numberToString. rewrite (proj2 (Z.ltb_ge _ _) H).
  destruct (natToString_spec year H) as (A & B & C). done.
Qed.

(** The labels [getHistoricalData] asks the store for are labels the
    engine can have stored: the label of the [i]-th year back is read by
    [parseFinancialYear] as that year and the next, whatever the clock
    shows, and the start year read off a label is the year it was made
    from; there are as many labels as years asked for. *)
Theorem yearsList_parse (currentYear startYear years : Z) (i : nat) (label : string) :
  yearsList (Some startYear) years !! i = Some label ->
  0 <= startYear - Z.of_nat i ->
  parseFinancialYear currentYear label
  = {| Codes.startYear := Some (startYear - Z.of_nat i);
       endYear := Some (startYear - Z.of_nat i + 1) |}
  /\ startYearOf label = Some (startYear - Z.of_nat i)
  /\ (i < Z.to_nat years)%nat
  /\ length (yearsList (Some startYear) years) = Z.to_nat years.
Proof.
  unfold yearsList. intros Hi Hpos.
  change (map ?f ?l) with (f <$> l) in *.
  rewrite list_lookup_fmap in Hi.
  destruct (seq 0 (Z.to_nat years) !! i) as [j|] eqn:Ej; [|done].
  apply lookup_seq in Ej as [-> Hlt].
  assert (label = numberToString (Some (startYear - Z.of_nat i))
                  +:+ String "-" (numberToString (Some (startYear - Z.of_nat i + 1))))
    as -> by (by injection Hi as <-).
  destruct (numberToString_year (startYear - Z.of_nat i) Hpos) as (N1 & D1 & Y1).
  destruct (numberToString_year (startYear - Z.of_nat i + 1)) as (N2 & D2 & Y2); [lia|].
  destruct (parseFinancialYear_digits currentYear _ _ N1 N2 D1 D2) as [P S].
  rewrite P, S, Y1, Y2. split; [done|]. split; [done|]. split; [done|].
  by rewrite length_fmap, length_seq.
Qed.

Lemma yearsList_parse_witness :
  yearsList (Some 2024) 5 !! 2%nat = Some "2022-2023"
  /\ parseFinancialYear 1999 "2022-2023"
     = {| Codes.startYear := Some 2022; endYear := Some 2023 |}.
Proof.
  assert (yearsList (Some 2024) 5 !! 2%nat = Some "2022-2023") as H
    by (vm_compute; reflexivity).
  split; [exact H|].
  apply (yearsList_parse 1999 2024 5 2 "2022-2023" H). lia.
Defined.

Lemma insert_by_name_elem (x a : District.t) (l : list District.t) :
  x ∈ insert_by_name a l <-> x = a \/ x ∈ l.
Proof.
  induction l as [|y l IH]; cbn.
  - rewrite list_elem_of_singleton, elem_of_nil. tauto.
  - destruct (String.ltb _ _); rewrite !elem_of_cons; [rewrite IH|]; tauto.
Qed.

Lemma District_findAll_elem db stateCode (d : District.t) :
  d ∈ District_findAll db stateCode
  <-> (exists k, districts db !! k = Some d) /\ District.stateCode d = stateCode.
Proof.
  unfold District_findAll.
  assert (forall l, d ∈ fold_right insert_by_name [] l <-> d ∈ l) as ->.
  { induction l as [|y l IH]; cbn; [done|].
    rewrite insert_by_name_elem, elem_of_cons, IH. tauto. }
  rewrite list_elem_of_In, filter_In, <- list_elem_of_In, String.eqb_eq.
  change (map ?f ?l) with (f <$> l). rewrite list_elem_of_fmap.
  split.
  - intros [([k d'] & -> & Hk%elem_of_map_to_list) Hs]. split; [by exists k|done].
  - intros [[k Hk] Hs]. split; [|done]. exists (k, d). split; [done|].
    by apply elem_of_map_to_list.
Qed.

(** Where the list of districts comes from.  The handler asks the upstream
    at most once, and not at all when it answers from the store, which it
    does exactly when the state is known and has a district; the rows are
    then the stored districts of the state.  A state without stored
    districts is answered from the upstream even when the upstream has
    none (200, no name), where an unknown state is answered 404; and the
    answer is 503 exactly when the upstream was needed and the call
    threw. *)
Theorem getDistrictsList_sources (env : Resolver.Env) (http : Api.Request -> Api.Reply)
    (now : Z) (state : string) (db : Store) (redis : Cache.Redis (list ApiRecord)) :
  state <> "" ->
  (forall data,
     snd (getDistrictsList env http now (Some state) db redis) = ListFromDatabase data ->
     data <> []
     /\ fst (getDistrictsList env http now (Some state) db redis) = (redis, [])
     /\ exists stateRecord,
          Resolver.State_findOne env db (toUpperCase state) = Some stateRecord
          /\ forall d, d ∈ data <->
               (exists k, districts db !! k = Some d)
               /\ District.stateCode d = State.stateCode stateRecord)
  /\ (snd (fst (getDistrictsList env http now (Some state) db redis)) = []
      \/ snd (fst (getDistrictsList env http now (Some state) db redis))
         = [ {| Api.filterStateName := toUpperCase state;
                Api.filterFinYear := "2024-2025";
                Api.filterDistrictName := None |} ])
  /\ (snd (Api.fetchDistrictsList http now state redis) = Some [] ->
      listStatus (snd (getDistrictsList env http now (Some state) db redis))
      = match Resolver.State_findOne env db (toUpperCase state) with
        | Some _ => 200
        | None => 404
        end)
  /\ (listStatus (snd (getDistrictsList env http now (Some state) db redis)) = 503
      <-> snd (Api.fetchDistrictsList http now state redis) = None
          /\ match Resolver.State_findOne env db (toUpperCase state) with
             | Some stateRecord => District_findAll db (State.stateCode stateRecord) = []
             | None => True
             end).
Proof.
  intros Hs. unfold getDistrictsList. cbn [truthy_str or_str].
  apply String.eqb_neq in Hs. rewrite Hs. cbn [negb].
  assert (snd (fst (Api.fetchDistrictsList http now state redis)) = []
          \/ snd (fst (Api.fetchDistrictsList http now state redis))
             = [ {| Api.filterStateName := toUpperCase state;
                    Api.filterFinYear := "2024-2025";
                    Api.filterDistrictName := None |} ]) as Hreq.
  { unfold Api.fetchDistrictsList.
    pose proof (fetchDistrictData_degrades http now
                  {| Resolver.stateName := state; Resolver.fetchYear := "2024-2025";
                     Resolver.districtName := None |} redis) as (H & _).
    by destruct (Api.fetchDistrictData http now _ redis) as [[redis1 requests] data]. }
  destruct (Resolver.State_findOne env db (toUpperCase state)) as [stateRecord|] eqn:Es.
  - destruct (District_findAll db (State.stateCode stateRecord)) as [|d0 ds] eqn:Ed.
    + cbn [length Nat.eqb].
      destruct (Api.fetchDistrictsList http now state redis)
        as [[redis1 requests] [apiDistricts|]]; cbn [fst snd] in *.
      * split; [done|]. split; [done|]. split; [done|]. split; [done|]. by intros [? _].
      * split; [done|]. split; [done|]. split; [done|]. done.
    + cbn [length Nat.eqb fst snd]. split.
      { intros data [= <-]. split; [done|]. split; [done|].
        exists stateRecord. split; [done|]. intros d. rewrite <- Ed.
        apply District_findAll_elem. }
      split; [by left|]. split; [done|]. split; [done|]. by intros [_ ?].
  - destruct (Api.fetchDistrictsList http now state redis)
      as [[redis1 requests] [apiDistricts|]]; cbn [fst snd] in *.
    + destruct apiDistricts as [|n ns]; cbn [length Nat.eqb fst snd].
      * split; [done|]. split; [done|]. split; [done|]. split; [done|]. by intros [? _].
      * split; [done|]. split; [done|]. split; [done|]. split; [done|]. by intros [? _].
    + split; [done|]. split; [done|]. split; [done|]. done.
Qed.

Lemma getDistrictsList_sources_witness :
  listStatus (snd (getDistrictsList Examples.upstreamOfNothing Samples.httpOfKerala 0
                     (Some "Goa") Storage.empty Samples.emptyCache)) = 404.
Proof.
  destruct (getDistrictsList_sources Examples.upstreamOfNothing Samples.httpOfKerala 0
              "Goa" Storage.empty Samples.emptyCache) as (_ & _ & H & _);
    [discriminate|].
  rewrite H; [|vm_compute]; reflexivity.
Defined.

End ControllerFacts.
